(** * populate_db.py: the port-logistics seeding script, embedded in Rocq

    The script talks to three outside parties: a web server (through
    [requests]), a source of random data ([Faker]) and a PostgreSQL
    connection ([psycopg2]).  Each of them is a component of the [World]
    below, and every function of the script is a computation in a
    state-and-exception monad over that world. *)

From Stdlib Require Import ZArith Ascii String List Lia Bool.
From stdpp Require Import base tactics option list strings gmap.

Local Open Scope string_scope.
Local Open Scope list_scope.
Local Open Scope Z_scope.

(** ** Python strings and integers *)

Module Py.

(** [ord(c)] *)
Definition ord (c : ascii) : Z := Z.of_N (N_of_ascii c).

(** [chr(n)], for the code points the script produces (below 256). *)
Definition chr (n : Z) : ascii := ascii_of_N (Z.to_N n).

(** The decimal digit [d] as a character. *)
Definition digit_char (d : Z) : ascii := chr (48 + d).

(** Most significant digit first; [fuel] bounds the number of digits. *)
Fixpoint str_digits (fuel : nat) (n : Z) (acc : string) : string :=
  match fuel with
  | O => acc
  | S fuel' =>
      let acc' := String (digit_char (n mod 10)) acc in
      if n / 10 =? 0 then acc' else str_digits fuel' (n / 10) acc'
  end.

(** [str(n)] for an integer: a number has at most [log2 n + 1] decimal
    digits, see [str_digits_fuel]. *)
Definition str (n : Z) : string :=
  if n <? 0
  then String "-" (str_digits (S (Z.to_nat (Z.log2 (- n)))) (- n) "")
  else str_digits (S (Z.to_nat (Z.log2 n))) n "".

(** [s.rjust(width, c)], which is what the format [{i:03d}] does to the
    digits of a non-negative [i]. *)
Definition rjust (width : nat) (c : ascii) (s : string) : string :=
  string_of_list_ascii (repeat c (width - String.length s)%nat) +:+ s.

(** [sum(l)] *)
Definition sum (l : list Z) : Z := fold_left Z.add l 0.

End Py.

(** ** generate_container_number: the check digit *)

(** The loop body of [generate_container_number]: the value of the
    character [char] found at index [i]. *)
Definition char_value (i : nat) (char : ascii) : Z :=
  let num := Py.ord char in
  let num :=
    if (65 <=? num) && (num <=? 90) then num - 55
    else if (48 <=? num) && (num <=? 57) then num - 48
    else num in
  num * 2 ^ Z.of_nat i.

(** [for i, char in enumerate(base): char_values.append(...)], with the
    enumeration index starting at [i]. *)
Fixpoint char_values (i : nat) (base : string) : list Z :=
  match base with
  | EmptyString => []
  | String char rest => char_value i char :: char_values (S i) rest
  end.

(** Lines 110-122: [base + str(sum(char_values) % 11 % 10)]. *)
Definition with_check_digit (base : string) : string :=
  let total := Py.sum (char_values 0 base) in
  let check_digit := total mod 11 mod 10 in
  base +:+ Py.str check_digit.

(** *** The check-digit rule in the words of the specification

    "letters A-Z map to 10..35 via (codepoint - 55), digits map to their
    face value; multiply the value at position i (0-indexed from the left)
    by 2^i; sum all 10 products; check digit = (sum mod 11) mod 10". *)
Module Iso6346.

Definition value (c : ascii) : option Z :=
  let cp := Py.ord c in
  if (Py.ord "A" <=? cp) && (cp <=? Py.ord "Z") then Some (cp - 55)
  else if (Py.ord "0" <=? cp) && (cp <=? Py.ord "9") then Some (cp - Py.ord "0")
  else None.

Fixpoint products (i : nat) (s : string) : option (list Z) :=
  match s with
  | EmptyString => Some []
  | String c rest =>
      match value c, products (S i) rest with
      | Some v, Some ps => Some (v * 2 ^ Z.of_nat i :: ps)
      | _, _ => None
      end
  end.

(** The check digit of the first ten characters of [s]. *)
Definition check_digit (s : string) : option Z :=
  match products 0 (substring 0 10 s) with
  | Some ps => Some (foldr Z.add 0 ps mod 11 mod 10)
  | None => None
  end.

Definition is_decimal_digit (c : ascii) : bool :=
  (Py.ord "0" <=? Py.ord c) && (Py.ord c <=? Py.ord "9").

End Iso6346.

(** ** Exceptions, and computations that may raise them *)

Inductive exn : Type :=
| RequestException      (* requests: connection error, timeout, HTTPError *)
| DatabaseError         (* psycopg2.Error *)
| KeyError
| ValueError
| IndexError
| UniquenessException   (* faker.exceptions.UniquenessException *)
| RecursionError.

Inductive result (A : Type) : Type :=
| Ok (a : A)
| Raise (e : exn).
Arguments Ok {A} a.
Arguments Raise {A} e.

(** A computation over a state [S].  An exception leaves the state as it
    was when it was raised: Python does not undo side effects. *)
Definition M (S A : Type) : Type := S -> result A * S.

#[global] Instance M_ret {S} : MRet (M S) := fun A a s => (Ok a, s).

#[global] Instance M_bind {S} : MBind (M S) := fun A B f m s =>
  match m s with
  | (Ok a, s') => f a s'
  | (Raise e, s') => (Raise e, s')
  end.

Definition raise {S A} (e : exn) : M S A := fun s => (Raise e, s).

(** Reading the state. *)
Definition gets {S A} (g : S -> A) : M S A := fun s => (Ok (g s), s).

(** [try: m except <the exceptions h handles>: h e] *)
Definition try_except {S A} (m : M S A) (h : exn -> option (M S A)) : M S A :=
  fun s =>
    match m s with
    | (Ok a, s') => (Ok a, s')
    | (Raise e, s') =>
        match h e with
        | Some handler => handler s'
        | None => (Raise e, s')
        end
    end.

(** [for x in l: acc = body acc x], the local variables the loop body
    assigns being threaded through [acc]. *)
Fixpoint for_each {S A Acc} (l : list A) (body : Acc -> A -> M S Acc) (acc : Acc)
  : M S Acc :=
  match l with
  | [] => mret acc
  | x :: rest => acc' ← body acc x; for_each rest body acc'
  end.

(** [range(n)] and [range(a, b)] *)
Definition range (n : Z) : list Z := map Z.of_nat (seq 0 (Z.to_nat n)).
Definition range2 (a b : Z) : list Z := map (fun k => a + Z.of_nat k) (seq 0 (Z.to_nat (b - a))).

(** A step on a component of the state, run on the whole state. *)
Definition lift {S T A} (get : S -> T) (set : T -> S -> S) (m : M T A) : M S A :=
  fun s => let '(r, t) := m (get s) in (r, set t s).

(** ** Faker *)

(** The seeded generator: [rng k] is the k-th number it yields; the
    providers that make up text ([name], [company_email], [phone_number])
    are a function of the number drawn. *)
Record Faker : Type := {
  rng : nat -> Z;
  drawn : nat;
  provider : string -> Z -> string;
  unique_seen : list string     (* what [fake.unique.bothify] returned so far *)
}.

Module fake.

Definition next : M Faker Z := fun f =>
  (Ok (rng f (drawn f)),
   {| rng := rng f; drawn := S (drawn f); provider := provider f;
      unique_seen := unique_seen f |}).

(** [random.randint(a, b)]: a number in [a..b]. *)
Definition randint (a b : Z) : M Faker Z :=
  r ← next; mret (a + r mod (b - a + 1)).

Definition random_int (min max : Z) : M Faker Z := randint min max.

Definition random_digit : M Faker Z := randint 0 9.

(** [random_number(digits, fix_len)] *)
Definition random_number (digits : Z) (fix_len : bool) : M Faker Z :=
  if digits <? 0 then raise ValueError
  else if fix_len then
    if 0 <? digits then randint (10 ^ (digits - 1)) (10 ^ digits - 1)
    else raise ValueError
  else randint 0 (10 ^ digits - 1).

(** [random_element(elements)]: one draw; nothing to choose from an
    empty list. *)
Definition random_element {A} (elements : list A) : M Faker A :=
  match elements with
  | [] => raise IndexError
  | _ =>
      r ← next;
      match elements !! Z.to_nat (r mod Z.of_nat (length elements)) with
      | Some x => mret x
      | None => raise IndexError
      end
  end.

(** [random_uppercase_letter()]: a choice in [string.ascii_uppercase]. *)
Definition random_uppercase_letter : M Faker string :=
  r ← next; mret (String (Py.chr (65 + r mod 26)) "").

(** [random_elements(elements, unique=True, length=length)]: Faker
    refuses a sample longer than the list and otherwise hands over to
    [random.sample], which picks at [length] distinct positions: each pick
    is taken out of the pool and its place filled with the last element. *)
Fixpoint sample {A} (length : nat) (pool : list A) : M Faker (list A) :=
  match length with
  | O => mret []
  | S k =>
      r ← next;
      let j := Z.to_nat (r mod Z.of_nat (List.length pool)) in
      match pool !! j, last pool with
      | Some x, Some y =>
          rest ← sample k (take (List.length pool - 1) (<[j := y]> pool));
          mret (x :: rest)
      | _, _ => raise ValueError
      end
  end.

Definition random_elements_unique {A} (elements : list A) (length : nat)
  : M Faker (list A) :=
  if (List.length elements <? length)%nat then raise ValueError
  else sample length elements.

(** [bothify(text)]: every [#] becomes a random digit.  The other
    placeholders of Faker do not occur in the script's pattern. *)
Fixpoint bothify (text : string) : M Faker string :=
  match text with
  | EmptyString => mret EmptyString
  | String c rest =>
      if Ascii.eqb c "#"
      then d ← random_digit; s ← bothify rest; mret (String (Py.digit_char d) s)
      else s ← bothify rest; mret (String c s)
  end.

(** [fake.unique.bothify(text)]: Faker's [UniqueProxy] loop.  [retval]
    starts as a sentinel that counts as already generated ([None] here). *)
Definition _UNIQUE_ATTEMPTS : nat := 1000.

Fixpoint unique_loop (attempts : nat) (text : string) (retval : option string)
  : M Faker string :=
  match attempts with
  | O => raise UniquenessException
  | S k =>
      fun f =>
        match retval with
        | Some v =>
            if bool_decide (v ∈ unique_seen f)
            then (v' ← bothify text; unique_loop k text (Some v')) f
            else (Ok v,
                  {| rng := rng f; drawn := drawn f; provider := provider f;
                     unique_seen := v :: unique_seen f |})
        | None => (v' ← bothify text; unique_loop k text (Some v')) f
        end
  end.

Definition unique_bothify (text : string) : M Faker string :=
  unique_loop _UNIQUE_ATTEMPTS text None.

(** [name()], [company_email()], [phone_number()] *)
Definition provide (kind : string) : M Faker string :=
  r ← next; gets (fun f => provider f kind r).
Definition name : M Faker string := provide "name".
Definition company_email : M Faker string := provide "company_email".
Definition phone_number : M Faker string := provide "phone_number".

End fake.

(** ** The web: requests and BeautifulSoup *)

(** What the script looks at in a fetched page: the bytes ([raw]), and
    what BeautifulSoup finds in them, the tables of class [wikitable] in
    document order, each one the list of its [tr] rows, each row the list
    of the texts ([get_text(strip=True)]) of its [td] cells. *)
Record Content : Type := {
  raw : string;
  wikitables : list (list (list string))
}.

Record Response : Type := {
  status_code : Z;
  content : Content
}.

Inductive outcome : Type :=
| ConnectionError
| Timeout
| Answer (response : Response).

(** [server k url] is what the k-th request of the run meets. *)
Record Net : Type := {
  server : nat -> string -> outcome;
  requests_made : nat;
  slept : Z                      (* seconds spent in [time.sleep] *)
}.

Module requests.

(** [requests.get(url, headers=HEADERS, timeout=30)] *)
Definition get (url : string) : M Net Response := fun n =>
  let n' := {| server := server n; requests_made := S (requests_made n);
               slept := slept n |} in
  match server n (requests_made n) url with
  | Answer response => (Ok response, n')
  | ConnectionError | Timeout => (Raise RequestException, n')
  end.

(** [response.raise_for_status()]: HTTPError, a RequestException, for
    every 4xx and 5xx status. *)
Definition raise_for_status (response : Response) : M Net unit :=
  if (400 <=? status_code response) && (status_code response <? 600)
  then raise RequestException
  else mret tt.

End requests.

Module time.
Definition sleep (seconds : Z) : M Net unit := fun n =>
  (Ok tt, {| server := server n; requests_made := requests_made n;
             slept := slept n + seconds |}).
End time.

(** The interpreter's bound on the depth of recursion. *)
Definition recursion_limit : nat := 1000.

Fixpoint get_wikipedia_data_rec (depth : nat) (url : string) : M Net (option Content) :=
  match depth with
  | O => raise RecursionError
  | S depth' =>
      try_except
        (response ← requests.get url;
         _ ← requests.raise_for_status response;
         if status_code response =? 429 then
           _ ← time.sleep 30;
           get_wikipedia_data_rec depth' url
         else mret (Some (content response)))
        (fun e => match e with
                  | RequestException => Some (mret None)
                  | _ => None
                  end)
  end.

Definition get_wikipedia_data (url : string) : M Net (option Content) :=
  get_wikipedia_data_rec recursion_limit url.

(** *** Cleaning the scraped names

    The names are Python [str] values.  A character of the model is a
    code point below 256, and the three character classes below are
    Python's classes for [str] on that range. *)

(** [\d]: the decimal digits, which below 256 are 0 to 9. *)
Definition is_digit (c : ascii) : bool := (48 <=? Py.ord c) && (Py.ord c <=? 57).

(** [\w]: the underscore and what [str.isalnum] accepts, which below 256
    are the ASCII letters and digits, the letters of Latin-1 (U+00AA,
    U+00B5, U+00BA, U+00C0 to U+00D6, U+00D8 to U+00F6, U+00F8 to U+00FF)
    and its numerics (U+00B2, U+00B3, U+00B9, U+00BC to U+00BE). *)
Definition is_word (c : ascii) : bool :=
  is_digit c
  || ((65 <=? Py.ord c) && (Py.ord c <=? 90))
  || ((97 <=? Py.ord c) && (Py.ord c <=? 122))
  || (Py.ord c =? 95)
  || (Py.ord c =? 170)
  || ((178 <=? Py.ord c) && (Py.ord c <=? 179))
  || (Py.ord c =? 181)
  || ((185 <=? Py.ord c) && (Py.ord c <=? 186))
  || ((188 <=? Py.ord c) && (Py.ord c <=? 190))
  || ((192 <=? Py.ord c) && (Py.ord c <=? 214))
  || ((216 <=? Py.ord c) && (Py.ord c <=? 246))
  || ((248 <=? Py.ord c) && (Py.ord c <=? 255)).

(** [str.isspace], the characters [str.strip()] removes: below 256 these
    are U+0009 to U+000D, U+001C to U+0020, U+0085 and U+00A0. *)
Definition is_whitespace (c : ascii) : bool :=
  ((9 <=? Py.ord c) && (Py.ord c <=? 13))
  || ((28 <=? Py.ord c) && (Py.ord c <=? 32))
  || (Py.ord c =? 133)
  || (Py.ord c =? 160).

(** [re.sub(r'\[C+\]', '', s)] for a character class [C] that holds
    neither bracket: [held] is the text read since an opening bracket
    that may still turn out to be a citation. *)
Fixpoint re_sub_bracketed (cls : ascii -> bool) (held : option string) (s : string)
  : string :=
  match s with
  | EmptyString => default "" held
  | String c rest =>
      let fresh :=
        if Ascii.eqb c "["
        then re_sub_bracketed cls (Some "[") rest
        else String c (re_sub_bracketed cls None rest) in
      match held with
      | None => fresh
      | Some h =>
          if cls c then re_sub_bracketed cls (Some (h +:+ String c "")) rest
          else if Ascii.eqb c "]" && (1 <? String.length h)%nat
               then re_sub_bracketed cls None rest
               else h +:+ fresh
      end
  end.

Fixpoint lstrip (s : string) : string :=
  match s with
  | EmptyString => EmptyString
  | String c rest => if is_whitespace c then lstrip rest else s
  end.

(** [s.strip()] *)
Definition strip (s : string) : string :=
  lstrip (String.rev (lstrip (String.rev s))).

(** [s.split('(')[0]] *)
Fixpoint before_paren (s : string) : string :=
  match s with
  | EmptyString => EmptyString
  | String c rest => if Ascii.eqb c "(" then EmptyString else String c (before_paren rest)
  end.

(** Python's truth value of [content]: [None] and empty bytes are false. *)
Definition truthy (content : option Content) : option Content :=
  match content with
  | Some c => if String.eqb (raw c) "" then None else Some c
  | None => None
  end.

Definition scrape_shipping_companies : M Net (list string) :=
  let url := "https://en.wikipedia.org/wiki/List_of_largest_container_shipping_companies" in
  content ← get_wikipedia_data url;
  let companies : list string := [] in
  let companies :=
    match truthy content with
    | Some c =>
        match head (wikitables c) with           (* soup.find('table', ...) *)
        | Some table =>
            foldl (fun companies cols =>
                     match cols !! 1%nat with
                     | Some name =>                      (* len(cols) >= 2 *)
                         (companies ++ [strip (re_sub_bracketed is_digit None name)])%list
                     | None => companies
                     end)
                  companies (drop 1 table)               (* skip header *)
        | None =>
            ["Maersk"; "Mediterranean Shipping Company"; "CMA CGM";
             "COSCO Shipping"; "Hapag-Lloyd"; "Ocean Network Express"]
        end
    | None => companies
    end in
  mret (take 15 companies).

Definition scrape_container_ports : M Net (list string) :=
  let url := "https://en.wikipedia.org/wiki/List_of_busiest_container_ports" in
  content ← get_wikipedia_data url;
  let ports : list string := [] in
  let ports :=
    match truthy content with
    | Some c =>
        match wikitables c with                  (* soup.find_all('table', ...) *)
        | table0 :: _ =>
            foldl (fun ports cols =>
                     if (3 <=? length cols)%nat then
                       match cols !! 1%nat with
                       | Some port_name =>
                           (ports ++ [strip (before_paren (re_sub_bracketed is_word None port_name))])%list
                       | None => ports
                       end
                     else ports)
                  ports (drop 1 table0)                  (* skip header *)
        | [] => ["Shanghai"; "Singapore"; "Ningbo-Zhoushan"; "Shenzhen"; "Guangzhou"]
        end
    | None => ports
    end in
  mret ports.

(** ** The database *)

Inductive lookup_table : Type := ShipmentStatus | ContainerType | BerthStatus.

Inductive table : Type :=
| container | shipment | berth | client | vessel
| enum (l : lookup_table).

#[global] Instance lookup_table_eq_dec : EqDecision lookup_table.
Proof. solve_decision. Defined.
#[global] Instance table_eq_dec : EqDecision table.
Proof. solve_decision. Defined.

Record client_row : Type := {
  client_id : Z;
  company_name : string;
  contact_person : string;
  email : string;
  phone : string
}.

Record vessel_row : Type := {
  vessel_id : Z;
  vessel_name : string;
  imo_number : string
}.

Record berth_row : Type := {
  berth_id : Z;
  berth_number : string;
  berth_status_id : Z;
  berth_vessel_id : option Z          (* [None] is SQL NULL *)
}.

Record shipment_row : Type := {
  shipment_id : Z;
  shipment_client_id : Z;
  shipment_status_id : Z;
  bill_of_lading_no : string;
  origin : string;
  destination : string;
  declared_value : Z
}.

Record container_row : Type := {
  container_shipment_id : Z;
  container_vessel_id : option Z;
  container_type_id : Z;
  container_number : string;
  size : Z
}.

(** The rows of every table, in the order of insertion; a row of a
    lookup table is its surrogate id and its name. *)
Record Tables : Type := {
  ShipmentStatus_rows : list (Z * string);
  ContainerType_rows : list (Z * string);
  BerthStatus_rows : list (Z * string);
  client_rows : list client_row;
  vessel_rows : list vessel_row;
  berth_rows : list berth_row;
  shipment_rows : list shipment_row;
  container_rows : list container_row
}.

Definition lookup_rows (l : lookup_table) (T : Tables) : list (Z * string) :=
  match l with
  | ShipmentStatus => ShipmentStatus_rows T
  | ContainerType => ContainerType_rows T
  | BerthStatus => BerthStatus_rows T
  end.

Definition set_lookup_rows (l : lookup_table) (rs : list (Z * string)) (T : Tables) : Tables :=
  {| ShipmentStatus_rows := if decide (l = ShipmentStatus) then rs else ShipmentStatus_rows T;
     ContainerType_rows := if decide (l = ContainerType) then rs else ContainerType_rows T;
     BerthStatus_rows := if decide (l = BerthStatus) then rs else BerthStatus_rows T;
     client_rows := client_rows T; vessel_rows := vessel_rows T;
     berth_rows := berth_rows T; shipment_rows := shipment_rows T;
     container_rows := container_rows T |}.

(** The statements the script sends. *)
Inductive statement : Type :=
| SET_session_replication_role (role : string)
| TRUNCATE_CASCADE (t : table)
| INSERT_lookup (l : lookup_table) (name : string)     (* ON CONFLICT DO NOTHING *)
| INSERT_client (company_name contact_person email phone_number : string)
| INSERT_vessel (vessel_name imo_number : string)
| INSERT_berth (berth_number : string) (berth_status_id : Z) (vessel_id : option Z)
| INSERT_shipment (client_id shipment_status_id : Z)
    (bill_of_lading_no origin destination : string) (declared_value : Z)
| INSERT_container (shipment_id : Z) (vessel_id : option Z) (container_type_id : Z)
    (container_number : string) (size : Z)
| SELECT_lookup (l : lookup_table).                    (* SELECT name, id FROM l *)

(** What the cursor holds after a statement. *)
Inductive query_result : Type :=
| no_result
| returning (id : Z)                     (* RETURNING <id> *)
| selected (rows : list (string * Z)).

(** Modelled from the spec: the schema is not part of the script.  The
    tables that hold a reference to [t] ("every shipment belongs to an
    existing client; every container belongs to an existing shipment and
    optionally an existing vessel", a status or type on shipment, container
    and berth), which [TRUNCATE t CASCADE] empties together with [t]. *)
Definition referencing (t : table) : list table :=
  match t with
  | client => [shipment; container]
  | vessel => [berth; container]
  | shipment => [container]
  | enum ShipmentStatus => [shipment; container]
  | enum ContainerType => [container]
  | enum BerthStatus => [berth]
  | berth | container => []
  end.

Definition clear (T : Tables) (t : table) : Tables :=
  {| ShipmentStatus_rows := if decide (t = enum ShipmentStatus) then [] else ShipmentStatus_rows T;
     ContainerType_rows := if decide (t = enum ContainerType) then [] else ContainerType_rows T;
     BerthStatus_rows := if decide (t = enum BerthStatus) then [] else BerthStatus_rows T;
     client_rows := if decide (t = client) then [] else client_rows T;
     vessel_rows := if decide (t = vessel) then [] else vessel_rows T;
     berth_rows := if decide (t = berth) then [] else berth_rows T;
     shipment_rows := if decide (t = shipment) then [] else shipment_rows T;
     container_rows := if decide (t = container) then [] else container_rows T |}.

Definition truncate_cascade (t : table) (T : Tables) : Tables :=
  foldl clear T (t :: referencing t).

(** The connection.  The store hands out surrogate ids from one sequence
    per table; sequences sit outside transactions (a rollback or a
    TRUNCATE does not rewind them).  [fault k s] tells whether the store
    answers the k-th statement of the session, [s], with an error; a
    statement answered with an error changes nothing.  What becomes of
    the statements after it is for [fault] to say: the handler in
    [truncate_tables] counts on a session that goes on, while PostgreSQL,
    for a connection with [autocommit = False], aborts the transaction
    and answers every later statement with an error until the rollback. *)
Record Connection : Type := {
  reachable : bool;                    (* does [psycopg2.connect] succeed *)
  fault : nat -> statement -> bool;
  executed : nat;
  sequences : table -> Z;
  committed : Tables;
  pending : Tables;                    (* the open transaction's view *)
  closed : bool
}.

Definition nextval (t : table) (seqs : table -> Z) : table -> Z :=
  fun t' => if decide (t' = t) then seqs t + 1 else seqs t'.

(** Modelled from the spec: the schema is not part of the script.  The
    effect of a statement on the open transaction.  An insert takes the
    next value of the table's sequence as surrogate id; a lookup
    name is unique in its table ("insert-if-absent per value"), so
    [ON CONFLICT DO NOTHING] skips a name that is present. *)
Definition run (s : statement) (seqs : table -> Z) (T : Tables)
  : query_result * (table -> Z) * Tables :=
  match s with
  | SET_session_replication_role _ => (no_result, seqs, T)
  | TRUNCATE_CASCADE t => (no_result, seqs, truncate_cascade t T)
  | INSERT_lookup l name =>
      let rs := lookup_rows l T in
      (no_result, nextval (enum l) seqs,
       if bool_decide (name ∈ rs.*2) then T
       else set_lookup_rows l (rs ++ [(seqs (enum l), name)]) T)
  | INSERT_client a b c d =>
      let id := seqs client in
      (returning id, nextval client seqs,
       {| ShipmentStatus_rows := ShipmentStatus_rows T;
          ContainerType_rows := ContainerType_rows T;
          BerthStatus_rows := BerthStatus_rows T;
          client_rows := client_rows T ++
            [{| client_id := id; company_name := a; contact_person := b;
                email := c; phone := d |}];
          vessel_rows := vessel_rows T; berth_rows := berth_rows T;
          shipment_rows := shipment_rows T; container_rows := container_rows T |})
  | INSERT_vessel a b =>
      let id := seqs vessel in
      (returning id, nextval vessel seqs,
       {| ShipmentStatus_rows := ShipmentStatus_rows T;
          ContainerType_rows := ContainerType_rows T;
          BerthStatus_rows := BerthStatus_rows T;
          client_rows := client_rows T;
          vessel_rows := vessel_rows T ++
            [{| vessel_id := id; vessel_name := a; imo_number := b |}];
          berth_rows := berth_rows T;
          shipment_rows := shipment_rows T; container_rows := container_rows T |})
  | INSERT_berth a b c =>
      let id := seqs berth in
      (returning id, nextval berth seqs,
       {| ShipmentStatus_rows := ShipmentStatus_rows T;
          ContainerType_rows := ContainerType_rows T;
          BerthStatus_rows := BerthStatus_rows T;
          client_rows := client_rows T; vessel_rows := vessel_rows T;
          berth_rows := berth_rows T ++
            [{| berth_id := id; berth_number := a; berth_status_id := b;
                berth_vessel_id := c |}];
          shipment_rows := shipment_rows T; container_rows := container_rows T |})
  | INSERT_shipment a b c d e f =>
      let id := seqs shipment in
      (returning id, nextval shipment seqs,
       {| ShipmentStatus_rows := ShipmentStatus_rows T;
          ContainerType_rows := ContainerType_rows T;
          BerthStatus_rows := BerthStatus_rows T;
          client_rows := client_rows T; vessel_rows := vessel_rows T;
          berth_rows := berth_rows T;
          shipment_rows := shipment_rows T ++
            [{| shipment_id := id; shipment_client_id := a; shipment_status_id := b;
                bill_of_lading_no := c; origin := d; destination := e;
                declared_value := f |}];
          container_rows := container_rows T |})
  | INSERT_container a b c d e =>
      (no_result, nextval container seqs,
       {| ShipmentStatus_rows := ShipmentStatus_rows T;
          ContainerType_rows := ContainerType_rows T;
          BerthStatus_rows := BerthStatus_rows T;
          client_rows := client_rows T; vessel_rows := vessel_rows T;
          berth_rows := berth_rows T; shipment_rows := shipment_rows T;
          container_rows := container_rows T ++
            [{| container_shipment_id := a; container_vessel_id := b;
                container_type_id := c; container_number := d; size := e |}] |})
  | SELECT_lookup l =>
      (selected (map (fun r => (r.2, r.1)) (lookup_rows l T)), seqs, T)
  end.

(** The changes a connection goes through. *)
Definition tick (c : Connection) : Connection :=
  {| reachable := reachable c; fault := fault c; executed := S (executed c);
     sequences := sequences c; committed := committed c;
     pending := pending c; closed := closed c |}.

Definition set_transaction (seqs : table -> Z) (T : Tables) (c : Connection)
  : Connection :=
  {| reachable := reachable c; fault := fault c; executed := executed c;
     sequences := seqs; committed := committed c;
     pending := T; closed := closed c |}.

Definition set_committed (T : Tables) (c : Connection) : Connection :=
  {| reachable := reachable c; fault := fault c; executed := executed c;
     sequences := sequences c; committed := T;
     pending := pending c; closed := closed c |}.

Definition set_closed (c : Connection) : Connection :=
  {| reachable := reachable c; fault := fault c; executed := executed c;
     sequences := sequences c; committed := committed c;
     pending := pending c; closed := true |}.

Module db_conn.

(** [cursor.execute(s)]; the value is what the cursor then holds. *)
Definition execute (s : statement) : M Connection query_result := fun c =>
  if fault c (executed c) s
  then (Raise DatabaseError, tick c)
  else
    let '(r, seqs, T) := run s (sequences c) (pending c) in
    (Ok r, set_transaction seqs T (tick c)).

Definition commit : M Connection unit := fun c =>
  (Ok tt, set_committed (pending c) c).

Definition rollback : M Connection unit := fun c =>
  (Ok tt, set_transaction (sequences c) (committed c) c).

(** Closing drops whatever the open transaction has not committed. *)
Definition close : M Connection unit := fun c =>
  (Ok tt, set_closed (set_transaction (sequences c) (committed c) c)).

(** [cursor.fetchone()[0]] after a statement with RETURNING. *)
Definition fetchone_0 (r : query_result) : M Connection Z :=
  match r with
  | returning id => mret id
  | _ => raise DatabaseError
  end.

(** [cursor.fetchall()] after a SELECT. *)
Definition fetchall (r : query_result) : M Connection (list (string * Z)) :=
  match r with
  | selected rows => mret rows
  | _ => raise DatabaseError
  end.

End db_conn.

(** [{row[0]: row[1] for row in rows}] *)
Definition dict_of_rows (rows : list (string * Z)) : gmap string Z :=
  foldl (fun d row => <[row.1 := row.2]> d) ∅ rows.

(** [d[key]] *)
Definition subscript {S} (d : gmap string Z) (key : string) : M S Z :=
  match d !! key with
  | Some v => mret v
  | None => raise KeyError
  end.

(** ** The world of a run *)

Record World : Type := {
  net : Net;
  fake : Faker;
  conn : Connection
}.

Definition set_net (n : Net) (w : World) : World :=
  {| net := n; fake := fake w; conn := conn w |}.
Definition set_fake (f : Faker) (w : World) : World :=
  {| net := net w; fake := f; conn := conn w |}.
Definition set_conn (c : Connection) (w : World) : World :=
  {| net := net w; fake := fake w; conn := c |}.

Definition web {A} : M Net A -> M World A := lift net set_net.
Definition faker {A} : M Faker A -> M World A := lift fake set_fake.
Definition db {A} : M Connection A -> M World A := lift conn set_conn.

(** ** The script *)

(** Logging has no effect on the run and is left out. *)

Definition generate_container_number : M Faker string :=
  l1 ← fake.random_uppercase_letter;
  l2 ← fake.random_uppercase_letter;
  l3 ← fake.random_uppercase_letter;
  let owner_code := l1 +:+ l2 +:+ l3 in
  let product_group := "U" in
  serial_number ← fake.random_number 6 true;
  let base := owner_code +:+ product_group +:+ Py.str serial_number in
  mret (with_check_digit base).

Definition truncate_tables : M World unit :=
  let tables := [container; shipment; berth; client; vessel;
                 enum BerthStatus; enum ContainerType; enum ShipmentStatus] in
  _ ← db (db_conn.execute (SET_session_replication_role "replica"));
  _ ← for_each tables
        (fun _ table =>
           try_except
             (_ ← db (db_conn.execute (TRUNCATE_CASCADE table)); mret tt)
             (fun e => match e with
                       | DatabaseError => Some (mret tt)
                       | _ => None
                       end))
        tt;
  _ ← db (db_conn.execute (SET_session_replication_role "origin"));
  db db_conn.commit.

Definition statuses : list string :=
  ["PENDING"; "IN_TRANSIT"; "AWAITING_CUSTOMS"; "CLEARED"; "DELIVERED"].
Definition container_types : list string :=
  ["DRY"; "REEFER"; "OPEN_TOP"; "FLAT_RACK"].
Definition berth_statuses : list string :=
  ["AVAILABLE"; "OCCUPIED"; "MAINTENANCE"].

Definition populate_lookup_tables : M World unit :=
  _ ← for_each statuses
        (fun _ status =>
           _ ← db (db_conn.execute (INSERT_lookup ShipmentStatus status)); mret tt) tt;
  _ ← for_each container_types
        (fun _ ctype =>
           _ ← db (db_conn.execute (INSERT_lookup ContainerType ctype)); mret tt) tt;
  _ ← for_each berth_statuses
        (fun _ status =>
           _ ← db (db_conn.execute (INSERT_lookup BerthStatus status)); mret tt) tt;
  db db_conn.commit.

Definition populate_clients (companies : list string) : M World (list Z) :=
  let client_ids := [] in
  client_ids ← for_each companies
    (fun client_ids company =>
       contact ← faker fake.name;
       mail ← faker fake.company_email;
       phone_no ← faker fake.phone_number;
       r ← db (db_conn.execute (INSERT_client company contact mail phone_no));
       id ← db (db_conn.fetchone_0 r);
       mret (client_ids ++ [id])%list)
    client_ids;
  mret client_ids.

Definition vessel_prefixes : list string :=
  ["Atlantic"; "Pacific"; "Global"; "Marine"; "Ocean"].
Definition vessel_suffixes : list string :=
  ["Express"; "Carrier"; "Voyager"; "Explorer"; "Horizon"].

Definition populate_vessels (client_count : Z) : M World (list Z) :=
  let vessel_ids := [] in
  vessel_ids ← for_each (range (client_count * 3))
    (fun vessel_ids i =>
       prefix ← faker (fake.random_element vessel_prefixes);
       suffix ← faker (fake.random_element vessel_suffixes);
       number ← faker (fake.random_int 100 999);
       let vessel_name := prefix +:+ " " +:+ suffix +:+ " " +:+ Py.str number in
       serial ← faker (fake.random_number 5 true);
       let imo_number := "98" +:+ Py.str serial in
       r ← db (db_conn.execute (INSERT_vessel vessel_name imo_number));
       id ← db (db_conn.fetchone_0 r);
       mret (vessel_ids ++ [id])%list)
    vessel_ids;
  mret vessel_ids.

(** [len(l)] *)
Definition len {A} (l : list A) : Z := Z.of_nat (length l).

Definition populate_berths (vessel_ids : list Z) : M World (list Z) :=
  r ← db (db_conn.execute (SELECT_lookup BerthStatus));
  rows ← db (db_conn.fetchall r);
  let status_ids := dict_of_rows rows in
  let berth_ids := [] in
  berth_ids ← for_each (range2 1 21)
    (fun berth_ids i =>
       let status := if i <=? len vessel_ids then "OCCUPIED" else "AVAILABLE" in
       (* within the guard the index [i-1] is in range *)
       let vessel_id := if i <=? len vessel_ids then vessel_ids !! Z.to_nat (i - 1) else None in
       status_id ← subscript status_ids status;
       r ← db (db_conn.execute
                 (INSERT_berth ("B" +:+ Py.rjust 3 "0" (Py.str i)) status_id vessel_id));
       id ← db (db_conn.fetchone_0 r);
       mret (berth_ids ++ [id])%list)
    berth_ids;
  mret berth_ids.

Definition status_options : list string :=
  ["PENDING"; "IN_TRANSIT"; "AWAITING_CUSTOMS"; "CLEARED"].

Definition populate_shipments (client_ids : list Z) (ports : list string)
  : M World (list Z) :=
  r ← db (db_conn.execute (SELECT_lookup ShipmentStatus));
  rows ← db (db_conn.fetchall r);
  let status_ids := dict_of_rows rows in
  let shipment_ids := [] in
  shipment_ids ← for_each client_ids
    (fun shipment_ids client_id =>
       count ← faker (fake.random_int 2 5);
       for_each (range count)
         (fun shipment_ids _ =>
            pair ← faker (fake.random_elements_unique ports 2);
            match pair with
            | [origin; destination] =>
                status ← faker (fake.random_element status_options);
                status_id ← subscript status_ids status;
                bill ← faker (fake.unique_bothify "BLD#########");
                value ← faker (fake.random_number 5 false);
                (* float(value) + 1000.0 is exact on this range *)
                r ← db (db_conn.execute
                          (INSERT_shipment client_id status_id bill origin destination
                                           (value + 1000)));
                id ← db (db_conn.fetchone_0 r);
                mret (shipment_ids ++ [id])%list
            | _ => raise ValueError
            end)
         shipment_ids)
    shipment_ids;
  mret shipment_ids.

Definition populate_containers (shipment_ids vessel_ids : list Z) : M World Z :=
  r ← db (db_conn.execute (SELECT_lookup ContainerType));
  rows ← db (db_conn.fetchall r);
  let type_ids := dict_of_rows rows in
  let container_count := 0 in
  container_count ← for_each shipment_ids
    (fun container_count shipment_id =>
       count ← faker (fake.random_int 1 4);
       for_each (range count)
         (fun container_count _ =>
            container_type ← faker (fake.random_element container_types);
            assigned_vessel ←
              match vessel_ids with
              | [] => mret None
              | _ => v ← faker (fake.random_element vessel_ids); mret (Some v)
              end;
            type_id ← subscript type_ids container_type;
            number ← faker generate_container_number;
            size ← faker (fake.random_element [20; 40]);
            _ ← db (db_conn.execute
                      (INSERT_container shipment_id assigned_vessel type_id number size));
            mret (container_count + 1))
         container_count)
    container_count;
  mret container_count.

(** The [try] block of [main]. *)
Definition main_try : M World unit :=
  _ ← truncate_tables;
  _ ← populate_lookup_tables;
  companies ← web scrape_shipping_companies;
  client_ids ← populate_clients companies;
  ports ← web scrape_container_ports;
  vessel_ids ← populate_vessels (len client_ids);
  berth_ids ← populate_berths vessel_ids;
  shipment_ids ← populate_shipments client_ids ports;
  container_count ← populate_containers shipment_ids vessel_ids;
  db db_conn.commit.

(** [main()]: the state the run leaves behind.  [except Exception]
    handles every exception of the model. *)
Definition main (w : World) : World :=
  if reachable (conn w) then
    let '(_, w1) :=
      try_except main_try (fun e => Some (db db_conn.rollback)) w in
    (db db_conn.close w1).2
  else w.

(** ** Vocabulary of the properties *)

(** [wp m Q s]: run from [s], [m] ends with a result and in a state that
    satisfy [Q]; computations are total functions, so it always ends. *)
Definition wp {S A} (m : M S A) (Q : result A -> S -> Prop) (s : S) : Prop :=
  Q (m s).1 (m s).2.

(** A postcondition by cases on the result. *)
Definition by_result {S A} (Q : A -> S -> Prop) (E : exn -> S -> Prop)
  : result A -> S -> Prop :=
  fun r s => match r with Ok a => Q a s | Raise e => E e s end.

Definition is_ok {A} (r : result A) : Prop :=
  match r with Ok _ => True | Raise _ => False end.

(** The store answers every statement. *)
Definition fault_free (c : Connection) : Prop := forall k s, fault c k s = false.

(** Rows added to the five entity tables. *)
Record Batch : Type := {
  new_clients : list client_row;
  new_vessels : list vessel_row;
  new_berths : list berth_row;
  new_shipments : list shipment_row;
  new_containers : list container_row
}.

Definition no_rows : Batch :=
  {| new_clients := []; new_vessels := []; new_berths := []; new_shipments := [];
     new_containers := [] |}.

Definition batch_app (a b : Batch) : Batch :=
  {| new_clients := new_clients a ++ new_clients b;
     new_vessels := new_vessels a ++ new_vessels b;
     new_berths := new_berths a ++ new_berths b;
     new_shipments := new_shipments a ++ new_shipments b;
     new_containers := new_containers a ++ new_containers b |}.

Definition add_rows (T : Tables) (b : Batch) : Tables :=
  {| ShipmentStatus_rows := ShipmentStatus_rows T;
     ContainerType_rows := ContainerType_rows T;
     BerthStatus_rows := BerthStatus_rows T;
     client_rows := client_rows T ++ new_clients b;
     vessel_rows := vessel_rows T ++ new_vessels b;
     berth_rows := berth_rows T ++ new_berths b;
     shipment_rows := shipment_rows T ++ new_shipments b;
     container_rows := container_rows T ++ new_containers b |}.

(** From [w] to [w'] the open transaction gained the rows [b] and nothing
    else happened to the store or the web. *)
Record entity_step (b : Batch) (w w' : World) : Prop := {
  step_net : net w' = net w;
  step_fault : fault (conn w') = fault (conn w);
  step_reachable : reachable (conn w') = reachable (conn w);
  step_committed : committed (conn w') = committed (conn w);
  step_pending : pending (conn w') = add_rows (pending (conn w)) b;
  step_sequences : forall l, sequences (conn w') (enum l) = sequences (conn w) (enum l)
}.

(** The entity tables, and the lookup tables, of a snapshot. *)
Definition entity_tables (T : Tables) :=
  (client_rows T, vessel_rows T, berth_rows T, shipment_rows T, container_rows T).
Definition lookup_tables (T : Tables) :=
  (ShipmentStatus_rows T, ContainerType_rows T, BerthStatus_rows T).

(** The fixed values of a lookup table. *)
Definition enumeration (l : lookup_table) : list string :=
  match l with
  | ShipmentStatus => statuses
  | ContainerType => container_types
  | BerthStatus => berth_statuses
  end.

(** The row [id] of the lookup table [l] carries [name]. *)
Definition named (T : Tables) (l : lookup_table) (name : string) (id : Z) : Prop :=
  (id, name) ∈ lookup_rows l T.

#[global] Instance named_dec T l name id : Decision (named T l name id).
Proof. unfold named. apply _. Defined.

(** Surrogate ids of a lookup table are distinct and were handed out by
    its sequence. *)
Definition keys_ok (seq : Z) (rows : list (Z * string)) : Prop :=
  NoDup rows.*1 /\ Forall (fun r => r.1 < seq) rows.

Definition store_ok (c : Connection) : Prop :=
  forall l, keys_ok (sequences c (enum l)) (lookup_rows l (pending c)) /\
            keys_ok (sequences c (enum l)) (lookup_rows l (committed c)).

(** What the lookup seeder's inserts make of the rows of one table: the
    k-th name gets the id [seq + k] unless the name is there already. *)
Fixpoint seed_rows (seq : Z) (names : list string) (rows : list (Z * string))
  : list (Z * string) :=
  match names with
  | [] => rows
  | name :: rest =>
      seed_rows (seq + 1) rest
        (if bool_decide (name ∈ rows.*2) then rows else rows ++ [(seq, name)])
  end.

(** Statements of the entity stages: they leave the lookup tables and
    what is committed alone. *)
Definition entity_statement (st : statement) : bool :=
  match st with
  | TRUNCATE_CASCADE _ | INSERT_lookup _ _ => false
  | _ => true
  end.

(** The rows a statement adds, given the sequences it draws its id from. *)
Definition inserted (st : statement) (seqs : table -> Z) : Batch :=
  match st with
  | INSERT_client a b c d =>
      {| new_clients := [{| client_id := seqs client; company_name := a;
                            contact_person := b; email := c; phone := d |}];
         new_vessels := []; new_berths := []; new_shipments := [];
         new_containers := [] |}
  | INSERT_vessel a b =>
      {| new_clients := [];
         new_vessels := [{| vessel_id := seqs vessel; vessel_name := a;
                            imo_number := b |}];
         new_berths := []; new_shipments := []; new_containers := [] |}
  | INSERT_berth a b c =>
      {| new_clients := []; new_vessels := [];
         new_berths := [{| berth_id := seqs berth; berth_number := a;
                           berth_status_id := b; berth_vessel_id := c |}];
         new_shipments := []; new_containers := [] |}
  | INSERT_shipment a b c d e f =>
      {| new_clients := []; new_vessels := []; new_berths := [];
         new_shipments := [{| shipment_id := seqs shipment; shipment_client_id := a;
                              shipment_status_id := b; bill_of_lading_no := c;
                              origin := d; destination := e; declared_value := f |}];
         new_containers := [] |}
  | INSERT_container a b c d e =>
      {| new_clients := []; new_vessels := []; new_berths := []; new_shipments := [];
         new_containers := [{| container_shipment_id := a; container_vessel_id := b;
                               container_type_id := c; container_number := d;
                               size := e |}] |}
  | _ => no_rows
  end.

(** Batches of one kind of row. *)
Definition only_clients (l : list client_row) : Batch :=
  {| new_clients := l; new_vessels := []; new_berths := []; new_shipments := [];
     new_containers := [] |}.
Definition only_vessels (l : list vessel_row) : Batch :=
  {| new_clients := []; new_vessels := l; new_berths := []; new_shipments := [];
     new_containers := [] |}.
Definition only_berths (l : list berth_row) : Batch :=
  {| new_clients := []; new_vessels := []; new_berths := l; new_shipments := [];
     new_containers := [] |}.
Definition only_shipments (l : list shipment_row) : Batch :=
  {| new_clients := []; new_vessels := []; new_berths := []; new_shipments := l;
     new_containers := [] |}.
Definition only_containers (l : list container_row) : Batch :=
  {| new_clients := []; new_vessels := []; new_berths := []; new_shipments := [];
     new_containers := l |}.

(** The condition on a drawn value of which nothing is needed. *)
Definition anything {A} (r : result A) : Prop := True.

(** What [populate_berths] enters for berth number [i], the lookup table
    being that of the snapshot [T]. *)
Definition berth_at (T : Tables) (vessel_ids : list Z) (i : Z) (b : berth_row) : Prop :=
  berth_number b = "B" +:+ Py.rjust 3 "0" (Py.str i) /\
  if decide (i <= len vessel_ids)
  then named T BerthStatus "OCCUPIED" (berth_status_id b) /\
       berth_vessel_id b = vessel_ids !! Z.to_nat (i - 1)
  else named T BerthStatus "AVAILABLE" (berth_status_id b) /\
       berth_vessel_id b = None.

(** A condition on the value of a result; an exception is let through. *)
Definition returns {A} (P : A -> Prop) (r : result A) : Prop :=
  match r with Ok a => P a | Raise _ => True end.

(** The check-digit law of a container number. *)
Definition valid_container_number (number : string) : Prop :=
  String.length number = 11%nat /\
  exists d : Z,
    String.get 10 number = Some (Py.digit_char d) /\
    Iso6346.is_decimal_digit (Py.digit_char d) = true /\
    Iso6346.check_digit number = Some d.

(** What [populate_shipments] enters for one shipment. *)
Record shipment_ok (T : Tables) (client_ids : list Z) (ports : list string)
    (r : shipment_row) : Prop := {
  shipment_of_client : shipment_client_id r ∈ client_ids;
  shipment_ports : exists i j : nat,
    i <> j /\ ports !! i = Some (origin r) /\ ports !! j = Some (destination r);
  shipment_status : exists name,
    name ∈ status_options /\ named T ShipmentStatus name (shipment_status_id r);
  shipment_value : 1000 <= declared_value r < 101000
}.

(** What [populate_containers] enters for one container. *)
Record container_ok (T : Tables) (shipment_ids vessel_ids : list Z)
    (r : container_row) : Prop := {
  container_of_shipment : container_shipment_id r ∈ shipment_ids;
  container_vessel :
    match container_vessel_id r with
    | Some v => v ∈ vessel_ids
    | None => vessel_ids = []
    end;
  container_type : exists name,
    name ∈ container_types /\ named T ContainerType name (container_type_id r);
  container_size : size r ∈ [20; 40];
  container_number_valid : valid_container_number (container_number r)
}.

(** From [w] to [w'] the names [names] were inserted, if absent, into the
    lookup table [l], and nothing else happened. *)
Record lookup_seeded (l : lookup_table) (names : list string) (w w' : World) : Prop := {
  seeded_net : net w' = net w;
  seeded_fault : fault (conn w') = fault (conn w);
  seeded_reachable : reachable (conn w') = reachable (conn w);
  seeded_committed : committed (conn w') = committed (conn w);
  seeded_entities :
    entity_tables (pending (conn w')) = entity_tables (pending (conn w));
  seeded_rows :
    lookup_rows l (pending (conn w')) =
    seed_rows (sequences (conn w) (enum l)) names (lookup_rows l (pending (conn w)));
  seeded_sequence :
    sequences (conn w') (enum l) = sequences (conn w) (enum l) + len names;
  seeded_others : forall l', l' <> l ->
    lookup_rows l' (pending (conn w')) = lookup_rows l' (pending (conn w)) /\
    sequences (conn w') (enum l') = sequences (conn w) (enum l')
}.

(** The loop of the lookup seeder for one table. *)
Definition seed_lookup (l : lookup_table) (names : list string) : M World unit :=
  for_each names
    (fun _ name => _ ← db (db_conn.execute (INSERT_lookup l name)); mret tt) tt.

(** The [try] block of [main] after the lookup seeder. *)
Definition entity_phase : M World unit :=
  companies ← web scrape_shipping_companies;
  client_ids ← populate_clients companies;
  ports ← web scrape_container_ports;
  vessel_ids ← populate_vessels (len client_ids);
  berth_ids ← populate_berths vessel_ids;
  shipment_ids ← populate_shipments client_ids ports;
  container_count ← populate_containers shipment_ids vessel_ids;
  db db_conn.commit.

(** From [w] to [w'] tables were emptied in the open transaction, and
    nothing else happened. *)
Record resetting (w w' : World) : Prop := {
  resetting_net : net w' = net w;
  resetting_fault : fault (conn w') = fault (conn w);
  resetting_reachable : reachable (conn w') = reachable (conn w);
  resetting_committed : committed (conn w') = committed (conn w);
  resetting_sequences : sequences (conn w') = sequences (conn w);
  resetting_lookups : forall l,
    lookup_rows l (pending (conn w')) = lookup_rows l (pending (conn w)) \/
    lookup_rows l (pending (conn w')) = []
}.

(** What [populate_lookup_tables], run from [w], leaves behind. *)
Record lookups_populated (w : World) (r : result unit) (w' : World) : Prop := {
  populated_net : net w' = net w;
  populated_fault : fault (conn w') = fault (conn w);
  populated_reachable : reachable (conn w') = reachable (conn w);
  populated_entities :
    entity_tables (pending (conn w')) = entity_tables (pending (conn w));
  populated_store_ok : store_ok (conn w) -> store_ok (conn w');
  populated_ok : r = Ok tt ->
    committed (conn w') = pending (conn w') /\
    forall l, lookup_rows l (pending (conn w')) =
              seed_rows (sequences (conn w) (enum l)) (enumeration l)
                        (lookup_rows l (pending (conn w)));
  populated_raise : forall e, r = Raise e ->
    committed (conn w') = committed (conn w);
  populated_fault_free : fault_free (conn w) -> r = Ok tt
}.

(** What [truncate_tables], run from [w], leaves behind. *)
Record reset_done (w : World) (r : result unit) (w' : World) : Prop := {
  reset_net : net w' = net w;
  reset_fault : fault (conn w') = fault (conn w);
  reset_reachable : reachable (conn w') = reachable (conn w);
  reset_store_ok : store_ok (conn w) -> store_ok (conn w');
  reset_ok : r = Ok tt -> committed (conn w') = pending (conn w');
  reset_raise : forall e, r = Raise e -> committed (conn w') = committed (conn w)
}.

(** The shipments entered for one client: between 2 and 5, all his. *)
Definition shipments_of_client (client_id : Z) (g : list shipment_row) : Prop :=
  2 <= len g <= 5 /\ Forall (fun r => shipment_client_id r = client_id) g.

(** The containers entered for one shipment: between 1 and 4, all its. *)
Definition containers_of_shipment (shipment_id : Z) (g : list container_row) : Prop :=
  1 <= len g <= 4 /\ Forall (fun r => container_shipment_id r = shipment_id) g.

(** The net after one request. *)
Definition asked (n : Net) : Net :=
  {| server := server n; requests_made := S (requests_made n); slept := slept n |}.

(** What one request for [url] brings back: nothing when the request
    fails or is answered with a 4xx or 5xx status. *)
Definition fetched (url : string) (n : Net) : option Content :=
  match server n (requests_made n) url with
  | Answer response =>
      if (400 <=? status_code response) && (status_code response <? 600)
      then None
      else Some (content response)
  | ConnectionError | Timeout => None
  end.

(** What [entity_phase], run from [w], leaves behind. *)
Record entities_seeded (w : World) (r : result unit) (w' : World) : Prop := {
  phase_fault : fault (conn w') = fault (conn w);
  phase_raise : forall e, r = Raise e -> committed (conn w') = committed (conn w);
  phase_ok : r = Ok tt ->
    exists (companies ports : list string) (b : Batch)
           (sgroups : list (list shipment_row)) (cgroups : list (list container_row)),
      (scrape_shipping_companies (net w)).1 = Ok companies /\
      (scrape_container_ports (scrape_shipping_companies (net w)).2).1 = Ok ports /\
      committed (conn w') = add_rows (pending (conn w)) b /\
      length (new_clients b) = length companies /\
      length (new_vessels b) = Z.to_nat (len companies * 3) /\
      NoDup (vessel_id <$> new_vessels b) /\
      length (new_berths b) = 20%nat /\
      (forall (k : nat) bb, new_berths b !! k = Some bb ->
         berth_at (pending (conn w)) (vessel_id <$> new_vessels b) (1 + Z.of_nat k) bb) /\
      new_shipments b = concat sgroups /\
      Forall2 shipments_of_client (client_id <$> new_clients b) sgroups /\
      Forall (shipment_ok (pending (conn w)) (client_id <$> new_clients b) ports)
             (new_shipments b) /\
      new_containers b = concat cgroups /\
      Forall2 containers_of_shipment (shipment_id <$> new_shipments b) cgroups /\
      Forall (container_ok (pending (conn w)) (shipment_id <$> new_shipments b)
                           (vessel_id <$> new_vessels b))
             (new_containers b)
}.

(** ** Sample worlds *)

Definition empty_tables : Tables :=
  {| ShipmentStatus_rows := []; ContainerType_rows := []; BerthStatus_rows := [];
     client_rows := []; vessel_rows := []; berth_rows := []; shipment_rows := [];
     container_rows := [] |}.

(** A generator: the k-th draw. *)
Definition sample_rng (k : nat) : Z :=
  ((Z.of_nat k + 1) * 2654435761) mod 4294967296 / 1024.

Definition sample_faker : Faker :=
  {| rng := sample_rng; drawn := 0;
     provider := fun kind r => kind +:+ " " +:+ Py.str r;
     unique_seen := [] |}.

(** A store that answers every statement, with nothing in it yet. *)
Definition fresh_connection : Connection :=
  {| reachable := true; fault := fun _ _ => false; executed := 0;
     sequences := fun _ => 1; committed := empty_tables; pending := empty_tables;
     closed := false |}.

(** A server that answers every request with a page without tables. *)
Definition page_without_table : Content :=
  {| raw := "<html><body>moved</body></html>"; wikitables := [] |}.

Definition web_without_tables : Net :=
  {| server := fun _ _ => Answer {| status_code := 200; content := page_without_table |};
     requests_made := 0; slept := 0 |}.

(** A web that cannot be reached. *)
Definition unreachable_web : Net :=
  {| server := fun _ _ => ConnectionError; requests_made := 0; slept := 0 |}.

(** A server that answers the first request with 429 and every later one
    with a page. *)
Definition rate_limited_once : Net :=
  {| server := fun k _ =>
       match k with
       | O => Answer {| status_code := 429; content := {| raw := ""; wikitables := [] |} |}
       | S _ => Answer {| status_code := 200; content := page_without_table |}
       end;
     requests_made := 0; slept := 0 |}.

(** A page of ports in which one port is listed twice. *)
Definition page_with_repeated_port : Content :=
  {| raw := "<table class='wikitable'>...</table>";
     wikitables :=
       [[ [];
          ["1"; "Shanghai"; "China"; "49.0"];
          ["2"; "Shanghai[a]"; "China"; "47.3"] ]] |}.

Definition web_with_repeated_port : Net :=
  {| server := fun _ url =>
       if String.eqb url "https://en.wikipedia.org/wiki/List_of_busiest_container_ports"
       then Answer {| status_code := 200; content := page_with_repeated_port |}
       else Answer {| status_code := 200; content := page_without_table |};
     requests_made := 0; slept := 0 |}.

(** The fallback lists, a fresh store. *)
Definition fallback_world : World :=
  {| net := web_without_tables; fake := sample_faker; conn := fresh_connection |}.

(** The same, but the port page lists a port twice. *)
Definition repeated_port_world : World :=
  {| net := web_with_repeated_port; fake := sample_faker; conn := fresh_connection |}.



(** [fallback_world] once the lookup seeder has run. *)
Definition seeded_world : World := (populate_lookup_tables fallback_world).2.

(** The berth [b] has the status [name] of the BerthStatus table of [T]. *)
Definition berth_has_status (T : Tables) (name : string) (b : berth_row) : Prop :=
  named T BerthStatus name (berth_status_id b).

#[global] Instance berth_has_status_dec T name b : Decision (berth_has_status T name b).
Proof. unfold berth_has_status. apply _. Defined.

(** The numbers of the twenty berths. *)
Definition berth_numbers : list string :=
  ["B001"; "B002"; "B003"; "B004"; "B005"; "B006"; "B007"; "B008"; "B009"; "B010";
   "B011"; "B012"; "B013"; "B014"; "B015"; "B016"; "B017"; "B018"; "B019"; "B020"].

(** ** Vocabulary of the further properties *)

(** The name the company scraper takes from a table row: the cleaned text
    of the second cell, when the row has one. *)
Definition company_of_row (cols : list string) : option string :=
  match cols !! 1%nat with
  | Some name => Some (strip (re_sub_bracketed is_digit None name))
  | None => None
  end.

(** The name the port scraper takes from a table row: the cleaned text of
    the second cell, when the row has three cells or more. *)
Definition port_of_row (cols : list string) : option string :=
  if (3 <=? length cols)%nat then
    match cols !! 1%nat with
    | Some port_name =>
        Some (strip (before_paren (re_sub_bracketed is_word None port_name)))
    | None => None
    end
  else None.

(** No white space at either end. *)
Definition trimmed (s : string) : Prop :=
  (forall c, head (list_ascii_of_string s) = Some c -> is_whitespace c = false) /\
  (forall c, last (list_ascii_of_string s) = Some c -> is_whitespace c = false).

(** No opening parenthesis. *)
Definition no_paren (s : string) : Prop := "("%char ∉ list_ascii_of_string s.

(** One of the letters A to Z. *)
Definition is_uppercase_letter (c : ascii) : bool :=
  (Py.ord "A" <=? Py.ord c) && (Py.ord c <=? Py.ord "Z").

(** A value is returned, and it satisfies [P]. *)
Definition yields {A} (P : A -> Prop) (r : result A) : Prop :=
  match r with Ok a => P a | Raise _ => False end.

(** Every character of [s] is a decimal digit. *)
Definition all_digits (s : string) : bool :=
  forallb Iso6346.is_decimal_digit (list_ascii_of_string s).

(** What [populate_vessels] enters for one vessel. *)
Record vessel_ok (r : vessel_row) : Prop := {
  vessel_name_format : exists prefix suffix number,
    prefix ∈ vessel_prefixes /\ suffix ∈ vessel_suffixes /\ 100 <= number <= 999 /\
    vessel_name r = prefix +:+ " " +:+ suffix +:+ " " +:+ Py.str number;
  vessel_imo_length : String.length (imo_number r) = 7%nat;
  vessel_imo_prefix : String.prefix "98" (imo_number r) = true;
  vessel_imo_digits : all_digits (imo_number r) = true
}.

(** The number of rows of a table in a snapshot. *)
Definition row_count (t : table) (T : Tables) : nat :=
  match t with
  | container => length (container_rows T)
  | shipment => length (shipment_rows T)
  | berth => length (berth_rows T)
  | client => length (client_rows T)
  | vessel => length (vessel_rows T)
  | enum l => length (lookup_rows l T)
  end.

(** The world [w] with a store that refuses the statements [refused]
    picks out. *)
Definition refusing (refused : nat -> statement -> bool) (w : World) : World :=
  set_conn {| reachable := reachable (conn w); fault := refused;
              executed := executed (conn w); sequences := sequences (conn w);
              committed := committed (conn w); pending := pending (conn w);
              closed := closed (conn w) |} w.

Definition is_set_role (st : statement) : bool :=
  match st with SET_session_replication_role _ => true | _ => false end.

(** A store whose BerthStatus table holds OCCUPIED and nothing else. *)
Definition occupied_only : Tables :=
  {| ShipmentStatus_rows := []; ContainerType_rows := [];
     BerthStatus_rows := [(1, "OCCUPIED")];
     client_rows := []; vessel_rows := []; berth_rows := []; shipment_rows := [];
     container_rows := [] |}.

Definition occupied_only_world : World :=
  {| net := web_without_tables; fake := sample_faker;
     conn := {| reachable := true; fault := fun _ _ => false; executed := 0;
                sequences := fun _ => 2; committed := occupied_only;
                pending := occupied_only; closed := false |} |}.

(** [s] is [text] with a decimal digit in the place of every [#]. *)
Fixpoint bothified (text s : string) : bool :=
  match text, s with
  | EmptyString, EmptyString => true
  | String c text', String d s' =>
      (if Ascii.eqb c "#" then Iso6346.is_decimal_digit d else Ascii.eqb d c)
      && bothified text' s'
  | _, _ => false
  end.

(** From [w] to [w'] only the generator has moved, and it has recorded no
    new unique value. *)
Definition same_store (w w' : World) : Prop :=
  conn w' = conn w /\ net w' = net w /\
  unique_seen (fake w') = unique_seen (fake w).

(** A fresh store, and a web that cannot be reached. *)
Definition offline_world : World :=
  {| net := unreachable_web; fake := sample_faker; conn := fresh_connection |}.

(** A web on which the page of the ports cannot be reached, while every
    other page comes without a table. *)
Definition web_without_ports : Net :=
  {| server := fun _ url =>
       if String.eqb url "https://en.wikipedia.org/wiki/List_of_busiest_container_ports"
       then ConnectionError
       else Answer {| status_code := 200; content := page_without_table |};
     requests_made := 0; slept := 0 |}.

Definition world_without_ports : World :=
  {| net := web_without_ports; fake := sample_faker; conn := fresh_connection |}.

(** The world [s] is the world [w] after some statements of an entity
    stage and some draws. *)
Definition in_stage (w s : World) : Prop := exists b, entity_step b w s.

(** The result is a value, or the exception [e]. *)
Definition ok_or {A} (e : exn) (r : result A) : Prop :=
  match r with Ok _ => True | Raise e' => e' = e end.

(** A printable ASCII character other than the space. *)
Definition graphic (c : ascii) : bool := (33 <=? Py.ord c) && (Py.ord c <=? 126).

(** The first and the last character of [s], if any, are graphic. *)
Definition graphic_ends (s : string) : Prop :=
  (forall c, head (list_ascii_of_string s) = Some c -> graphic c = true) /\
  (forall c, last (list_ascii_of_string s) = Some c -> graphic c = true).

(** A store with transactions, as PostgreSQL is for a connection with
    [autocommit = False]: once it has answered a statement of the session
    with an error, the transaction is aborted and it answers every later
    statement with an error too. *)
Definition aborts_on_error (c : Connection) : Prop :=
  forall (k : nat) (st : statement) (k' : nat) (st' : statement),
    (executed c <= k)%nat -> fault c k st = true -> (k < k')%nat ->
    fault c k' st' = true.
(** * Properties *)

(** ** Strings *)

(** Division and remainder by a constant are linear arithmetic. *)
Ltac Zify.zify_post_hook ::= Z.to_euclidean_division_equations.

Lemma ord_chr n : 0 <= n < 256 -> Py.ord (Py.chr n) = n.
Proof.
  intros Hn. unfold Py.ord, Py.chr.
  rewrite N_ascii_embedding by lia. lia.
Qed.

Lemma ord_bounded c : 0 <= Py.ord c < 256.
Proof.
  unfold Py.ord. pose proof (N_ascii_bounded c). lia.
Qed.

Lemma string_length_app (s t : string) :
  String.length (s +:+ t) = (String.length s + String.length t)%nat.
Proof. induction s as [|c s IH]; simpl; [done | by rewrite IH]. Qed.

Lemma substring_app_prefix (s t : string) :
  substring 0 (String.length s) (s +:+ t) = s.
Proof.
  induction s as [|c s IH]; simpl.
  - by destruct t.
  - by rewrite IH.
Qed.

Lemma string_get_app_length (s : string) (c : ascii) (t : string) :
  String.get (String.length s) (s +:+ String c t) = Some c.
Proof. induction s as [|c' s IH]; simpl; [done | exact IH]. Qed.

(** The fuel of [str] is never used up: any fuel that covers the decimal
    digits of [n] gives the same string. *)
Lemma str_digits_fuel (f : nat) : forall (n : Z) (acc : string) (f' : nat),
  0 <= n < 10 ^ Z.of_nat f -> (0 < f)%nat -> (f <= f')%nat ->
  Py.str_digits f' n acc = Py.str_digits f n acc.
Proof.
  induction f as [|f IH]; intros n acc f' Hn Hf Hle; [lia|].
  destruct f' as [|f']; [lia|]. simpl.
  destruct (Z.eqb_spec (n / 10) 0) as [|Hq]; [done|].
  assert (Hpow : 10 ^ Z.of_nat (S f) = 10 * 10 ^ Z.of_nat f).
  { rewrite Nat2Z.inj_succ, Z.pow_succ_r; lia. }
  rewrite Hpow in Hn. clear Hpow.
  destruct f as [|f]; [exfalso; change (10 ^ Z.of_nat 0) with 1 in Hn; lia|].
  apply IH; [|lia|lia].
  generalize dependent (10 ^ Z.of_nat (S f)). intros p Hp. lia.
Qed.

Lemma str_fuel (n : Z) (f : nat) :
  0 <= n < 10 ^ Z.of_nat f -> (0 < f)%nat -> Py.str n = Py.str_digits f n "".
Proof.
  intros Hn Hf. unfold Py.str.
  destruct (Z.ltb_spec n 0) as [|_]; [lia|].
  set (g := S (Z.to_nat (Z.log2 n))).
  assert (Hg : 0 <= n < 10 ^ Z.of_nat g).
  { split; [lia|]. unfold g. rewrite Nat2Z.inj_succ, Z2Nat.id by apply Z.log2_nonneg.
    destruct (Z.eq_dec n 0) as [->|Hn0]; [done|].
    pose proof (Z.log2_spec n ltac:(lia)) as [_ Hlt].
    eapply Z.lt_le_trans; [exact Hlt|].
    apply Z.pow_le_mono_l. pose proof (Z.log2_nonneg n). lia. }
  destruct (Nat.le_ge_cases f g).
  - apply str_digits_fuel; [done | done | done].
  - symmetry. apply str_digits_fuel; [done | unfold g; lia | done].
Qed.

Lemma str_one_digit (d : Z) : 0 <= d < 10 -> Py.str d = String (Py.digit_char d) "".
Proof.
  intros Hd. rewrite (str_fuel d 1) by (simpl; lia). simpl.
  rewrite Z.mod_small by lia.
  destruct (Z.eqb_spec (d / 10) 0) as [|Hq]; [done|].
  exfalso. apply Hq. apply Z.div_small. lia.
Qed.

Lemma str_six_digits (n : Z) :
  100000 <= n <= 999999 ->
  Py.str n =
    String (Py.digit_char (n / 100000 mod 10))
   (String (Py.digit_char (n / 10000 mod 10))
   (String (Py.digit_char (n / 1000 mod 10))
   (String (Py.digit_char (n / 100 mod 10))
   (String (Py.digit_char (n / 10 mod 10))
   (String (Py.digit_char (n mod 10)) ""))))).
Proof.
  intros Hn. rewrite (str_fuel n 6) by (simpl; lia).
  unfold Py.str_digits.
  repeat match goal with
  | |- context [?q =? 0] =>
      destruct (Z.eqb_spec q 0) as [?|_]; [exfalso; lia|]
  end.
  replace (n / 10 / 10) with (n / 100) by lia.
  replace (n / 100 / 10) with (n / 1000) by lia.
  replace (n / 1000 / 10) with (n / 10000) by lia.
  replace (n / 10000 / 10) with (n / 100000) by lia.
  destruct (Z.eqb_spec (n / 100000 / 10) 0) as [_|?]; [done | exfalso; lia].
Qed.

(** ** The check digit of a container number *)

Lemma sum_foldr (l : list Z) : Py.sum l = foldr Z.add 0 l.
Proof.
  unfold Py.sum.
  assert (H : forall a, fold_left Z.add l a = a + foldr Z.add 0 l).
  { induction l as [|x l IH]; intros a; simpl; [lia | rewrite IH; lia]. }
  rewrite H. lia.
Qed.

(** On a letter or a digit the script's value of a character is the
    specification's. *)
Lemma value_char_value (c : ascii) (v : Z) (i : nat) :
  Iso6346.value c = Some v -> char_value i c = v * 2 ^ Z.of_nat i.
Proof.
  unfold Iso6346.value, char_value.
  change (Py.ord "A") with 65. change (Py.ord "Z") with 90.
  change (Py.ord "0") with 48. change (Py.ord "9") with 57.
  destruct ((65 <=? Py.ord c) && (Py.ord c <=? 90)).
  - by intros [= <-].
  - destruct ((48 <=? Py.ord c) && (Py.ord c <=? 57)); [by intros [= <-] | done].
Qed.

Lemma products_char_values (s : string) : forall i : nat,
  Forall (fun c => is_Some (Iso6346.value c)) (list_ascii_of_string s) ->
  Iso6346.products i s = Some (char_values i s).
Proof.
  induction s as [|c s IH]; intros i Hs; simpl; [done|].
  simpl in Hs. apply Forall_cons in Hs as [[v Hv] Hs].
  rewrite Hv, (IH (S i) Hs), (value_char_value c v i Hv). done.
Qed.

Lemma value_uppercase (k : Z) : 0 <= k < 26 -> is_Some (Iso6346.value (Py.chr (65 + k))).
Proof.
  intros Hk. unfold Iso6346.value. rewrite ord_chr by lia.
  change (Py.ord "A") with 65. change (Py.ord "Z") with 90.
  destruct (Z.leb_spec 65 (65 + k)); [|lia].
  destruct (Z.leb_spec (65 + k) 90); [|lia]. by eexists.
Qed.

Lemma value_digit (d : Z) : 0 <= d < 10 -> is_Some (Iso6346.value (Py.digit_char d)).
Proof.
  intros Hd. unfold Iso6346.value, Py.digit_char. rewrite ord_chr by lia.
  change (Py.ord "A") with 65. change (Py.ord "Z") with 90.
  change (Py.ord "0") with 48. change (Py.ord "9") with 57.
  destruct (Z.leb_spec 65 (48 + d)); [lia|]. simpl.
  destruct (Z.leb_spec 48 (48 + d)); [|lia].
  destruct (Z.leb_spec (48 + d) 57); [|lia]. by eexists.
Qed.

Lemma digit_char_is_decimal (d : Z) :
  0 <= d < 10 -> Iso6346.is_decimal_digit (Py.digit_char d) = true.
Proof.
  intros Hd. unfold Iso6346.is_decimal_digit, Py.digit_char. rewrite ord_chr by lia.
  change (Py.ord "0") with 48. change (Py.ord "9") with 57.
  apply andb_true_iff. split; apply Z.leb_le; lia.
Qed.

(** What [generate_container_number] computes from the four numbers it
    draws. *)
Lemma generate_container_number_draws (f : Faker) :
  generate_container_number f =
    (Ok (with_check_digit
           (String (Py.chr (65 + rng f (drawn f) mod 26))
           (String (Py.chr (65 + rng f (S (drawn f)) mod 26))
           (String (Py.chr (65 + rng f (S (S (drawn f))) mod 26))
           (String "U"
              (Py.str (100000 + rng f (S (S (S (drawn f)))) mod 900000))))))),
     {| rng := rng f; drawn := S (S (S (S (drawn f)))); provider := provider f;
        unique_seen := unique_seen f |}).
Proof. reflexivity. Qed.

(** Known pairs of base and number. *)
Example with_check_digit_CSQU305438 : with_check_digit "CSQU305438" = "CSQU3054387".
Proof. reflexivity. Qed.

Example with_check_digit_AAAU100000 : with_check_digit "AAAU100000" = "AAAU1000007".
Proof. reflexivity. Qed.

Example check_digit_CSQU3054387 : Iso6346.check_digit "CSQU3054387" = Some 7.
Proof. reflexivity. Qed.

Example str_examples :
  (Py.str 0, Py.str 7, Py.str 10, Py.str 999999, Py.str (-45)) =
  ("0", "7", "10", "999999", "-45").
Proof. reflexivity. Qed.

(** Whatever the generator draws, the number returned obeys the
    check-digit law. *)
Lemma generate_container_number_valid (f : Faker) :
  exists (number : string) (f' : Faker),
    generate_container_number f = (Ok number, f') /\
    valid_container_number number.
Proof.
  rewrite generate_container_number_draws.
  set (k1 := rng f (drawn f) mod 26).
  set (k2 := rng f (S (drawn f)) mod 26).
  set (k3 := rng f (S (S (drawn f))) mod 26).
  set (serial := 100000 + rng f (S (S (S (drawn f)))) mod 900000).
  assert (Hk1 : 0 <= k1 < 26) by (unfold k1; lia).
  assert (Hk2 : 0 <= k2 < 26) by (unfold k2; lia).
  assert (Hk3 : 0 <= k3 < 26) by (unfold k3; lia).
  assert (Hs : 100000 <= serial <= 999999) by (unfold serial; lia).
  rewrite (str_six_digits serial Hs).
  set (base := String (Py.chr (65 + k1)) _).
  unfold with_check_digit.
  set (d := Py.sum (char_values 0 base) mod 11 mod 10).
  assert (Hd : 0 <= d < 10) by (unfold d; lia).
  rewrite (str_one_digit d Hd).
  assert (Hlen : String.length base = 10%nat) by reflexivity.
  eexists (base +:+ String (Py.digit_char d) ""), _.
  split; [reflexivity|]. split; [|exists d; split; [|split]].
  - rewrite string_length_app, Hlen. reflexivity.
  - rewrite <- Hlen. apply string_get_app_length.
  - by apply digit_char_is_decimal.
  - unfold Iso6346.check_digit.
    rewrite <- Hlen, substring_app_prefix.
    rewrite products_char_values.
    + rewrite <- sum_foldr. reflexivity.
    + unfold base. simpl.
      repeat apply Forall_cons_2; try apply Forall_nil_2;
        first [ by apply value_uppercase
              | by (apply value_digit; lia)
              | by eexists ].
Qed.

(** C1.  Whatever the generator draws, [generate_container_number] returns
    an 11-character string whose last character is a decimal digit, and
    that digit is the check digit the specification's rule computes from
    the first ten characters: values A-Z as codepoint minus 55 and digits
    at face value, weighted by 2^i, summed, taken modulo 11 then modulo
    10. *)
Theorem generate_container_number_check_digit (f : Faker) :
  exists (number : string) (f' : Faker) (d : Z),
    generate_container_number f = (Ok number, f') /\
    String.length number = 11%nat /\
    String.get 10 number = Some (Py.digit_char d) /\
    Iso6346.is_decimal_digit (Py.digit_char d) = true /\
    Iso6346.check_digit number = Some d.
Proof.
  destruct (generate_container_number_valid f)
    as (number & f' & Hrun & Hlen & d & Hget & Hdigit & Hcheck).
  by exists number, f', d.
Qed.

(** ** Rules for [wp] *)

Section wp_rules.
Context {S : Type}.
Implicit Types s : S.

Lemma wp_run {A} (m : M S A) (Q : result A -> S -> Prop) s r s' :
  wp m Q s -> m s = (r, s') -> Q r s'.
Proof. unfold wp. intros H Hm. by rewrite Hm in H. Qed.

Lemma wp_mono {A} (m : M S A) (Q Q' : result A -> S -> Prop) s :
  wp m Q s -> (forall r s', Q r s' -> Q' r s') -> wp m Q' s.
Proof. unfold wp. auto. Qed.

Lemma wp_ret {A} (a : A) (Q : result A -> S -> Prop) s :
  Q (Ok a) s -> wp (mret a) Q s.
Proof. done. Qed.

Lemma wp_raise {A} (e : exn) (Q : result A -> S -> Prop) s :
  Q (Raise e) s -> wp (raise e) Q s.
Proof. done. Qed.

Lemma wp_bind {A B} (m : M S A) (f : A -> M S B) (Q : result B -> S -> Prop) s :
  wp m (by_result (fun a s' => wp (f a) Q s') (fun e s' => Q (Raise e) s')) s ->
  wp (m ≫= f) Q s.
Proof.
  unfold wp, mbind, M_bind, by_result.
  destruct (m s) as [[a|e] s']; simpl; auto.
Qed.

Lemma wp_try_except {A} (m : M S A) (h : exn -> option (M S A))
    (Q : result A -> S -> Prop) s :
  wp m (by_result (fun a s' => Q (Ok a) s')
          (fun e s' => match h e with
                       | Some handler => wp handler Q s'
                       | None => Q (Raise e) s'
                       end)) s ->
  wp (try_except m h) Q s.
Proof.
  unfold wp, try_except, by_result.
  destruct (m s) as [[a|e] s']; simpl; [done|].
  destruct (h e); auto.
Qed.

(** A loop, with an invariant [I] on the number of elements done, the
    accumulator and the state, and a condition [E] for the way out by an
    exception. *)
Lemma wp_for_each {A Acc} (I : nat -> Acc -> S -> Prop) (E : exn -> S -> Prop)
    (l : list A) (body : Acc -> A -> M S Acc) (acc : Acc) s :
  I 0%nat acc s ->
  (forall i x acc s, l !! i = Some x -> I i acc s ->
     wp (body acc x) (by_result (I (Datatypes.S i)) E) s) ->
  wp (for_each l body acc) (by_result (I (length l)) E) s.
Proof.
  revert I acc s. induction l as [|x l IH]; intros I acc s H0 Hbody.
  - exact H0.
  - simpl. apply wp_bind.
    eapply wp_mono; [apply (Hbody 0%nat x acc s); [done | exact H0]|].
    intros [acc'|e] s'; simpl; [|done].
    intros H1. apply (IH (fun i => I (Datatypes.S i))); [exact H1|].
    intros i y acc'' s'' Hy. apply (Hbody (Datatypes.S i)). exact Hy.
Qed.

Lemma wp_lift {T A} (get : S -> T) (set : T -> S -> S) (m : M T A)
    (Q : result A -> S -> Prop) s :
  wp m (fun r t => Q r (set t s)) (get s) -> wp (lift get set m) Q s.
Proof. unfold wp, lift. by destruct (m (get s)). Qed.

End wp_rules.

Arguments wp {S A} m Q s : simpl never.

(** ** The primitives *)

Lemma wp_faker {A} (m : M Faker A) (V : result A -> Prop)
    (Q : result A -> World -> Prop) (w : World) :
  (forall f, V (m f).1) ->
  (forall r f, V r -> Q r (set_fake f w)) ->
  wp (faker m) Q w.
Proof.
  intros HV HQ. apply wp_lift. unfold wp. apply HQ, HV.
Qed.

Lemma wp_web {A} (m : M Net A) (Q : result A -> World -> Prop) (w : World) :
  Q (m (net w)).1 (set_net (m (net w)).2 w) -> wp (web m) Q w.
Proof. intros H. apply wp_lift. exact H. Qed.

Lemma wp_execute (st : statement) (Q : result query_result -> World -> Prop) (w : World) :
  (fault (conn w) (executed (conn w)) st = true ->
   Q (Raise DatabaseError) (set_conn (tick (conn w)) w)) ->
  (fault (conn w) (executed (conn w)) st = false ->
   Q (Ok (run st (sequences (conn w)) (pending (conn w))).1.1)
     (set_conn (set_transaction (run st (sequences (conn w)) (pending (conn w))).1.2
                                (run st (sequences (conn w)) (pending (conn w))).2
                                (tick (conn w))) w)) ->
  wp (db (db_conn.execute st)) Q w.
Proof.
  intros Hf Hr. apply wp_lift. unfold wp, db_conn.execute.
  destruct (fault (conn w) (executed (conn w)) st); [by apply Hf|].
  destruct (run st _ _) as [[r seqs] T]. by apply Hr.
Qed.

Lemma wp_commit (Q : result unit -> World -> Prop) (w : World) :
  Q (Ok tt) (set_conn (set_committed (pending (conn w)) (conn w)) w) ->
  wp (db db_conn.commit) Q w.
Proof. intros H. apply wp_lift. exact H. Qed.

Lemma wp_fetchone_0 (r : query_result) (Q : result Z -> World -> Prop) (w : World) :
  (forall id, r = returning id -> Q (Ok id) w) ->
  ((forall id, r <> returning id) -> Q (Raise DatabaseError) w) ->
  wp (db (db_conn.fetchone_0 r)) Q w.
Proof.
  intros Hok Hno. apply wp_lift. unfold wp. destruct w as [n f c].
  destruct r; simpl; [apply Hno; congruence | by apply Hok | apply Hno; congruence].
Qed.

Lemma wp_fetchall (r : query_result) (Q : result (list (string * Z)) -> World -> Prop)
    (w : World) :
  (forall rows, r = selected rows -> Q (Ok rows) w) ->
  ((forall rows, r <> selected rows) -> Q (Raise DatabaseError) w) ->
  wp (db (db_conn.fetchall r)) Q w.
Proof.
  intros Hok Hno. apply wp_lift. unfold wp. destruct w as [n f c].
  destruct r; simpl; [apply Hno; congruence | apply Hno; congruence | by apply Hok].
Qed.

Lemma wp_subscript {S} (d : gmap string Z) (key : string)
    (Q : result Z -> S -> Prop) (s : S) :
  (forall v, d !! key = Some v -> Q (Ok v) s) ->
  (d !! key = None -> Q (Raise KeyError) s) ->
  wp (subscript d key) Q s.
Proof.
  intros Hok Hno. unfold wp, subscript.
  destruct (d !! key); [by apply Hok | by apply Hno].
Qed.

(** *** What Faker returns *)

Lemma random_element_elem {A} (elements : list A) (f : Faker) :
  match (fake.random_element elements f).1 with
  | Ok x => x ∈ elements
  | Raise _ => elements = []
  end.
Proof.
  destruct elements as [|y l]; [done|].
  unfold fake.random_element, mbind, M_bind, fake.next.
  cbv beta iota.
  destruct ((y :: l) !! Z.to_nat (rng f (drawn f) `mod` Z.of_nat (length (y :: l))))
    as [x|] eqn:Hx.
  - simpl. by eapply list_elem_of_lookup_2.
  - exfalso. apply lookup_ge_None in Hx. simpl length in Hx. lia.
Qed.
(** Two elements sampled without replacement sit at two distinct
    positions of the list. *)
Lemma random_elements_unique_2 {A} (elements : list A) (f : Faker) :
  match (fake.random_elements_unique elements 2 f).1 with
  | Ok chosen =>
      exists i j o d, chosen = [o; d] /\ i <> j /\
        elements !! i = Some o /\ elements !! j = Some d
  | Raise _ => True
  end.
Proof.
  unfold fake.random_elements_unique.
  destruct (length elements <? 2)%nat; [done|].
  unfold fake.sample, mbind, M_bind, fake.next, mret, M_ret. cbv beta iota.
  set (n := length elements).
  set (i := Z.to_nat (rng f (drawn f) `mod` Z.of_nat n)).
  destruct (elements !! i) as [o|] eqn:Ho; [|done].
  destruct (last elements) as [y|] eqn:Hy; [|done].
  set (pool := take (n - 1) (<[i:=y]> elements)).
  set (j := Z.to_nat (_ `mod` Z.of_nat (length pool))).
  destruct (pool !! j) as [d|] eqn:Hd; [|done].
  destruct (last pool) as [z|]; [|done]. simpl.
  assert (Hj : (j < n - 1)%nat).
  { apply lookup_lt_Some in Hd. unfold pool in Hd.
    rewrite length_take in Hd. lia. }
  unfold pool in Hd. rewrite lookup_take_lt in Hd by done.
  destruct (decide (i = j)) as [<-|Hij].
  - rewrite list_lookup_insert_eq in Hd by (fold n; lia).
    injection Hd as <-. rewrite last_lookup in Hy.
    exists i, (Nat.pred n), o, y. repeat split; [lia | done | done].
  - rewrite list_lookup_insert_ne in Hd by done.
    exists i, j, o, d. done.
Qed.

(** With no repeated element in the list the two are different. *)
Lemma random_elements_unique_2_NoDup {A} (elements : list A) (f : Faker) o d :
  NoDup elements ->
  (fake.random_elements_unique elements 2 f).1 = Ok [o; d] -> o <> d.
Proof.
  intros Hnd Hr. pose proof (random_elements_unique_2 elements f) as H.
  rewrite Hr in H. destruct H as (i & j & o' & d' & [= -> ->] & Hij & Ho & Hd).
  intros ->. apply Hij. eapply NoDup_lookup; eauto.
Qed.

(** ** Steps of the entity stages *)

Lemma add_rows_no_rows (T : Tables) : add_rows T no_rows = T.
Proof. destruct T. unfold add_rows. simpl. by rewrite !app_nil_r. Qed.

Lemma add_rows_app (T : Tables) (a b : Batch) :
  add_rows (add_rows T a) b = add_rows T (batch_app a b).
Proof. unfold add_rows, batch_app. simpl. by rewrite !app_assoc. Qed.

Lemma entity_step_refl (w : World) : entity_step no_rows w w.
Proof. split; try done. by rewrite add_rows_no_rows. Qed.

Lemma entity_step_trans (a b : Batch) (w0 w1 w2 : World) :
  entity_step a w0 w1 -> entity_step b w1 w2 -> entity_step (batch_app a b) w0 w2.
Proof.
  intros [] []. split; try congruence.
  rewrite <- add_rows_app. congruence.
Qed.

Lemma entity_step_set_fake (b : Batch) (w0 w : World) (f : Faker) :
  entity_step b w0 w -> entity_step b w0 (set_fake f w).
Proof. by intros []. Qed.

Lemma entity_step_fault_free (b : Batch) (w0 w : World) :
  entity_step b w0 w -> fault_free (conn w0) -> fault_free (conn w).
Proof. intros Hstep H k s. rewrite (step_fault _ _ _ Hstep). apply H. Qed.

Lemma entity_step_lookup_rows (b : Batch) (w0 w : World) (l : lookup_table) :
  entity_step b w0 w ->
  lookup_rows l (pending (conn w)) = lookup_rows l (pending (conn w0)).
Proof. intros Hstep. rewrite (step_pending _ _ _ Hstep). by destruct l. Qed.

Lemma run_entity_statement (st : statement) (seqs : table -> Z) (T : Tables) :
  entity_statement st = true ->
  (run st seqs T).2 = add_rows T (inserted st seqs) /\
  forall l, (run st seqs T).1.2 (enum l) = seqs (enum l).
Proof.
  destruct st; try done; intros _; simpl;
    (split; [first [ by rewrite add_rows_no_rows
                   | unfold add_rows; simpl; by rewrite ?app_nil_r ]
            | try done; intros l; unfold nextval; by case_decide ]).
Qed.

(** A statement of an entity stage, run after the rows [b] were added. *)
Lemma wp_execute_entity (st : statement) (b : Batch) (w0 w : World)
    (Q : result query_result -> World -> Prop) :
  entity_statement st = true ->
  entity_step b w0 w ->
  (forall w', entity_step b w0 w' ->
     sequences (conn w') = sequences (conn w) ->
     ~ fault_free (conn w0) ->
     Q (Raise DatabaseError) w') ->
  (forall w', entity_step (batch_app b (inserted st (sequences (conn w)))) w0 w' ->
     sequences (conn w') = (run st (sequences (conn w)) (pending (conn w))).1.2 ->
     Q (Ok (run st (sequences (conn w)) (pending (conn w))).1.1) w') ->
  wp (db (db_conn.execute st)) Q w.
Proof.
  intros Hst Hstep Hraise Hok.
  destruct (run_entity_statement st (sequences (conn w)) (pending (conn w)) Hst)
    as [Hrows Hseq].
  apply wp_execute.
  - intros Hf. apply Hraise; [by destruct Hstep | done|].
    intros Hff. rewrite (step_fault _ _ _ Hstep), Hff in Hf. done.
  - intros _. apply Hok; [|done].
    apply entity_step_trans with w; [done|].
    split; simpl; try done.
Qed.

(** ** The stages, one by one *)

Ltac faker_any :=
  apply wp_bind; apply wp_faker with (V := anything); [done|];
  intros [?v|?e] ?f _; simpl.

Lemma populate_clients_spec (companies : list string) (w : World) :
  wp (populate_clients companies)
     (fun r w' =>
        exists cl, entity_step (only_clients cl) w w' /\
          forall client_ids, r = Ok client_ids ->
            client_ids = client_id <$> cl /\ length cl = length companies)
     w.
Proof.
  unfold populate_clients. apply wp_bind.
  eapply wp_mono.
  { apply wp_for_each with
      (I := fun i (acc : list Z) s =>
              exists cl, entity_step (only_clients cl) w s /\
                         length cl = i /\ acc = client_id <$> cl)
      (E := fun _ s => exists cl, entity_step (only_clients cl) w s).
    - exists []. split; [apply entity_step_refl | done].
    - intros i company acc s _ (cl & Hstep & Hcl & Hacc).
      faker_any; [|exists cl; by apply entity_step_set_fake].
      faker_any; [|exists cl; by do 2 apply entity_step_set_fake].
      faker_any; [|exists cl; by do 3 apply entity_step_set_fake].
      apply wp_bind.
      eapply wp_execute_entity; [done | by do 3 apply entity_step_set_fake | |].
      + intros w' Hw' _ _. by exists cl.
      + intros w' Hw' _. apply wp_bind, wp_fetchone_0.
        * intros id [= <-]. simpl. apply wp_ret. simpl.
          eexists. split; [exact Hw'|]. simpl.
          rewrite length_app, fmap_app, Hacc. simpl. split; [lia | done].
        * intros _. simpl. eexists. exact Hw'. }
  intros [ids|e] s'; simpl.
  - intros (cl & Hstep & Hcl & Hacc). apply wp_ret.
    exists cl. split; [done|]. by intros ? [= <-].
  - intros (cl & Hstep). exists cl. split; [done|]. done.
Qed.

Lemma length_range (n : Z) : length (range n) = Z.to_nat n.
Proof. unfold range. by rewrite length_map, length_seq. Qed.

Lemma populate_vessels_spec (client_count : Z) (w : World) :
  wp (populate_vessels client_count)
     (fun r w' =>
        exists ve, entity_step (only_vessels ve) w w' /\
          forall vessel_ids, r = Ok vessel_ids ->
            length vessel_ids = Z.to_nat (client_count * 3) /\
            length ve = Z.to_nat (client_count * 3) /\
            vessel_ids = vessel_id <$> ve /\
            NoDup vessel_ids)
     w.
Proof.
  unfold populate_vessels. apply wp_bind.
  eapply wp_mono.
  { apply wp_for_each with
      (I := fun i (acc : list Z) s =>
              exists ve, entity_step (only_vessels ve) w s /\
                length ve = i /\ acc = vessel_id <$> ve /\ NoDup acc /\
                Forall (fun id => id < sequences (conn s) vessel) acc)
      (E := fun _ s => exists ve, entity_step (only_vessels ve) w s).
    - exists []. split; [apply entity_step_refl|]. repeat split; try done; constructor.
    - intros i _ acc s _ (ve & Hstep & Hve & Hacc & Hnd & Hlt).
      faker_any; [|exists ve; by apply entity_step_set_fake].
      faker_any; [|exists ve; by do 2 apply entity_step_set_fake].
      faker_any; [|exists ve; by do 3 apply entity_step_set_fake].
      faker_any; [|exists ve; by do 4 apply entity_step_set_fake].
      apply wp_bind.
      eapply wp_execute_entity; [done | by do 4 apply entity_step_set_fake | |].
      + intros w' Hw' _ _. by exists ve.
      + intros w' Hw' Hseq. apply wp_bind, wp_fetchone_0.
        * intros id [= <-]. simpl. apply wp_ret. simpl.
          eexists. split; [exact Hw'|]. simpl.
          rewrite Hseq. simpl. unfold nextval. rewrite decide_True by done.
          repeat split.
          -- rewrite length_app. simpl. lia.
          -- rewrite fmap_app. by rewrite Hacc.
          -- apply NoDup_app. split; [done|]. split; [|apply NoDup_singleton].
             intros x Hx. rewrite list_elem_of_singleton. intros ->.
             rewrite Forall_forall in Hlt. specialize (Hlt _ Hx). lia.
          -- apply Forall_app. split.
             ++ eapply Forall_impl; [exact Hlt|]. simpl. intros; lia.
             ++ apply Forall_singleton. lia.
        * intros _. simpl. eexists. exact Hw'. }
  intros [ids|e] s'; simpl.
  - intros (ve & Hstep & Hve & Hacc & Hnd & _). apply wp_ret.
    exists ve. split; [done|]. intros ? [= <-].
    rewrite length_range in Hve. subst ids. rewrite length_fmap. done.
  - intros (ve & Hstep). exists ve. split; [done|]. done.
Qed.

(** *** Dictionaries read from a lookup table *)

Lemma dict_of_rows_lookup_Some (rows : list (string * Z)) (k : string) (v : Z) :
  dict_of_rows rows !! k = Some v -> (k, v) ∈ rows.
Proof.
  unfold dict_of_rows.
  assert (H : forall (d : gmap string Z),
             foldl (fun d row => <[row.1:=row.2]> d) d rows !! k = Some v ->
             (k, v) ∈ rows \/ d !! k = Some v).
  { induction rows as [|[k' v'] rows IH]; intros d; simpl; [by right|].
    intros Hl. destruct (IH _ Hl) as [Hin|Hd].
    - left. by right.
    - destruct (decide (k' = k)) as [->|Hne].
      + rewrite lookup_insert_eq in Hd. injection Hd as ->. left. by left.
      + rewrite lookup_insert_ne in Hd by done. by right. }
  intros Hl. destruct (H _ Hl) as [|Hd]; [done|]. by rewrite lookup_empty in Hd.
Qed.

Lemma dict_of_rows_is_Some (rows : list (string * Z)) (k : string) :
  k ∈ rows.*1 -> is_Some (dict_of_rows rows !! k).
Proof.
  unfold dict_of_rows.
  assert (H : forall (d : gmap string Z),
             k ∈ rows.*1 \/ is_Some (d !! k) ->
             is_Some (foldl (fun d row => <[row.1:=row.2]> d) d rows !! k)).
  { induction rows as [|[k' v'] rows IH]; intros d; simpl.
    - intros [Hin|Hd]; [by apply elem_of_nil in Hin | done].
    - intros [Hin|Hd]; apply IH.
      + apply elem_of_cons in Hin as [->|Hin]; [right | by left].
        rewrite lookup_insert_eq. by eexists.
      + right. destruct (decide (k' = k)) as [->|Hne].
        * rewrite lookup_insert_eq. by eexists.
        * by rewrite lookup_insert_ne. }
  intros Hin. apply H. by left.
Qed.

(** The dictionary a stage builds from its SELECT. *)
Lemma selected_dict_named (T : Tables) (l : lookup_table) (name : string) (id : Z) :
  dict_of_rows (map (fun r => (r.2, r.1)) (lookup_rows l T)) !! name = Some id ->
  named T l name id.
Proof.
  intros H. apply dict_of_rows_lookup_Some in H.
  apply list_elem_of_fmap in H as ([id' name'] & [= -> ->] & Hin). exact Hin.
Qed.

Lemma selected_dict_is_Some (T : Tables) (l : lookup_table) (name : string) :
  name ∈ (lookup_rows l T).*2 ->
  is_Some (dict_of_rows (map (fun r => (r.2, r.1)) (lookup_rows l T)) !! name).
Proof.
  intros H. apply dict_of_rows_is_Some.
  rewrite <- list_fmap_compose.
  apply list_elem_of_fmap in H as (r & -> & Hr).
  apply list_elem_of_fmap. by exists r.
Qed.

Lemma range2_lookup (a b : Z) (i : nat) (x : Z) :
  range2 a b !! i = Some x -> x = a + Z.of_nat i.
Proof.
  unfold range2. rewrite list_lookup_fmap.
  destruct (seq 0 (Z.to_nat (b - a)) !! i) as [k|] eqn:Hk; [|done].
  apply lookup_seq in Hk as [-> _]. by intros [= <-].
Qed.

Lemma populate_berths_spec (vessel_ids : list Z) (w : World) :
  wp (populate_berths vessel_ids)
     (fun r w' =>
        exists be, entity_step (only_berths be) w w' /\
          (forall (k : nat) b, be !! k = Some b ->
             berth_at (pending (conn w)) vessel_ids (1 + Z.of_nat k) b) /\
          (forall berth_ids, r = Ok berth_ids ->
             length be = 20%nat /\ berth_ids = berth_id <$> be) /\
          (fault_free (conn w) ->
           "OCCUPIED" ∈ (BerthStatus_rows (pending (conn w))).*2 ->
           "AVAILABLE" ∈ (BerthStatus_rows (pending (conn w))).*2 ->
           is_ok r))
     w.
Proof.
  set (T := pending (conn w)).
  set (Good := fault_free (conn w) /\
               "OCCUPIED" ∈ (BerthStatus_rows T).*2 /\
               "AVAILABLE" ∈ (BerthStatus_rows T).*2).
  set (Rows := fun be : list berth_row =>
                 forall (k : nat) b, be !! k = Some b ->
                   berth_at T vessel_ids (1 + Z.of_nat k) b).
  assert (Hfin : forall r w',
    by_result
      (fun (ids : list Z) s => exists be, entity_step (only_berths be) w s /\ Rows be /\
                    length be = 20%nat /\ ids = berth_id <$> be)
      (fun _ s => (exists be, entity_step (only_berths be) w s /\ Rows be) /\ ~ Good)
      r w' ->
    exists be, entity_step (only_berths be) w w' /\ Rows be /\
      (forall berth_ids, r = Ok berth_ids ->
         length be = 20%nat /\ berth_ids = berth_id <$> be) /\
      (fault_free (conn w) ->
       "OCCUPIED" ∈ (BerthStatus_rows T).*2 ->
       "AVAILABLE" ∈ (BerthStatus_rows T).*2 -> is_ok r)).
  { intros [ids|e] w'; simpl.
    - intros (be & ? & ? & ? & ?). exists be.
      split; [done|]. split; [done|]. split; [|done].
      by intros ? [= <-].
    - intros [(be & ? & ?) HnG]. exists be.
      split; [done|]. split; [done|]. split; [done|].
      intros ? ? ?. apply HnG. done. }
  unfold populate_berths.
  eapply wp_mono; [|exact Hfin]. clear Hfin.
  apply wp_bind.
  eapply wp_execute_entity; [done | apply entity_step_refl | |].
  { intros w' Hw' _ Hnf. simpl. split; [|by intros [? _]].
    exists []. split; [done|]. intros k b Hk. by rewrite lookup_nil in Hk. }
  intros w1 Hw1 _. apply wp_bind, wp_fetchall; [|intros Hno; by destruct (Hno _ eq_refl)].
  intros rows [= <-]. cbn [by_result]. fold T.
  apply wp_bind. eapply wp_mono.
  { apply wp_for_each with
      (I := fun i (acc : list Z) s =>
              exists be, entity_step (only_berths be) w s /\ Rows be /\
                         length be = i /\ acc = berth_id <$> be)
      (E := fun _ s => (exists be, entity_step (only_berths be) w s /\ Rows be) /\ ~ Good).
    - exists []. split; [done|]. split; [|done].
      intros k b Hk. by rewrite lookup_nil in Hk.
    - intros i x acc s Hx (be & Hstep & Hrows & Hlen & Hacc).
      apply range2_lookup in Hx. subst x.
      apply wp_bind, wp_subscript.
      + intros sid Hsid. cbn [by_result]. apply (selected_dict_named T BerthStatus) in Hsid.
        apply wp_bind. eapply wp_execute_entity; [done | exact Hstep | |].
        * intros w' Hw' _ Hnf. simpl. split; [by exists be|]. by intros [? _].
        * intros w' Hw' _. apply wp_bind, wp_fetchone_0.
          -- intros id [= <-]. simpl. apply wp_ret. simpl.
             eexists. split; [exact Hw'|]. simpl. split; [|split].
             ++ intros k b Hk.
                destruct (decide (k < length be)%nat) as [Hlt|Hge].
                ** rewrite lookup_app_l in Hk by done. by apply Hrows.
                ** rewrite lookup_app_r in Hk by lia.
                   apply list_lookup_singleton_Some in Hk as [Hk <-].
                   replace k with (length be) by lia. rewrite Hlen.
                   unfold berth_at. simpl. split; [done|].
                   case_decide as Hi.
                   --- destruct (Z.leb_spec (1 + Z.of_nat i) (len vessel_ids)); [done | lia].
                   --- destruct (Z.leb_spec (1 + Z.of_nat i) (len vessel_ids)); [lia | done].
             ++ rewrite length_app. simpl. lia.
             ++ rewrite fmap_app. simpl. by rewrite Hacc.
          -- intros Hno. by destruct (Hno _ eq_refl).
      + intros Hnone. simpl. split; [by exists be|].
        intros (_ & Hocc & Hav).
        assert (Hsome : is_Some (dict_of_rows
                  (map (fun r => (r.2, r.1)) (BerthStatus_rows T))
                  !! (if 1 + Z.of_nat i <=? len vessel_ids then "OCCUPIED" else "AVAILABLE"))).
        { apply (selected_dict_is_Some T BerthStatus). by destruct (_ <=? _). }
        rewrite Hnone in Hsome. by destruct Hsome. }
  intros [ids|e] s'; cbn [by_result]; [|by intros H].
  intros (be & Hstep & Hrows & Hlen & Hacc). apply wp_ret. cbn [by_result].
  exists be. unfold range2 in Hlen. rewrite length_map, length_seq in Hlen. done.
Qed.

(** *** Values drawn in the shipment and container stages *)

Lemma random_int_returns (a b : Z) (f : Faker) :
  a <= b -> returns (fun v => a <= v <= b) (fake.random_int a b f).1.
Proof. intros Hab. simpl. lia. Qed.

Lemma random_number_5_returns (f : Faker) :
  returns (fun v => 0 <= v < 100000) (fake.random_number 5 false f).1.
Proof. simpl. lia. Qed.

Lemma random_element_returns {A} (elements : list A) (f : Faker) :
  returns (fun x => x ∈ elements) (fake.random_element elements f).1.
Proof.
  pose proof (random_element_elem elements f) as H.
  by destruct (fake.random_element elements f).1.
Qed.

Lemma random_elements_unique_2_returns {A} (elements : list A) (f : Faker) :
  returns (fun chosen => exists i j o d, chosen = [o; d] /\ i <> j /\
             elements !! i = Some o /\ elements !! j = Some d)
          (fake.random_elements_unique elements 2 f).1.
Proof.
  pose proof (random_elements_unique_2 elements f) as H.
  by destruct (fake.random_elements_unique elements 2 f).1.
Qed.

Tactic Notation "faker_step" constr(lem) "as" ident(v) ident(Hv) :=
  apply wp_bind; eapply wp_faker; [intros ?f; apply lem|];
  intros [v|?e] ?f Hv; cbn [by_result returns] in *.

(** Rows in groups, one group per element of [keys]: the group of [key]
    has between [lo] and [hi] rows, all of them tagged [key]. *)
Lemma grouped_length {A B} (P : A -> list B -> Prop) (lo hi : Z) keys groups :
  Forall2 P keys groups ->
  (forall key g, P key g -> lo <= len g <= hi) ->
  lo * len keys <= len (concat groups) <= hi * len keys.
Proof.
  intros H HP. unfold len in *.
  induction H as [|key g keys groups Hg _ IH]; simpl; [lia|].
  rewrite length_app. specialize (HP _ _ Hg). lia.
Qed.

Lemma populate_shipments_spec (client_ids : list Z) (ports : list string) (w : World) :
  wp (populate_shipments client_ids ports)
     (fun r w' =>
        exists sh, entity_step (only_shipments sh) w w' /\
          Forall (shipment_ok (pending (conn w)) client_ids ports) sh /\
          forall shipment_ids, r = Ok shipment_ids ->
            shipment_ids = shipment_id <$> sh /\
            exists groups, sh = concat groups /\
              Forall2 (shipments_of_client) client_ids groups)
     w.
Proof.
  set (T := pending (conn w)).
  set (E := fun (_ : exn) s =>
              exists sh, entity_step (only_shipments sh) w s /\
                         Forall (shipment_ok T client_ids ports) sh).
  unfold populate_shipments.
  apply wp_mono with
    (Q := by_result
            (fun (ids : list Z) s =>
               exists groups, entity_step (only_shipments (concat groups)) w s /\
                 Forall (shipment_ok T client_ids ports) (concat groups) /\
                 ids = shipment_id <$> concat groups /\
                 Forall2 shipments_of_client client_ids groups) E).
  2:{ intros [ids|e] w'; cbn [by_result].
      - intros (groups & ? & ? & ? & ?). exists (concat groups).
        split; [done|]. split; [done|].
        intros ? [= <-]. split; [done|]. by exists groups.
      - intros (sh & ? & ?). exists sh. split; [done|]. split; [done|]. done. }
  apply wp_bind.
  eapply wp_execute_entity; [done | apply entity_step_refl | |].
  { intros w' Hw' _ _. exists []. by split. }
  intros w1 Hw1 _. apply wp_bind, wp_fetchall; [|intros Hno; by destruct (Hno _ eq_refl)].
  intros rows [= <-]. cbn [by_result]. fold T.
  apply wp_bind. eapply wp_mono.
  { apply wp_for_each with
      (I := fun i (acc : list Z) s =>
              exists groups, entity_step (only_shipments (concat groups)) w s /\
                Forall (shipment_ok T client_ids ports) (concat groups) /\
                acc = shipment_id <$> concat groups /\
                Forall2 shipments_of_client (take i client_ids) groups)
      (E := E).
    - exists []. split; [done|]. split; [constructor|]. split; [done|]. constructor.
    - intros i client_id acc s Hclient (groups & Hstep0 & Hok0 & Hacc0 & Hgroups).
      pose proof (list_elem_of_lookup_2 _ _ _ Hclient) as Hin.
      faker_step (fun f => random_int_returns 2 5 f ltac:(lia)) as count Hcount;
        [|exists (concat groups); split; [by apply entity_step_set_fake | done]].
      eapply wp_mono.
      { apply wp_for_each with
          (I := fun j (acc : list Z) s =>
                  exists g, entity_step (only_shipments (concat groups ++ g)) w s /\
                    Forall (shipment_ok T client_ids ports) (concat groups ++ g) /\
                    acc = shipment_id <$> (concat groups ++ g) /\
                    length g = j /\
                    Forall (fun r => shipment_client_id r = client_id) g)
          (E := E).
        - exists []. rewrite app_nil_r. split; [by apply entity_step_set_fake|].
          split; [done|]. split; [done|]. split; [done|]. constructor.
        - intros j _ acc1 s1 _ (g & Hstep & Hok & Hacc & Hlen & Hg).
          set (sh := concat groups ++ g) in *.
          faker_step (random_elements_unique_2_returns ports) as chosen Hchosen;
            [|exists sh; split; [by apply entity_step_set_fake | done]].
          destruct Hchosen as (p1 & p2 & o & d & -> & Hij & Ho & Hd).
          faker_step (random_element_returns status_options) as status Hstatus;
            [|exists sh; split; [by do 2 apply entity_step_set_fake | done]].
          apply wp_bind, wp_subscript;
            [|intros _; exists sh; split; [by do 2 apply entity_step_set_fake | done]].
          intros sid Hsid. cbn [by_result].
          apply (selected_dict_named T ShipmentStatus) in Hsid.
          faker_any; [|exists sh; split; [by do 3 apply entity_step_set_fake | done]].
          faker_step random_number_5_returns as value Hvalue;
            [|exists sh; split; [by do 4 apply entity_step_set_fake | done]].
          apply wp_bind.
          eapply wp_execute_entity; [done | by do 4 apply entity_step_set_fake | |].
          + intros w' Hw' _ _. by exists sh.
          + intros w' Hw' _. apply wp_bind, wp_fetchone_0.
            * intros id [= <-]. cbn [by_result]. apply wp_ret. cbn [by_result].
              eexists (g ++ [_]). rewrite app_assoc. fold sh.
              split; [exact Hw'|]. simpl. split; [|split; [|split]].
              -- apply Forall_app. split; [done|]. apply Forall_singleton.
                 split; simpl; [done | by exists p1, p2 | by exists status | lia].
              -- rewrite fmap_app. by rewrite Hacc.
              -- rewrite length_app. simpl. lia.
              -- apply Forall_app. split; [done|]. by apply Forall_singleton.
            * intros Hno. by destruct (Hno _ eq_refl). }
      intros [acc1|e] s1; cbn [by_result]; [|done].
      intros (g & Hstep & Hok & Hacc & Hlen & Hg). exists (groups ++ [g]).
      rewrite length_range in Hlen.
      rewrite concat_app. simpl. rewrite app_nil_r.
      split; [done|]. split; [done|]. split; [done|].
      rewrite (take_S_r _ _ _ Hclient). apply Forall2_app; [done|].
      constructor; [|constructor]. split; [|done]. unfold len. lia. }
  intros [ids|e] s'; cbn [by_result]; [|by intros H].
  intros (groups & Hstep & Hok & Hacc & Hgroups). apply wp_ret. cbn [by_result].
  exists groups. rewrite firstn_all in Hgroups. done.
Qed.

Lemma generate_container_number_returns (f : Faker) :
  returns valid_container_number (generate_container_number f).1.
Proof.
  destruct (generate_container_number_valid f) as (number & f' & -> & H). exact H.
Qed.

(** The optional vessel of a container. *)
Lemma wp_assigned_vessel (vessel_ids : list Z)
    (Q : result (option Z) -> World -> Prop) (w : World) :
  (vessel_ids = [] -> Q (Ok None) w) ->
  (forall r f,
     returns (fun a : option Z => exists v, a = Some v /\ v ∈ vessel_ids) r ->
     Q r (set_fake f w)) ->
  wp (match vessel_ids with
      | [] => mret None
      | _ => v ← faker (fake.random_element vessel_ids); mret (Some v)
      end) Q w.
Proof.
  intros Hnone Hsome. destruct vessel_ids as [|v0 vs]; [by apply wp_ret, Hnone|].
  faker_step (random_element_returns (v0 :: vs)) as vid Hvid.
  - apply wp_ret. apply Hsome. simpl. by exists vid.
  - by apply Hsome.
Qed.

Lemma populate_containers_spec (shipment_ids vessel_ids : list Z) (w : World) :
  wp (populate_containers shipment_ids vessel_ids)
     (fun r w' =>
        exists co, entity_step (only_containers co) w w' /\
          Forall (container_ok (pending (conn w)) shipment_ids vessel_ids) co /\
          forall container_count, r = Ok container_count ->
            container_count = len co /\
            exists groups, co = concat groups /\
              Forall2 containers_of_shipment shipment_ids groups)
     w.
Proof.
  set (T := pending (conn w)).
  set (E := fun (_ : exn) s =>
              exists co, entity_step (only_containers co) w s /\
                         Forall (container_ok T shipment_ids vessel_ids) co).
  unfold populate_containers.
  apply wp_mono with
    (Q := by_result
            (fun (n : Z) s =>
               exists groups, entity_step (only_containers (concat groups)) w s /\
                 Forall (container_ok T shipment_ids vessel_ids) (concat groups) /\
                 n = len (concat groups) /\
                 Forall2 containers_of_shipment shipment_ids groups) E).
  2:{ intros [n|e] w'; cbn [by_result].
      - intros (groups & ? & ? & ? & ?). exists (concat groups).
        split; [done|]. split; [done|].
        intros ? [= <-]. split; [done|]. by exists groups.
      - intros (co & ? & ?). exists co. split; [done|]. split; [done|]. done. }
  apply wp_bind.
  eapply wp_execute_entity; [done | apply entity_step_refl | |].
  { intros w' Hw' _ _. exists []. by split. }
  intros w1 Hw1 _. apply wp_bind, wp_fetchall; [|intros Hno; by destruct (Hno _ eq_refl)].
  intros rows [= <-]. cbn [by_result]. fold T.
  apply wp_bind. eapply wp_mono.
  { apply wp_for_each with
      (I := fun i (acc : Z) s =>
              exists groups, entity_step (only_containers (concat groups)) w s /\
                Forall (container_ok T shipment_ids vessel_ids) (concat groups) /\
                acc = len (concat groups) /\
                Forall2 containers_of_shipment (take i shipment_ids) groups)
      (E := E).
    - exists []. split; [done|]. split; [constructor|]. split; [done|]. constructor.
    - intros i shipment_id acc s Hshipment (groups & Hstep0 & Hok0 & Hacc0 & Hgroups).
      pose proof (list_elem_of_lookup_2 _ _ _ Hshipment) as Hin.
      faker_step (fun f => random_int_returns 1 4 f ltac:(lia)) as count Hcount;
        [|exists (concat groups); split; [by apply entity_step_set_fake | done]].
      eapply wp_mono.
      { apply wp_for_each with
          (I := fun j (acc : Z) s =>
                  exists g, entity_step (only_containers (concat groups ++ g)) w s /\
                    Forall (container_ok T shipment_ids vessel_ids) (concat groups ++ g) /\
                    acc = len (concat groups ++ g) /\
                    length g = j /\
                    Forall (fun r => container_shipment_id r = shipment_id) g)
          (E := E).
        - exists []. rewrite app_nil_r. split; [by apply entity_step_set_fake|].
          split; [done|]. split; [done|]. split; [done|]. constructor.
        - intros j _ acc1 s1 _ (g & Hstep & Hok & Hacc & Hlen & Hg).
          set (co := concat groups ++ g) in *.
          faker_step (random_element_returns container_types) as ctype Hctype;
            [|exists co; split; [by apply entity_step_set_fake | done]].
          apply wp_bind.
          apply wp_mono with
            (Q := by_result
                    (fun (assigned : option Z) s' =>
                       entity_step (only_containers co) w s' /\
                       match assigned with
                       | Some v => v ∈ vessel_ids
                       | None => vessel_ids = []
                       end) E).
          { apply wp_assigned_vessel.
            - intros Hnil. cbn [by_result]. split; [by apply entity_step_set_fake | done].
            - intros [a|e] f1 Ha; cbn [by_result returns] in *.
              + destruct Ha as (vid & -> & Hvid).
                split; [by do 2 apply entity_step_set_fake | done].
              + exists co. split; [by do 2 apply entity_step_set_fake | done]. }
          intros [assigned|e] s2; cbn [by_result]; [|done].
          intros [Hstep2 Hassigned].
          apply wp_bind, wp_subscript; [|intros _; by exists co].
          intros tid Htid. cbn [by_result].
          apply (selected_dict_named T ContainerType) in Htid.
          faker_step generate_container_number_returns as number Hnumber;
            [|exists co; split; [by apply entity_step_set_fake | done]].
          faker_step (random_element_returns [20; 40]) as sz Hsz;
            [|exists co; split; [by do 2 apply entity_step_set_fake | done]].
          apply wp_bind.
          eapply wp_execute_entity; [done | by do 2 apply entity_step_set_fake | |].
          + intros w' Hw' _ _. by exists co.
          + intros w' Hw' _. cbn [by_result]. apply wp_ret. cbn [by_result].
            eexists (g ++ [_]). rewrite app_assoc. fold co.
            split; [exact Hw'|]. simpl. split; [|split; [|split]].
            * apply Forall_app. split; [done|]. apply Forall_singleton.
              split; simpl; [done | done | by exists ctype | done | done].
            * unfold len in *. rewrite length_app. simpl. lia.
            * rewrite length_app. simpl. lia.
            * apply Forall_app. split; [done|]. by apply Forall_singleton. }
      intros [acc1|e] s1; cbn [by_result]; [|done].
      intros (g & Hstep & Hok & Hacc & Hlen & Hg). exists (groups ++ [g]).
      rewrite length_range in Hlen.
      rewrite concat_app. simpl. rewrite app_nil_r.
      split; [done|]. split; [done|]. split; [done|].
      rewrite (take_S_r _ _ _ Hshipment). apply Forall2_app; [done|].
      constructor; [|constructor]. split; [|done]. unfold len. lia. }
  intros [n|e] s'; cbn [by_result]; [|by intros H].
  intros (groups & Hstep & Hok & Hacc & Hgroups). apply wp_ret. cbn [by_result].
  exists groups. rewrite firstn_all in Hgroups. done.
Qed.

(** ** The lookup seeder *)

Lemma populate_lookup_tables_loops :
  populate_lookup_tables =
    (_ ← seed_lookup ShipmentStatus statuses;
     _ ← seed_lookup ContainerType container_types;
     _ ← seed_lookup BerthStatus berth_statuses;
     db db_conn.commit).
Proof. reflexivity. Qed.

Lemma main_try_phases :
  main_try = (_ ← truncate_tables; _ ← populate_lookup_tables; entity_phase).
Proof. reflexivity. Qed.

Lemma seed_rows_app (names1 names2 : list string) : forall seq rows,
  seed_rows seq (names1 ++ names2) rows =
  seed_rows (seq + len names1) names2 (seed_rows seq names1 rows).
Proof.
  induction names1 as [|name names1 IH]; intros seq rows; simpl.
  - unfold len. simpl. by rewrite Z.add_0_r.
  - rewrite IH. f_equal. unfold len. simpl length. lia.
Qed.

Lemma keys_ok_mono (seq seq' : Z) rows :
  keys_ok seq rows -> seq <= seq' -> keys_ok seq' rows.
Proof.
  intros [Hnd Hlt] Hle. split; [done|].
  eapply Forall_impl; [exact Hlt|]. simpl. intros; lia.
Qed.

Lemma keys_ok_seed (names : list string) : forall seq rows,
  keys_ok seq rows -> keys_ok (seq + len names) (seed_rows seq names rows).
Proof.
  induction names as [|name names IH]; intros seq rows Hok; simpl.
  - unfold len. simpl. by rewrite Z.add_0_r.
  - replace (seq + len (name :: names)) with (seq + 1 + len names)
      by (unfold len; simpl length; lia).
    apply IH. case_bool_decide.
    + apply keys_ok_mono with seq; [done | lia].
    + destruct Hok as [Hnd Hlt]. split.
      * rewrite fmap_app. apply NoDup_app. split; [done|].
        split; [|apply NoDup_singleton].
        intros x Hx. simpl. rewrite list_elem_of_singleton. intros ->.
        apply list_elem_of_fmap in Hx as (r & Hr & Hin).
        rewrite Forall_forall in Hlt. specialize (Hlt _ Hin). lia.
      * apply Forall_app. split.
        -- eapply Forall_impl; [exact Hlt|]. simpl. intros; lia.
        -- apply Forall_singleton. simpl. lia.
Qed.

Lemma seed_rows_keeps (names : list string) : forall seq rows name,
  name ∈ rows.*2 -> name ∈ (seed_rows seq names rows).*2.
Proof.
  induction names as [|n names IH]; intros seq rows name Hin; simpl; [done|].
  apply IH. case_bool_decide; [done|].
  rewrite fmap_app. apply elem_of_app. by left.
Qed.

Lemma seed_rows_present (names : list string) : forall seq rows name,
  name ∈ names -> name ∈ (seed_rows seq names rows).*2.
Proof.
  induction names as [|n names IH]; intros seq rows name Hin; simpl.
  - by apply elem_of_nil in Hin.
  - apply elem_of_cons in Hin as [->|Hin]; [|by apply IH].
    apply seed_rows_keeps. case_bool_decide; [done|].
    rewrite fmap_app. apply elem_of_app. right. simpl. by left.
Qed.

Lemma seed_rows_noop (names : list string) : forall seq rows,
  (forall name, name ∈ names -> name ∈ rows.*2) -> seed_rows seq names rows = rows.
Proof.
  induction names as [|n names IH]; intros seq rows Hin; simpl; [done|].
  rewrite bool_decide_eq_true_2 by (apply Hin; by left).
  apply IH. intros name Hn. apply Hin. by right.
Qed.

(** Seeding a second time adds nothing. *)
Lemma seed_rows_idempotent (names : list string) (seq seq' : Z) rows :
  seed_rows seq' names (seed_rows seq names rows) = seed_rows seq names rows.
Proof. apply seed_rows_noop. intros name Hn. by apply seed_rows_present. Qed.

(** Into an empty table the seeder puts the fixed values, once each and in
    their order. *)
Lemma seed_rows_empty (l : lookup_table) (seq : Z) :
  (seed_rows seq (enumeration l) []).*2 = enumeration l.
Proof. destruct l; reflexivity. Qed.

Lemma lookup_rows_set_lookup_rows (l l' : lookup_table) rs (T : Tables) :
  lookup_rows l' (set_lookup_rows l rs T) =
  if decide (l' = l) then rs else lookup_rows l' T.
Proof. by destruct l, l'. Qed.

Lemma run_INSERT_lookup (l : lookup_table) (name : string) seqs (T : Tables) :
  let '(r, seqs', T') := run (INSERT_lookup l name) seqs T in
  seqs' = nextval (enum l) seqs /\
  entity_tables T' = entity_tables T /\
  lookup_rows l T' = seed_rows (seqs (enum l)) [name] (lookup_rows l T) /\
  forall l', l' <> l -> lookup_rows l' T' = lookup_rows l' T.
Proof.
  simpl. split; [done|]. case_bool_decide.
  - by repeat split.
  - split; [done|]. split.
    + rewrite lookup_rows_set_lookup_rows. by rewrite decide_True.
    + intros l' Hl'. rewrite lookup_rows_set_lookup_rows. by rewrite decide_False.
Qed.

Lemma lookup_seeded_refl (l : lookup_table) (w : World) : lookup_seeded l [] w w.
Proof. split; try done. unfold len. simpl. lia. Qed.

Lemma lookup_seeded_store_ok (l : lookup_table) names (w w' : World) :
  lookup_seeded l names w w' -> store_ok (conn w) -> store_ok (conn w').
Proof.
  intros H Hok l'. destruct (Hok l') as [Hp Hc].
  rewrite (seeded_committed _ _ _ _ H).
  destruct (decide (l' = l)) as [->|Hne].
  - rewrite (seeded_rows _ _ _ _ H), (seeded_sequence _ _ _ _ H). split.
    + by apply keys_ok_seed.
    + apply keys_ok_mono with (sequences (conn w) (enum l)); [done|]. unfold len. lia.
  - destruct (seeded_others _ _ _ _ H l' Hne) as [-> ->]. done.
Qed.

Lemma wp_seed_lookup (l : lookup_table) (names : list string) (w : World) :
  wp (seed_lookup l names)
     (fun r w' =>
        exists added, lookup_seeded l added w w' /\
          (r = Ok tt -> added = names) /\
          (fault_free (conn w) -> r = Ok tt))
     w.
Proof.
  unfold seed_lookup. eapply wp_mono.
  { apply wp_for_each with
      (I := fun i (_ : unit) s => lookup_seeded l (take i names) w s)
      (E := fun _ s => (exists added, lookup_seeded l added w s) /\
                       ~ fault_free (conn w)).
    - apply lookup_seeded_refl.
    - intros i name [] s Hname Hs. apply wp_bind, wp_execute.
      + intros Hf. cbn [by_result]. split.
        * exists (take i names). by destruct Hs.
        * intros Hff. rewrite (seeded_fault _ _ _ _ Hs), Hff in Hf. done.
      + intros _. cbn [by_result]. apply wp_ret. cbn [by_result].
        pose proof (run_INSERT_lookup l name (sequences (conn s)) (pending (conn s))) as Hrun.
        destruct (run (INSERT_lookup l name) _ _) as [[r seqs'] T'].
        destruct Hrun as (-> & Hent & Hrows & Hothers).
        rewrite (take_S_r _ _ _ Hname).
        destruct Hs as [Hn Hfa Hre Hco Hen Hro Hse Hot]. split; simpl; try done.
        * congruence.
        * rewrite Hrows, seed_rows_app. congruence.
        * unfold nextval. rewrite decide_True by done.
          unfold len in *. rewrite length_app. simpl length. lia.
        * intros l' Hl'. rewrite (Hothers l' Hl'). unfold nextval.
          rewrite decide_False by congruence. by apply Hot. }
  intros [[]|e] w'; cbn [by_result].
  - intros H. exists (take (length names) names). split; [done|].
    split; [by rewrite firstn_all | done].
  - intros [[added H] Hnf]. exists added. split; [done|]. split; [done|]. done.
Qed.

Lemma populate_lookup_tables_spec (w : World) :
  wp populate_lookup_tables (lookups_populated w) w.
Proof.
  rewrite populate_lookup_tables_loops.
  apply wp_bind. eapply wp_mono; [apply wp_seed_lookup|].
  intros r1 w1 (a1 & H1 & Hok1 & Hff1).
  assert (Hfault1 : fault_free (conn w) -> fault_free (conn w1)).
  { intros Hff k s. rewrite (seeded_fault _ _ _ _ H1). apply Hff. }
  destruct r1 as [[]|e1]; cbn [by_result].
  2:{ split; try (by destruct H1); try done.
      intros Hs. by eapply lookup_seeded_store_ok. }
  rewrite (Hok1 eq_refl) in H1. clear Hok1 Hff1 a1.
  apply wp_bind. eapply wp_mono; [apply wp_seed_lookup|].
  intros r2 w2 (a2 & H2 & Hok2 & Hff2).
  assert (Hfault2 : fault_free (conn w) -> fault_free (conn w2)).
  { intros Hff k s. rewrite (seeded_fault _ _ _ _ H2). by apply Hfault1. }
  assert (Hstore2 : store_ok (conn w) -> store_ok (conn w2)).
  { intros Hs. eapply lookup_seeded_store_ok; [exact H2|].
    eapply lookup_seeded_store_ok; [exact H1|]. done. }
  destruct r2 as [[]|e2]; cbn [by_result].
  2:{ destruct H1, H2. split; try congruence; try done.
      intros Hff. apply Hff2. by apply Hfault1. }
  rewrite (Hok2 eq_refl) in H2. clear Hok2 Hff2 a2.
  apply wp_bind. eapply wp_mono; [apply wp_seed_lookup|].
  intros r3 w3 (a3 & H3 & Hok3 & Hff3).
  assert (Hstore3 : store_ok (conn w) -> store_ok (conn w3)).
  { intros Hs. eapply lookup_seeded_store_ok; [exact H3|]. by apply Hstore2. }
  destruct r3 as [[]|e3]; cbn [by_result].
  2:{ destruct H1, H2, H3. split; try congruence; try done.
      intros Hff. apply Hff3. by apply Hfault2. }
  rewrite (Hok3 eq_refl) in H3. clear Hok3 Hff3 a3.
  apply wp_commit.
  destruct H1 as [? ? ? ? ? R1 S1 O1], H2 as [? ? ? ? ? R2 S2 O2],
           H3 as [? ? ? ? ? R3 S3 O3].
  split; simpl; try congruence; try done.
  - intros Hs l. destruct (Hstore3 Hs l) as [Hp _]. done.
  - intros _. split; [done|]. intros l.
    destruct (O1 ContainerType ltac:(done)) as [E12 Q12].
    destruct (O1 BerthStatus ltac:(done)) as [E13 Q13].
    destruct (O2 ShipmentStatus ltac:(done)) as [E21 _].
    destruct (O2 BerthStatus ltac:(done)) as [E23 Q23].
    destruct (O3 ShipmentStatus ltac:(done)) as [E31 _].
    destruct (O3 ContainerType ltac:(done)) as [E32 _].
    destruct l; simpl enumeration.
    + rewrite E31, E21. exact R1.
    + rewrite E32, R2, Q12, E12. done.
    + rewrite R3, Q23, Q13, E23, E13. done.
Qed.

(** ** The reset *)

Lemma lookup_rows_truncate_cascade (t : table) (l : lookup_table) (T : Tables) :
  lookup_rows l (truncate_cascade t T) = lookup_rows l T \/
  lookup_rows l (truncate_cascade t T) = [].
Proof. destruct t as [| | | | |[]], l; simpl; auto. Qed.

Lemma resetting_refl (w : World) : resetting w w.
Proof. split; try done. by left. Qed.

Lemma resetting_tick (w s : World) :
  resetting w s -> resetting w (set_conn (tick (conn s)) s).
Proof. by intros []. Qed.

Lemma truncate_tables_spec (w : World) :
  wp truncate_tables (reset_done w) w.
Proof.
  assert (Hraise : forall e s, resetting w s -> reset_done w (Raise e) s).
  { intros e s [Hn Hf Hr Hc Hs Hl]. split; try done.
    intros Hok l. destruct (Hok l) as [Hp Hcm]. rewrite Hs, Hc. split; [|done].
    destruct (Hl l) as [->| ->]; [done|]. split; constructor. }
  unfold truncate_tables.
  apply wp_bind, wp_execute.
  { intros _. cbn [by_result]. apply Hraise, resetting_tick, resetting_refl. }
  intros _. cbn [by_result]. apply wp_bind. eapply wp_mono.
  { apply wp_for_each with
      (I := fun _ (_ : unit) s => resetting w s)
      (E := fun _ s => resetting w s).
    - simpl. by apply resetting_tick, resetting_refl.
    - intros i t [] s _ Hs. apply wp_try_except, wp_bind, wp_execute.
      + intros _. cbn [by_result]. apply wp_ret. cbn [by_result].
        by apply resetting_tick.
      + intros _. cbn [by_result]. apply wp_ret. cbn [by_result].
        destruct Hs as [Hn Hf Hr Hc Hsq Hl]. split; simpl; try done.
        intros l. destruct (lookup_rows_truncate_cascade t l (pending (conn s)))
          as [->| ->]; [apply Hl | by right]. }
  intros [[]|e] s; cbn [by_result]; [|apply Hraise].
  intros Hs. apply wp_bind, wp_execute.
  { intros _. cbn [by_result]. by apply Hraise, resetting_tick. }
  intros _. cbn [by_result]. apply wp_commit.
  destruct Hs as [Hn Hf Hr Hc Hsq Hl]. split; simpl; try done.
  intros Hok l. destruct (Hok l) as [Hp Hcm]. simpl. rewrite Hsq.
  destruct (Hl l) as [->| ->]; [done|]. split; split; constructor.
Qed.

(** ** Fetching and scraping *)

(** One call of [get_wikipedia_data] makes one request and never sleeps:
    a status 429 makes [raise_for_status] raise, so the test that follows
    it never sees one. *)
Lemma get_wikipedia_data_rec_once (depth : nat) (url : string) (n : Net) :
  get_wikipedia_data_rec (S depth) url n = (Ok (fetched url n), asked n).
Proof.
  unfold fetched. simpl.
  unfold try_except, mbind, M_bind, requests.get.
  destruct (server n (requests_made n) url) as [| |[status page]]; try done.
  unfold requests.raise_for_status. simpl.
  destruct ((400 <=? status) && (status <? 600)) eqn:Herr; [done|].
  simpl. destruct (Z.eqb_spec status 429) as [->|_]; [done|]. done.
Qed.

Lemma get_wikipedia_data_once (url : string) (n : Net) :
  get_wikipedia_data url n = (Ok (fetched url n), asked n).
Proof.
  unfold get_wikipedia_data, recursion_limit.
  change 1000%nat with (S 999). apply get_wikipedia_data_rec_once.
Qed.

Lemma scrape_shipping_companies_asked (n : Net) :
  exists companies, scrape_shipping_companies n = (Ok companies, asked n).
Proof.
  unfold scrape_shipping_companies, mbind, M_bind.
  rewrite get_wikipedia_data_once. by eexists.
Qed.

Lemma scrape_container_ports_asked (n : Net) :
  exists ports, scrape_container_ports n = (Ok ports, asked n).
Proof.
  unfold scrape_container_ports, mbind, M_bind.
  rewrite get_wikipedia_data_once. by eexists.
Qed.

(** Without content the port scraper returns the empty list. *)
Lemma scrape_container_ports_no_content (n : Net) :
  fetched "https://en.wikipedia.org/wiki/List_of_busiest_container_ports" n = None ->
  scrape_container_ports n = (Ok [], asked n).
Proof.
  intros H. unfold scrape_container_ports, mbind, M_bind.
  rewrite get_wikipedia_data_once, H. reflexivity.
Qed.

(** With a page that holds no table of the expected class it returns the
    fallback list. *)
Lemma scrape_container_ports_no_table (n : Net) (page : Content) :
  fetched "https://en.wikipedia.org/wiki/List_of_busiest_container_ports" n = Some page ->
  raw page <> "" -> wikitables page = [] ->
  scrape_container_ports n =
    (Ok ["Shanghai"; "Singapore"; "Ningbo-Zhoushan"; "Shenzhen"; "Guangzhou"], asked n).
Proof.
  intros H Hraw Htab. unfold scrape_container_ports, mbind, M_bind.
  rewrite get_wikipedia_data_once, H. unfold truthy.
  destruct (String.eqb_spec (raw page) "") as [|_]; [done|].
  rewrite Htab. reflexivity.
Qed.

(** The cleaning of a scraped port name. *)
Example clean_port_name :
  strip (before_paren (re_sub_bracketed is_word None " Ningbo-Zhoushan[a] (China)[12] ")) =
  "Ningbo-Zhoushan".
Proof. reflexivity. Qed.

Example re_sub_keeps_open_brackets :
  re_sub_bracketed is_digit None "Maersk[1] [x] [[2] [] [3" = "Maersk [x] [ [] [3".
Proof. reflexivity. Qed.

(** ** The entity stages together *)

Lemma named_ext (T T' : Tables) (l : lookup_table) name id :
  (forall l, lookup_rows l T' = lookup_rows l T) -> named T l name id -> named T' l name id.
Proof. unfold named. by intros ->. Qed.

Lemma berth_at_ext (T T' : Tables) vessel_ids i b :
  (forall l, lookup_rows l T' = lookup_rows l T) ->
  berth_at T vessel_ids i b -> berth_at T' vessel_ids i b.
Proof.
  intros H [Hnum Hst]. split; [done|].
  case_decide; destruct Hst; split; try done; by eapply named_ext.
Qed.

Lemma shipment_ok_ext (T T' : Tables) client_ids ports r :
  (forall l, lookup_rows l T' = lookup_rows l T) ->
  shipment_ok T client_ids ports r -> shipment_ok T' client_ids ports r.
Proof.
  intros H [? ? (name & ? & ?) ?]. split; try done.
  exists name. split; [done|]. by eapply named_ext.
Qed.

Lemma container_ok_ext (T T' : Tables) shipment_ids vessel_ids r :
  (forall l, lookup_rows l T' = lookup_rows l T) ->
  container_ok T shipment_ids vessel_ids r -> container_ok T' shipment_ids vessel_ids r.
Proof.
  intros H [? ? (name & ? & ?) ? ?]. split; try done.
  exists name. split; [done|]. by eapply named_ext.
Qed.

Lemma lookup_rows_add_rows (l : lookup_table) (T : Tables) (b : Batch) :
  lookup_rows l (add_rows T b) = lookup_rows l T.
Proof. by destruct l. Qed.

Lemma entity_phase_spec (w : World) :
  wp entity_phase (entities_seeded w) w.
Proof.
  unfold entity_phase.
  destruct (scrape_shipping_companies_asked (net w)) as [companies Hcompanies].
  destruct (scrape_container_ports_asked (asked (net w))) as [ports Hports].
  apply wp_bind, wp_web. rewrite Hcompanies. cbn [fst snd by_result].
  apply wp_bind. eapply wp_mono; [apply populate_clients_spec|].
  intros r1 w1 (cl & S1 & R1).
  pose proof (step_fault _ _ _ S1) as F1. pose proof (step_committed _ _ _ S1) as C1.
  pose proof (step_pending _ _ _ S1) as P1. pose proof (step_net _ _ _ S1) as N1.
  simpl in F1, C1, P1, N1.
  destruct r1 as [client_ids|e]; cbn [by_result]; [|by split].
  destruct (R1 _ eq_refl) as [-> Lcl]. clear R1.
  apply wp_bind, wp_web. rewrite N1, Hports. cbn [fst snd by_result].
  apply wp_bind. eapply wp_mono; [apply populate_vessels_spec|].
  intros r2 w2 (ve & S2 & R2).
  pose proof (step_fault _ _ _ S2) as F2. pose proof (step_committed _ _ _ S2) as C2.
  pose proof (step_pending _ _ _ S2) as P2.
  simpl in F2, C2, P2.
  destruct r2 as [vessel_ids|e]; cbn [by_result]; [|split; try done; congruence].
  destruct (R2 _ eq_refl) as (_ & Lve & -> & NDve). clear R2.
  apply wp_bind. eapply wp_mono; [apply populate_berths_spec|].
  intros r3 w3 (be & S3 & Rows3 & R3 & _).
  pose proof (step_fault _ _ _ S3) as F3. pose proof (step_committed _ _ _ S3) as C3.
  pose proof (step_pending _ _ _ S3) as P3.
  destruct r3 as [berth_ids|e]; cbn [by_result]; [|split; try done; congruence].
  destruct (R3 _ eq_refl) as [Lbe _]. clear R3.
  apply wp_bind. eapply wp_mono; [apply populate_shipments_spec|].
  intros r4 w4 (sh & S4 & Ok4 & R4).
  pose proof (step_fault _ _ _ S4) as F4. pose proof (step_committed _ _ _ S4) as C4.
  pose proof (step_pending _ _ _ S4) as P4.
  destruct r4 as [shipment_ids|e]; cbn [by_result]; [|split; try done; congruence].
  destruct (R4 _ eq_refl) as (-> & sgroups & Hsg & Gsh). clear R4.
  apply wp_bind. eapply wp_mono; [apply populate_containers_spec|].
  intros r5 w5 (co & S5 & Ok5 & R5).
  pose proof (step_fault _ _ _ S5) as F5. pose proof (step_committed _ _ _ S5) as C5.
  pose proof (step_pending _ _ _ S5) as P5.
  destruct r5 as [container_count|e]; cbn [by_result]; [|split; try done; congruence].
  destruct (R5 _ eq_refl) as (_ & cgroups & Hcg & Gco). clear R5.
  apply wp_commit.
  assert (L2 : forall l, lookup_rows l (pending (conn w2)) = lookup_rows l (pending (conn w))).
  { intros l. by rewrite P2, P1, !lookup_rows_add_rows. }
  assert (L3 : forall l, lookup_rows l (pending (conn w3)) = lookup_rows l (pending (conn w))).
  { intros l. by rewrite P3, lookup_rows_add_rows. }
  assert (L4 : forall l, lookup_rows l (pending (conn w4)) = lookup_rows l (pending (conn w))).
  { intros l. by rewrite P4, lookup_rows_add_rows. }
  split; simpl; [congruence | done |]. intros _.
  exists companies, ports,
    {| new_clients := cl; new_vessels := ve; new_berths := be; new_shipments := sh;
       new_containers := co |}, sgroups, cgroups.
  simpl. rewrite Hcompanies. simpl. rewrite Hports. simpl.
  split; [done|]. split; [done|]. split.
  { rewrite P5, P4, P3, P2, P1. unfold add_rows. simpl.
    by rewrite !app_nil_r. }
  split; [done|]. split; [rewrite Lve; unfold len; by rewrite length_fmap, Lcl|].
  split; [done|]. split; [done|]. split.
  { intros k bb Hk. eapply berth_at_ext; [|by apply Rows3].
    intros l. by rewrite L2. }
  split; [done|]. split; [done|]. split.
  { eapply Forall_impl; [exact Ok4|]. intros r. apply shipment_ok_ext.
    intros l. by rewrite L3. }
  split; [done|]. split; [done|].
  eapply Forall_impl; [exact Ok5|]. intros r. apply container_ok_ext.
  intros l. by rewrite L4.
Qed.

(** * The properties of the specification *)

(** Running a computation gives a result and a state. *)
Lemma run_result {S A} (m : M S A) (s : S) (r : result A) :
  (m s).1 = r -> m s = (r, (m s).2).
Proof. destruct (m s). simpl. by intros ->. Qed.

(** C4 (the script departs from the specification).  A first answer 429 followed by
    good answers: [get_wikipedia_data] returns [None] after a single
    request and without any back-off delay, although a second request
    would have brought the page. *)
Theorem get_wikipedia_data_rate_limited :
  let url := "https://en.wikipedia.org/wiki/List_of_busiest_container_ports" in
  let run := get_wikipedia_data url rate_limited_once in
  run.1 = Ok None /\
  requests_made run.2 = 1%nat /\
  slept run.2 = 0 /\
  (get_wikipedia_data url run.2).1 = Ok (Some page_without_table).
Proof. repeat split. Qed.

(** The fetch helper ends on every sequence of answers, after exactly one
    request and no delay. *)
Lemma get_wikipedia_data_single_request (url : string) (n : Net) :
  exists content n',
    get_wikipedia_data url n = (Ok content, n') /\
    requests_made n' = S (requests_made n) /\ slept n' = slept n.
Proof. rewrite get_wikipedia_data_once. by eexists _, _. Qed.

(** C3 (the script departs from the specification).  Against an endpoint that cannot
    be reached the port scraper returns the empty list, not the fallback
    list. *)
Theorem scrape_container_ports_unreachable :
  (scrape_container_ports unreachable_web).1 = Ok [].
Proof. reflexivity. Qed.

(** Every failure to retrieve the page has the same outcome. *)
Lemma scrape_container_ports_retrieval_failure (n : Net) :
  (match server n (requests_made n)
           "https://en.wikipedia.org/wiki/List_of_busiest_container_ports" with
   | Answer response => 400 <= status_code response < 600
   | ConnectionError | Timeout => True
   end) ->
  scrape_container_ports n = (Ok [], asked n).
Proof.
  intros H. apply scrape_container_ports_no_content. unfold fetched.
  destruct (server n _ _) as [| |response]; try done.
  destruct (Z.leb_spec 400 (status_code response)); [|lia].
  destruct (Z.ltb_spec (status_code response) 600); [done | lia].
Qed.

(** C7.  In a store that answers every statement the lookup seeder can be
    run twice in a row: both runs succeed, the second one leaves the rows
    of the three lookup tables as the first one made them, and on tables
    that were empty the first run leaves exactly the fixed values, 5
    shipment statuses, 4 container types and 3 berth statuses, once each. *)
Theorem populate_lookup_tables_idempotent (w : World) :
  fault_free (conn w) ->
  exists w1 w2,
    populate_lookup_tables w = (Ok tt, w1) /\
    populate_lookup_tables w1 = (Ok tt, w2) /\
    (forall l, lookup_rows l (committed (conn w2)) = lookup_rows l (committed (conn w1))) /\
    (forall l, lookup_rows l (pending (conn w)) = [] ->
       (lookup_rows l (committed (conn w1))).*2 = enumeration l /\
       (lookup_rows l (committed (conn w2))).*2 = enumeration l) /\
    length (enumeration ShipmentStatus) = 5%nat /\
    length (enumeration ContainerType) = 4%nat /\
    length (enumeration BerthStatus) = 3%nat.
Proof.
  intros Hff.
  pose proof (populate_lookup_tables_spec w) as H1. unfold wp in H1.
  destruct (populate_lookup_tables w) as [r1 w1] eqn:E1. simpl in H1.
  pose proof (populated_fault_free _ _ _ H1 Hff) as ->.
  destruct (populated_ok _ _ _ H1 eq_refl) as [C1 R1].
  assert (Hff1 : fault_free (conn w1)).
  { intros k s. rewrite (populated_fault _ _ _ H1). apply Hff. }
  pose proof (populate_lookup_tables_spec w1) as H2. unfold wp in H2.
  destruct (populate_lookup_tables w1) as [r2 w2] eqn:E2. simpl in H2.
  pose proof (populated_fault_free _ _ _ H2 Hff1) as ->.
  destruct (populated_ok _ _ _ H2 eq_refl) as [C2 R2].
  assert (Hsame : forall l, lookup_rows l (committed (conn w2)) =
                            lookup_rows l (committed (conn w1))).
  { intros l. rewrite C2, C1, R2, R1. apply seed_rows_idempotent. }
  exists w1, w2. split; [done|]. split; [done|]. split; [done|].
  split; [|done]. intros l Hempty.
  rewrite Hsame, C1, R1, Hempty. split; apply seed_rows_empty.
Qed.

Lemma fresh_connection_fault_free : fault_free fresh_connection.
Proof. by intros k s. Qed.

Lemma populate_lookup_tables_idempotent_witness :
  fault_free (conn fallback_world) /\
  exists w1 w2,
    populate_lookup_tables fallback_world = (Ok tt, w1) /\
    populate_lookup_tables w1 = (Ok tt, w2) /\
    (forall l, lookup_rows l (committed (conn w2)) = lookup_rows l (committed (conn w1))) /\
    (forall l, lookup_rows l (pending (conn fallback_world)) = [] ->
       (lookup_rows l (committed (conn w1))).*2 = enumeration l /\
       (lookup_rows l (committed (conn w2))).*2 = enumeration l) /\
    length (enumeration ShipmentStatus) = 5%nat /\
    length (enumeration ContainerType) = 4%nat /\
    length (enumeration BerthStatus) = 3%nat.
Proof.
  split; [exact fresh_connection_fault_free|].
  apply (populate_lookup_tables_idempotent fallback_world).
  exact fresh_connection_fault_free.
Defined.

Lemma named_functional (T : Tables) (l : lookup_table) (seq : Z) name1 name2 id :
  keys_ok seq (lookup_rows l T) ->
  named T l name1 id -> named T l name2 id -> name1 = name2.
Proof.
  unfold named. intros [Hnd _]. generalize dependent (lookup_rows l T).
  intros rows Hnd H1 H2. induction rows as [|[id' name'] rows IH]; [by apply elem_of_nil in H1|].
  simpl in Hnd. apply NoDup_cons in Hnd as [Hnotin Hnd].
  apply elem_of_cons in H1 as [H1|H1]; apply elem_of_cons in H2 as [H2|H2];
    simplify_eq.
  - done.
  - exfalso. apply Hnotin. apply list_elem_of_fmap. by exists (id', name2).
  - exfalso. apply Hnotin. apply list_elem_of_fmap. by exists (id', name1).
  - by apply IH.
Qed.

(** The rows a stage adds to its table, read off an [entity_step]. *)
Lemma entity_step_shipment_rows (sh : list shipment_row) (w w' : World) :
  entity_step (only_shipments sh) w w' ->
  shipment_rows (pending (conn w')) = shipment_rows (pending (conn w)) ++ sh.
Proof. intros H. by rewrite (step_pending _ _ _ H). Qed.

Lemma entity_step_container_rows (co : list container_row) (w w' : World) :
  entity_step (only_containers co) w w' ->
  container_rows (pending (conn w')) = container_rows (pending (conn w)) ++ co.
Proof. intros H. by rewrite (step_pending _ _ _ H). Qed.

Lemma entity_step_berth_rows (be : list berth_row) (w w' : World) :
  entity_step (only_berths be) w w' ->
  berth_rows (pending (conn w')) = berth_rows (pending (conn w)) ++ be.
Proof. intros H. by rewrite (step_pending _ _ _ H). Qed.

(** C9.  Whatever happens in the shipment stage, each row it adds to
    [shipment] carries the id of one of PENDING, IN_TRANSIT,
    AWAITING_CUSTOMS and CLEARED in the ShipmentStatus table, and, ids
    being distinct in that table, never the id of DELIVERED. *)
Theorem populate_shipments_never_delivered (w : World)
    (client_ids : list Z) (ports : list string) :
  store_ok (conn w) ->
  let w' := (populate_shipments client_ids ports w).2 in
  exists sh,
    shipment_rows (pending (conn w')) = shipment_rows (pending (conn w)) ++ sh /\
    Forall (fun r =>
              (exists name,
                 name ∈ ["PENDING"; "IN_TRANSIT"; "AWAITING_CUSTOMS"; "CLEARED"] /\
                 named (pending (conn w)) ShipmentStatus name (shipment_status_id r)) /\
              ~ named (pending (conn w)) ShipmentStatus "DELIVERED" (shipment_status_id r))
           sh.
Proof.
  intros Hstore w'.
  destruct (populate_shipments_spec client_ids ports w) as (sh & Hstep & Hok & _).
  exists sh. split; [by apply entity_step_shipment_rows|].
  eapply Forall_impl; [exact Hok|]. intros r [_ _ (name & Hname & Hnamed) _].
  split; [by exists name|].
  intros Hdel. destruct (Hstore ShipmentStatus) as [Hkeys _].
  pose proof (named_functional _ _ _ _ _ _ Hkeys Hnamed Hdel) as ->.
  apply list_elem_of_In in Hname. simpl in Hname. intuition discriminate.
Qed.

(** The store of [seeded_world] is in order. *)
Lemma fresh_connection_store_ok : store_ok fresh_connection.
Proof. intros l. destruct l; repeat split; constructor. Qed.

Lemma seeded_world_store_ok : store_ok (conn seeded_world).
Proof.
  pose proof (populate_lookup_tables_spec fallback_world) as H. unfold wp in H.
  apply (populated_store_ok _ _ _ H). exact fresh_connection_store_ok.
Qed.

Lemma populate_shipments_never_delivered_witness :
  store_ok (conn seeded_world) /\
  let w' := (populate_shipments [1; 2] ["Shanghai"; "Singapore"; "Shenzhen"]
               seeded_world).2 in
  exists sh,
    shipment_rows (pending (conn w')) =
    shipment_rows (pending (conn seeded_world)) ++ sh /\
    Forall (fun r =>
              (exists name,
                 name ∈ ["PENDING"; "IN_TRANSIT"; "AWAITING_CUSTOMS"; "CLEARED"] /\
                 named (pending (conn seeded_world)) ShipmentStatus name
                       (shipment_status_id r)) /\
              ~ named (pending (conn seeded_world)) ShipmentStatus "DELIVERED"
                      (shipment_status_id r))
           sh.
Proof.
  split; [exact seeded_world_store_ok|].
  apply (populate_shipments_never_delivered seeded_world [1; 2]
           ["Shanghai"; "Singapore"; "Shenzhen"] seeded_world_store_ok).
Defined.

(** C10.  Whatever happens in the container stage, each row it adds to
    [container] has a null vessel reference exactly when the list of
    vessel ids is empty, and otherwise refers to a vessel of that list. *)
Theorem populate_containers_vessel_reference (w : World)
    (shipment_ids vessel_ids : list Z) :
  let w' := (populate_containers shipment_ids vessel_ids w).2 in
  exists co,
    container_rows (pending (conn w')) = container_rows (pending (conn w)) ++ co /\
    Forall (fun r =>
              (container_vessel_id r = None <-> vessel_ids = []) /\
              (forall v, container_vessel_id r = Some v -> v ∈ vessel_ids))
           co.
Proof.
  intros w'.
  destruct (populate_containers_spec shipment_ids vessel_ids w) as (co & Hstep & Hok & _).
  exists co. split; [by apply entity_step_container_rows|].
  eapply Forall_impl; [exact Hok|]. intros r [_ Hv _ _ _].
  destruct (container_vessel_id r) as [v|].
  - split; [|by intros ? [= <-]]. split; [done|].
    intros ->. by apply elem_of_nil in Hv.
  - split; [done|]. done.
Qed.

(** Two runs of the container stage, without and with vessels. *)
Example containers_without_vessels :
  let rows := container_rows (pending (conn (populate_containers [7] [] seeded_world).2)) in
  rows <> [] /\ Forall (fun r => container_vessel_id r = None) rows.
Proof. vm_compute. split; [discriminate | repeat constructor]. Qed.

Example containers_with_vessels :
  let rows := container_rows (pending (conn (populate_containers [7] [3; 4] seeded_world).2)) in
  rows <> [] /\ Forall (fun r => container_vessel_id r = Some 3 \/ container_vessel_id r = Some 4) rows.
Proof.
  vm_compute. split; [discriminate|].
  repeat (constructor; [first [by left | by right]|]). constructor.
Qed.

(** Whatever happens in the shipment stage, origin and destination of
    each row it adds to [shipment] are the names at two different
    positions of the port list; they are different names when no name
    occurs twice in that list. *)
Theorem populate_shipments_distinct_positions (w : World)
    (client_ids : list Z) (ports : list string) :
  let w' := (populate_shipments client_ids ports w).2 in
  exists sh,
    shipment_rows (pending (conn w')) = shipment_rows (pending (conn w)) ++ sh /\
    Forall (fun r => exists i j : nat,
              i <> j /\ ports !! i = Some (origin r) /\ ports !! j = Some (destination r))
           sh /\
    (NoDup ports -> Forall (fun r => origin r <> destination r) sh).
Proof.
  intros w'.
  destruct (populate_shipments_spec client_ids ports w) as (sh & Hstep & Hok & _).
  exists sh. split; [by apply entity_step_shipment_rows|]. split.
  - eapply Forall_impl; [exact Hok|]. by intros r [_ ? _ _].
  - intros Hnd. eapply Forall_impl; [exact Hok|].
    intros r [_ (i & j & Hij & Hi & Hj) _ _] Heq. apply Hij.
    rewrite <- Heq in Hj. by eapply NoDup_lookup.
Qed.

Lemma populate_shipments_distinct_positions_witness :
  NoDup ["Shanghai"; "Singapore"; "Shenzhen"] /\
  let w' := (populate_shipments [1; 2] ["Shanghai"; "Singapore"; "Shenzhen"]
               seeded_world).2 in
  exists sh,
    shipment_rows (pending (conn w')) =
    shipment_rows (pending (conn seeded_world)) ++ sh /\
    Forall (fun r => origin r <> destination r) sh.
Proof.
  assert (Hnd : NoDup ["Shanghai"; "Singapore"; "Shenzhen"]).
  { apply (bool_decide_unpack _). vm_compute. exact I. }
  split; [exact Hnd|]. intros w'.
  destruct (populate_shipments_distinct_positions seeded_world [1; 2]
              ["Shanghai"; "Singapore"; "Shenzhen"]) as (sh & Hrows & _ & Hdistinct).
  exists sh. split; [exact Hrows | exact (Hdistinct Hnd)].
Defined.

(** C5.  The shipment stage asks for two different ports (a sample of
    two with [unique=True], unpacked into origin and destination), but
    nothing removes a port that the scraped list holds twice: on a page
    that lists Shanghai in two rows the port list is Shanghai, Shanghai,
    the run completes, and it commits a shipment whose origin is its
    destination. *)
Theorem repeated_port_same_origin_and_destination :
  (scrape_container_ports (asked (net repeated_port_world))).1 =
    Ok ["Shanghai"; "Shanghai"] /\
  (main_try repeated_port_world).1 = Ok tt /\
  exists r, r ∈ shipment_rows (committed (conn (main repeated_port_world))) /\
            origin r = destination r.
Proof.
  split; [by vm_compute|]. split; [by vm_compute|].
  eexists. split.
  - apply list_elem_of_lookup_2 with 0%nat. vm_compute. reflexivity.
  - reflexivity.
Qed.


(** ** Counting the rows of a prefix *)

Lemma filter_length_prefix {A} (P : A -> Prop) `{forall x, Decision (P x)}
    (l : list A) (n : nat) :
  (forall k x, l !! k = Some x -> (P x <-> (k < n)%nat)) ->
  length (filter P l) = Nat.min (length l) n.
Proof.
  induction l as [|x l IH] using rev_ind; intros Hl; [done|].
  rewrite filter_app, !length_app. simpl length.
  rewrite IH.
  2:{ intros k y Hk. apply Hl. apply lookup_app_l_Some. exact Hk. }
  assert (Hx : P x <-> (length l < n)%nat).
  { apply Hl. rewrite lookup_app_r by lia. by rewrite Nat.sub_diag. }
  rewrite filter_cons, filter_nil.
  case_decide as HP; [apply Hx in HP | rewrite Hx in HP]; simpl length; lia.
Qed.

Lemma filter_length_suffix {A} (P : A -> Prop) `{forall x, Decision (P x)}
    (l : list A) (n : nat) :
  (forall k x, l !! k = Some x -> (P x <-> (n <= k)%nat)) ->
  length (filter P l) = (length l - Nat.min (length l) n)%nat.
Proof.
  induction l as [|x l IH] using rev_ind; intros Hl; [done|].
  rewrite filter_app, !length_app. simpl length.
  rewrite IH.
  2:{ intros k y Hk. apply Hl. apply lookup_app_l_Some. exact Hk. }
  assert (Hx : P x <-> (n <= length l)%nat).
  { apply Hl. rewrite lookup_app_r by lia. by rewrite Nat.sub_diag. }
  rewrite filter_cons, filter_nil.
  case_decide as HP; [apply Hx in HP | rewrite Hx in HP]; simpl length; lia.
Qed.

Lemma berth_numbers_formatted :
  (fun k : nat => "B" +:+ Py.rjust 3 "0" (Py.str (1 + Z.of_nat k))) <$> seq 0 20 =
  berth_numbers.
Proof. reflexivity. Qed.

(** Twenty rows, numbered by their position. *)
Lemma berth_numbers_of_rows (T : Tables) (vessel_ids : list Z) (be : list berth_row) :
  length be = 20%nat ->
  (forall (k : nat) b, be !! k = Some b -> berth_at T vessel_ids (1 + Z.of_nat k) b) ->
  berth_number <$> be = berth_numbers.
Proof.
  intros Hlen Hrows. rewrite <- berth_numbers_formatted.
  apply list_eq. intros k. rewrite !list_lookup_fmap.
  destruct (be !! k) as [b|] eqn:Hk.
  - pose proof (lookup_lt_Some _ _ _ Hk) as Hlt.
    rewrite lookup_seq_lt by lia. simpl.
    destruct (Hrows k b Hk) as [-> _]. done.
  - apply lookup_ge_None in Hk. rewrite lookup_seq_ge by lia. done.
Qed.

(** Which of the rows entered by the berth stage are OCCUPIED. *)
Lemma berth_at_occupied (T T' : Tables) (seq : Z) (vessel_ids : list Z) (k : nat) b :
  keys_ok seq (lookup_rows BerthStatus T) ->
  (forall l, lookup_rows l T' = lookup_rows l T) ->
  berth_at T vessel_ids (1 + Z.of_nat k) b ->
  (berth_has_status T' "OCCUPIED" b <-> (k < length vessel_ids)%nat) /\
  (berth_has_status T' "AVAILABLE" b <-> (length vessel_ids <= k)%nat) /\
  ((k < length vessel_ids)%nat -> berth_vessel_id b = vessel_ids !! k) /\
  ((length vessel_ids <= k)%nat -> berth_vessel_id b = None).
Proof.
  intros Hkeys Hsame [_ Hat]. unfold berth_has_status, named, len in *.
  rewrite Hsame.
  assert (Hne : forall n1 n2, n1 <> n2 ->
            (berth_status_id b, n1) ∈ lookup_rows BerthStatus T ->
            ~ (berth_status_id b, n2) ∈ lookup_rows BerthStatus T).
  { intros n1 n2 Hn H1 H2. apply Hn.
    by eapply (named_functional T BerthStatus seq n1 n2). }
  case_decide as Hk; destruct Hat as [Hst Hv].
  - split; [split; [lia | done]|]. split; [split; [|lia]|].
    + intros Hav. exfalso. by apply (Hne "OCCUPIED" "AVAILABLE").
    + split; [|lia]. intros _. rewrite Hv. f_equal. lia.
  - split; [split; [|lia]|]. 
    + intros Hocc. exfalso. by apply (Hne "AVAILABLE" "OCCUPIED").
    + split; [split; [lia | done]|]. split; [lia | done].
Qed.

(** C6.  In a store that answers every statement and whose BerthStatus
    table holds OCCUPIED and AVAILABLE, the berth stage, run on the ids the
    vessel stage returned, adds exactly 20 rows to [berth], numbered B001
    to B020 in this order; the k-th of them is OCCUPIED if and only if k is
    at most the number of vessels and then refers to the k-th vessel, and
    is AVAILABLE with a null vessel reference otherwise; so min(20, number
    of vessels) berths are OCCUPIED, and no two OCCUPIED berths refer to
    the same vessel. *)
Theorem populate_berths_twenty (w w1 : World) (client_count : Z) (vessel_ids : list Z) :
  fault_free (conn w) ->
  store_ok (conn w) ->
  "OCCUPIED" ∈ (BerthStatus_rows (pending (conn w))).*2 ->
  "AVAILABLE" ∈ (BerthStatus_rows (pending (conn w))).*2 ->
  populate_vessels client_count w = (Ok vessel_ids, w1) ->
  exists (berth_ids : list Z) (w2 : World) (be : list berth_row),
    populate_berths vessel_ids w1 = (Ok berth_ids, w2) /\
    berth_rows (pending (conn w2)) = berth_rows (pending (conn w1)) ++ be /\
    length be = 20%nat /\
    berth_number <$> be = berth_numbers /\
    (forall (k : nat) b, be !! k = Some b ->
       (berth_has_status (pending (conn w2)) "OCCUPIED" b <->
          1 + Z.of_nat k <= len vessel_ids) /\
       (berth_has_status (pending (conn w2)) "OCCUPIED" b ->
          berth_vessel_id b = vessel_ids !! k /\ is_Some (berth_vessel_id b)) /\
       (~ berth_has_status (pending (conn w2)) "OCCUPIED" b ->
          berth_has_status (pending (conn w2)) "AVAILABLE" b /\
          berth_vessel_id b = None)) /\
    len (filter (berth_has_status (pending (conn w2)) "OCCUPIED") be) =
      Z.min 20 (len vessel_ids) /\
    (forall (k1 k2 : nat) b1 b2,
       be !! k1 = Some b1 -> be !! k2 = Some b2 ->
       berth_has_status (pending (conn w2)) "OCCUPIED" b1 ->
       berth_has_status (pending (conn w2)) "OCCUPIED" b2 ->
       berth_vessel_id b1 = berth_vessel_id b2 -> k1 = k2).
Proof.
  intros Hff Hstore Hocc Hav Hvessels.
  pose proof (populate_vessels_spec client_count w) as Hv. unfold wp in Hv.
  rewrite Hvessels in Hv. destruct Hv as (ve & S1 & R1).
  destruct (R1 _ eq_refl) as (_ & _ & _ & Hnd). clear R1.
  assert (L1 : forall l, lookup_rows l (pending (conn w1)) = lookup_rows l (pending (conn w))).
  { intros l. by apply (entity_step_lookup_rows _ _ _ l S1). }
  pose proof (populate_berths_spec vessel_ids w1) as Hb. unfold wp in Hb.
  destruct (populate_berths vessel_ids w1) as [r w2] eqn:Hrun.
  destruct Hb as (be & S2 & Hrows & R2 & Hok).
  assert (His : is_ok r).
  { pose proof (L1 BerthStatus) as LB. simpl in LB. apply Hok.
    - by apply (entity_step_fault_free _ _ _ S1).
    - by rewrite LB.
    - by rewrite LB. }
  destruct r as [berth_ids|e]; [|done].
  destruct (R2 _ eq_refl) as [Hlen _]. clear R2 His Hok.
  assert (L2 : forall l, lookup_rows l (pending (conn w2)) = lookup_rows l (pending (conn w1))).
  { intros l. by apply (entity_step_lookup_rows _ _ _ l S2). }
  assert (Hkeys : keys_ok (sequences (conn w) (enum BerthStatus))
                          (lookup_rows BerthStatus (pending (conn w1)))).
  { rewrite L1. by destruct (Hstore BerthStatus). }
  assert (Hat : forall (k : nat) b, be !! k = Some b ->
    (berth_has_status (pending (conn w2)) "OCCUPIED" b <-> (k < length vessel_ids)%nat) /\
    (berth_has_status (pending (conn w2)) "AVAILABLE" b <-> (length vessel_ids <= k)%nat) /\
    ((k < length vessel_ids)%nat -> berth_vessel_id b = vessel_ids !! k) /\
    ((length vessel_ids <= k)%nat -> berth_vessel_id b = None)).
  { intros k b Hk. eapply berth_at_occupied; [exact Hkeys | exact L2 | by apply Hrows]. }
  exists berth_ids, w2, be.
  split; [done|]. split; [by apply entity_step_berth_rows|]. split; [done|].
  split; [by eapply berth_numbers_of_rows|]. split; [|split].
  - intros k b Hk. destruct (Hat k b Hk) as (Ho & Ha & Hsome & Hnone).
    split; [rewrite Ho; unfold len; lia|]. split.
    + intros Hb. apply Ho in Hb. rewrite (Hsome Hb). split; [done|].
      by apply lookup_lt_is_Some_2.
    + intros Hb. rewrite Ho in Hb. split; [apply Ha; lia | apply Hnone; lia].
  - unfold len. rewrite (filter_length_prefix _ be (length vessel_ids)).
    + rewrite Hlen. lia.
    + intros k b Hk. by destruct (Hat k b Hk) as (Ho & _).
  - intros k1 k2 b1 b2 Hk1 Hk2 Ho1 Ho2 Heq.
    destruct (Hat k1 b1 Hk1) as (Hi1 & _ & Hs1 & _).
    destruct (Hat k2 b2 Hk2) as (Hi2 & _ & Hs2 & _).
    apply Hi1 in Ho1. apply Hi2 in Ho2.
    rewrite (Hs1 Ho1), (Hs2 Ho2) in Heq.
    destruct (lookup_lt_is_Some_2 vessel_ids k1 Ho1) as [v Hv1].
    rewrite Hv1 in Heq. symmetry in Heq.
    by eapply NoDup_lookup.
Qed.

Lemma seeded_world_fault_free : fault_free (conn seeded_world).
Proof. by intros k s. Qed.

Lemma populate_berths_twenty_witness :
  exists (vessel_ids berth_ids : list Z) (w1 w2 : World) (be : list berth_row),
    populate_vessels 6 seeded_world = (Ok vessel_ids, w1) /\
    len vessel_ids = 18 /\
    populate_berths vessel_ids w1 = (Ok berth_ids, w2) /\
    berth_rows (pending (conn w2)) = berth_rows (pending (conn w1)) ++ be /\
    berth_number <$> be = berth_numbers /\
    len (filter (berth_has_status (pending (conn w2)) "OCCUPIED") be) = 18.
Proof.
  assert (Hocc : "OCCUPIED" ∈ (BerthStatus_rows (pending (conn seeded_world))).*2).
  { apply (bool_decide_unpack _). vm_compute. exact I. }
  assert (Hav : "AVAILABLE" ∈ (BerthStatus_rows (pending (conn seeded_world))).*2).
  { apply (bool_decide_unpack _). vm_compute. exact I. }
  destruct (populate_vessels 6 seeded_world) as [r w1] eqn:Hrun.
  assert (Hr : r = (populate_vessels 6 seeded_world).1) by (by rewrite Hrun).
  vm_compute in Hr. subst r.
  destruct (populate_berths_twenty seeded_world w1 6 _
              seeded_world_fault_free seeded_world_store_ok Hocc Hav Hrun)
    as (berth_ids & w2 & be & H1 & H2 & H3 & H4 & H5 & H6 & H7).
  eexists _, berth_ids, w1, w2, be.
  split; [reflexivity|]. split; [reflexivity|]. split; [exact H1|].
  split; [exact H2|]. split; [exact H4|]. rewrite H6. reflexivity.
Defined.

(** ** The whole run *)

(** What a run leaves committed is what its [try] block had committed. *)
Lemma main_committed (w : World) :
  reachable (conn w) = true ->
  committed (conn (main w)) = committed (conn (main_try w).2).
Proof.
  intros Hr. unfold main, try_except. rewrite Hr.
  by destruct (main_try w) as [[[]|e] w1].
Qed.

(** The three phases of the [try] block. *)
Lemma main_try_cases (w : World) :
  exists r0 w0, truncate_tables w = (r0, w0) /\ reset_done w r0 w0 /\
    match r0 with
    | Raise e => main_try w = (Raise e, w0)
    | Ok _ =>
        exists r1 wl, populate_lookup_tables w0 = (r1, wl) /\
          lookups_populated w0 r1 wl /\
          match r1 with
          | Raise e => main_try w = (Raise e, wl)
          | Ok _ =>
              exists r2 w1, main_try w = (r2, w1) /\ entities_seeded wl r2 w1
          end
    end.
Proof.
  rewrite main_try_phases. unfold mbind, M_bind.
  pose proof (truncate_tables_spec w) as H0. unfold wp in H0.
  destruct (truncate_tables w) as [r0 w0]. simpl in H0.
  exists r0, w0. split; [done|]. split; [done|].
  destruct r0 as [[]|e]; [|done].
  pose proof (populate_lookup_tables_spec w0) as H1. unfold wp in H1.
  destruct (populate_lookup_tables w0) as [r1 wl]. simpl in H1.
  exists r1, wl. split; [done|]. split; [done|].
  destruct r1 as [[]|e]; [|done].
  pose proof (entity_phase_spec wl) as H2. unfold wp in H2.
  destruct (entity_phase wl) as [r2 w1]. simpl in H2.
  by exists r2, w1.
Qed.




Lemma shipments_of_client_total (client_ids : list Z) groups :
  Forall2 shipments_of_client client_ids groups ->
  2 * len client_ids <= len (concat groups) <= 5 * len client_ids.
Proof. intros H. eapply grouped_length; [exact H|]. by intros key g [? _]. Qed.

Lemma containers_of_shipment_total (shipment_ids : list Z) groups :
  Forall2 containers_of_shipment shipment_ids groups ->
  1 * len shipment_ids <= len (concat groups) <= 4 * len shipment_ids.
Proof. intros H. eapply grouped_length; [exact H|]. by intros key g [? _]. Qed.

(** C8.  A run whose name resolution yields 6 company names and 5 port
    names and whose [try] block completes adds to what the reset left
    exactly 6 clients, 18 vessels and 20 berths, of which 18 are OCCUPIED
    and 2 AVAILABLE, between 2 and 5 shipments for each client, hence
    between 12 and 30 shipments, and between 1 and 4 containers for each
    shipment, hence between s and 4 s containers for s shipments. *)
Theorem main_seeds_expected_counts (w w1 : World) (companies ports : list string) :
  reachable (conn w) = true ->
  store_ok (conn w) ->
  (scrape_shipping_companies (net w)).1 = Ok companies ->
  length companies = 6%nat ->
  (scrape_container_ports (scrape_shipping_companies (net w)).2).1 = Ok ports ->
  length ports = 5%nat ->
  main_try w = (Ok tt, w1) ->
  let reset := committed (conn (truncate_tables w).2) in
  let final := committed (conn (main w)) in
  exists cl ve be sh co,
    client_rows final = client_rows reset ++ cl /\
    vessel_rows final = vessel_rows reset ++ ve /\
    berth_rows final = berth_rows reset ++ be /\
    shipment_rows final = shipment_rows reset ++ sh /\
    container_rows final = container_rows reset ++ co /\
    length cl = 6%nat /\
    length ve = 18%nat /\
    length be = 20%nat /\
    length (filter (berth_has_status final "OCCUPIED") be) = 18%nat /\
    length (filter (berth_has_status final "AVAILABLE") be) = 2%nat /\
    12 <= len sh <= 30 /\
    len sh <= len co <= 4 * len sh /\
    (exists groups, sh = concat groups /\
       Forall2 shipments_of_client (client_id <$> cl) groups) /\
    (exists groups, co = concat groups /\
       Forall2 containers_of_shipment (shipment_id <$> sh) groups).
Proof.
  intros Hreach Hstore Hcompanies Lcompanies Hports Lports Hrun reset final.
  unfold reset, final. clear reset final.
  rewrite (main_committed w Hreach), Hrun. simpl.
  destruct (main_try_cases w) as (r0 & w0 & E0 & H0 & Hcases).
  rewrite E0. simpl.
  destruct r0 as [[]|e0]; [|by rewrite Hrun in Hcases].
  destruct Hcases as (r1 & wl & E1 & H1 & Hcases).
  destruct r1 as [[]|e1]; [|by rewrite Hrun in Hcases].
  destruct Hcases as (r2 & w1' & E2 & H2).
  rewrite Hrun in E2. injection E2 as <- <-.
  destruct (phase_ok _ _ _ H2 eq_refl)
    as (companies' & ports' & b & sgroups & cgroups & Hc' & Hp' & Hcommitted & Lcl & Lve &
        _ & Lbe & Hberths & Hsh & Gsh & _ & Hco & Gco & _).
  rewrite (populated_net _ _ _ H1), (reset_net _ _ _ H0) in Hc', Hp'.
  rewrite Hcompanies in Hc'. injection Hc' as <-.
  clear Hp' ports' Hports Lports.
  destruct (populated_ok _ _ _ H1 eq_refl) as [C1 _].
  pose proof (populated_entities _ _ _ H1) as Hent.
  rewrite <- (reset_ok _ _ _ H0 eq_refl) in Hent.
  unfold entity_tables in Hent. injection Hent as Ecl Eve Ebe Esh Eco.
  assert (Lve' : length (new_vessels b) = 18%nat).
  { rewrite Lve. unfold len. rewrite Lcompanies. reflexivity. }
  assert (Hkeys : keys_ok (sequences (conn wl) (enum BerthStatus))
                          (lookup_rows BerthStatus (pending (conn wl)))).
  { apply (reset_store_ok _ _ _ H0), (populated_store_ok _ _ _ H1) in Hstore.
    by destruct (Hstore BerthStatus). }
  assert (Hat : forall (k : nat) bb, new_berths b !! k = Some bb ->
    (berth_has_status (committed (conn w1)) "OCCUPIED" bb <-> (k < 18)%nat) /\
    (berth_has_status (committed (conn w1)) "AVAILABLE" bb <-> (18 <= k)%nat)).
  { intros k bb Hk.
    destruct (berth_at_occupied (pending (conn wl)) (committed (conn w1)) _
                (vessel_id <$> new_vessels b) k bb Hkeys)
      as (Ho & Ha & _).
    - intros l. rewrite Hcommitted. apply lookup_rows_add_rows.
    - by apply Hberths.
    - rewrite length_fmap, Lve' in Ho, Ha. done. }
  pose proof (shipments_of_client_total _ _ Gsh) as Tsh.
  pose proof (containers_of_shipment_total _ _ Gco) as Tco.
  unfold len in Tsh, Tco. rewrite length_fmap in Tsh. rewrite length_fmap in Tco.
  rewrite <- Hsh in Tsh. rewrite <- Hco in Tco. rewrite Lcl, Lcompanies in Tsh.
  exists (new_clients b), (new_vessels b), (new_berths b), (new_shipments b),
         (new_containers b).
  rewrite Hcommitted. simpl. rewrite Ecl, Eve, Ebe, Esh, Eco.
  split; [done|]. split; [done|]. split; [done|]. split; [done|]. split; [done|].
  split; [congruence|]. split; [done|]. split; [done|].
  rewrite <- Hcommitted.
  split.
  { rewrite (filter_length_prefix _ _ 18); [by rewrite Lbe|].
    intros k bb Hk. by destruct (Hat k bb Hk). }
  split.
  { rewrite (filter_length_suffix _ _ 18); [by rewrite Lbe|].
    intros k bb Hk. by destruct (Hat k bb Hk). }
  split; [unfold len; lia|]. split; [unfold len; lia|].
  split; [by exists sgroups | by exists cgroups].
Qed.

Lemma main_seeds_expected_counts_witness :
  exists cl ve be sh co,
    entity_tables (committed (conn (main fallback_world))) = (cl, ve, be, sh, co) /\
    length cl = 6%nat /\ length ve = 18%nat /\ length be = 20%nat /\
    length (filter (berth_has_status (committed (conn (main fallback_world))) "OCCUPIED")
                   be) = 18%nat /\
    12 <= len sh <= 30 /\ len sh <= len co <= 4 * len sh.
Proof.
  assert (Hok : (main_try fallback_world).1 = Ok tt).
  { vm_compute. reflexivity. }
  assert (Hcompanies : (scrape_shipping_companies (net fallback_world)).1 =
            Ok ["Maersk"; "Mediterranean Shipping Company"; "CMA CGM";
                "COSCO Shipping"; "Hapag-Lloyd"; "Ocean Network Express"]).
  { vm_compute. reflexivity. }
  assert (Hports :
            (scrape_container_ports (scrape_shipping_companies (net fallback_world)).2).1 =
            Ok ["Shanghai"; "Singapore"; "Ningbo-Zhoushan"; "Shenzhen"; "Guangzhou"]).
  { vm_compute. reflexivity. }
  destruct (main_seeds_expected_counts fallback_world (main_try fallback_world).2 _ _
              eq_refl fresh_connection_store_ok Hcompanies eq_refl Hports eq_refl
              (run_result main_try fallback_world _ Hok))
    as (cl & ve & be & sh & co & Hcl & Hve & Hbe & Hsh & Hco & L1 & L2 & L3 & L4 & _ &
        L5 & L6 & _).
  set (final := committed (conn (main fallback_world))) in *.
  set (reset := committed (conn (truncate_tables fallback_world).2)) in *.
  assert (R1 : client_rows reset = []) by (vm_compute; reflexivity).
  assert (R2 : vessel_rows reset = []) by (vm_compute; reflexivity).
  assert (R3 : berth_rows reset = []) by (vm_compute; reflexivity).
  assert (R4 : shipment_rows reset = []) by (vm_compute; reflexivity).
  assert (R5 : container_rows reset = []) by (vm_compute; reflexivity).
  rewrite R1, app_nil_l in Hcl. rewrite R2, app_nil_l in Hve.
  rewrite R3, app_nil_l in Hbe. rewrite R4, app_nil_l in Hsh.
  rewrite R5, app_nil_l in Hco.
  exists cl, ve, be, sh, co.
  split; [unfold entity_tables; rewrite Hcl, Hve, Hbe, Hsh, Hco; reflexivity|].
  split; [exact L1|]. split; [exact L2|]. split; [exact L3|]. split; [exact L4|].
  split; [exact L5 | exact L6].
Defined.

(** * Further properties of the script *)

(** ** Fetching *)

(** [get_wikipedia_data] never raises, never sleeps and sends one request,
    whatever the server does: it returns the body of an answer whose
    status lies outside 400..599, and [None] in every other case. *)
Theorem get_wikipedia_data_outcome (url : string) (n : Net) :
  exists (r : option Content) (n' : Net),
    get_wikipedia_data url n = (Ok r, n') /\
    requests_made n' = S (requests_made n) /\
    slept n' = slept n /\
    server n' = server n /\
    (forall response,
       server n (requests_made n) url = Answer response ->
       r = if (400 <=? status_code response) && (status_code response <? 600)
           then None else Some (content response)) /\
    (server n (requests_made n) url = ConnectionError -> r = None) /\
    (server n (requests_made n) url = Timeout -> r = None).
Proof.
  rewrite get_wikipedia_data_once. exists (fetched url n), (asked n).
  split; [done|]. split; [done|]. split; [done|]. split; [done|].
  unfold fetched. split; [|split].
  - by intros response ->.
  - by intros ->.
  - by intros ->.
Qed.

(** ** The scrapers *)

(** A loop that appends at most one name per row collects the names of the
    rows in their order. *)
Lemma foldl_append_omap {A B} (g : A -> option B) (f : list B -> A -> list B)
    (l : list A) : forall acc,
  (forall acc x, f acc x = match g x with Some y => acc ++ [y] | None => acc end) ->
  foldl f acc l = acc ++ omap g l.
Proof.
  induction l as [|x l IH]; intros acc Hf; simpl.
  - by rewrite app_nil_r.
  - rewrite IH by done. rewrite Hf. destruct (g x) as [y|]; [|done].
    by rewrite <- app_assoc.
Qed.

Lemma length_omap_le {A B} (g : A -> option B) (l : list A) :
  (length (omap g l) <= length l)%nat.
Proof.
  induction l as [|x l IH]; simpl; [done|].
  change (list_omap A B g l) with (omap g l). destruct (g x); simpl; lia.
Qed.

(** What [scrape_shipping_companies] returns, by the answer to its
    request: the empty list when nothing usable was fetched (the request
    failed, the status is 4xx or 5xx, or the body is empty); the fallback
    list of six companies when the page holds no table; otherwise the
    first 15 of the names of the rows of the first table after its header,
    in their order. *)
Theorem scrape_shipping_companies_cases (n : Net) :
  exists companies,
    scrape_shipping_companies n = (Ok companies, asked n) /\
    (length companies <= 15)%nat /\
    match server n (requests_made n)
            "https://en.wikipedia.org/wiki/List_of_largest_container_shipping_companies"
    with
    | Answer response =>
        if (400 <=? status_code response) && (status_code response <? 600)
           || String.eqb (raw (content response)) ""
        then companies = []
        else
          match wikitables (content response) with
          | [] => companies =
                    ["Maersk"; "Mediterranean Shipping Company"; "CMA CGM";
                     "COSCO Shipping"; "Hapag-Lloyd"; "Ocean Network Express"]
          | table :: _ =>
              companies = take 15 (omap company_of_row (drop 1 table)) /\
              (length companies <= length table - 1)%nat
          end
    | ConnectionError | Timeout => companies = []
    end.
Proof.
  unfold scrape_shipping_companies, mbind, M_bind.
  rewrite get_wikipedia_data_once. eexists. split; [reflexivity|].
  split; [rewrite length_take; lia|].
  unfold fetched.
  destruct (server n (requests_made n) _) as [| |[status page]]; [done | done|].
  simpl. destruct ((400 <=? status) && (status <? 600)); simpl; [done|].
  destruct (String.eqb (raw page) ""); [done|].
  destruct (wikitables page) as [|table tables]; simpl; [done|].
  rewrite (foldl_append_omap company_of_row).
  - simpl. split; [done|]. rewrite length_take.
    pose proof (length_omap_le company_of_row (drop 1 table)) as H.
    rewrite length_drop in H. lia.
  - intros acc cols. unfold company_of_row. by destruct (cols !! 1%nat).
Qed.

(** *** Cleaned names *)

Lemma list_of_rev_app (s t : string) :
  list_ascii_of_string (String.rev_app s t) =
  reverse (list_ascii_of_string s) ++ list_ascii_of_string t.
Proof.
  revert t. induction s as [|c s IH]; intros t; simpl; [done|].
  rewrite IH, reverse_cons. simpl. by rewrite <- app_assoc.
Qed.

Lemma list_of_rev (s : string) :
  list_ascii_of_string (String.rev s) = reverse (list_ascii_of_string s).
Proof. unfold String.rev. rewrite list_of_rev_app. simpl. by rewrite app_nil_r. Qed.

Lemma lstrip_head (s : string) (c : ascii) :
  head (list_ascii_of_string (lstrip s)) = Some c -> is_whitespace c = false.
Proof.
  induction s as [|a s IH]; simpl; [done|].
  destruct (is_whitespace a) eqn:Ha; [done|]. simpl. by intros [= <-].
Qed.

Lemma lstrip_suffix (s : string) :
  list_ascii_of_string (lstrip s) `suffix_of` list_ascii_of_string s.
Proof.
  induction s as [|a s IH]; simpl; [done|].
  destruct (is_whitespace a); [by apply suffix_cons_r | done].
Qed.

Lemma suffix_last {A} (l k : list A) (x : A) :
  l `suffix_of` k -> last l = Some x -> last k = Some x.
Proof. intros [pre ->] Hx. rewrite last_app, Hx. done. Qed.

Lemma strip_trimmed (s : string) : trimmed (strip s).
Proof.
  unfold strip. set (t := lstrip (String.rev s)). split.
  - intros c. apply lstrip_head.
  - intros c Hc. apply (suffix_last _ _ _ (lstrip_suffix (String.rev t))) in Hc.
    rewrite list_of_rev, last_reverse in Hc. by apply (lstrip_head (String.rev s)).
Qed.

(** Stripping only removes characters. *)
Lemma strip_chars (s : string) (c : ascii) :
  c ∈ list_ascii_of_string (strip s) -> c ∈ list_ascii_of_string s.
Proof.
  unfold strip. intros H.
  pose proof (elem_of_suffix _ _ _ H (lstrip_suffix _)) as H1.
  rewrite list_of_rev, elem_of_reverse in H1.
  pose proof (elem_of_suffix _ _ _ H1 (lstrip_suffix _)) as H2.
  by rewrite list_of_rev, elem_of_reverse in H2.
Qed.

Lemma before_paren_no_paren (s : string) : no_paren (before_paren s).
Proof.
  unfold no_paren. induction s as [|a s IH]; simpl; [apply not_elem_of_nil|].
  destruct (Ascii.eqb_spec a "(") as [->|Ha]; [apply not_elem_of_nil|].
  simpl. apply not_elem_of_cons. split; [congruence | done].
Qed.

Lemma port_of_row_clean (cols : list string) (name : string) :
  port_of_row cols = Some name -> trimmed name /\ no_paren name.
Proof.
  unfold port_of_row. destruct (3 <=? length cols)%nat; [|done].
  destruct (cols !! 1%nat) as [cell|]; [|done]. intros [= <-].
  split; [apply strip_trimmed|].
  intros H. apply strip_chars in H. by apply before_paren_no_paren in H.
Qed.

(** White space and word characters beyond ASCII are cleaned as Python
    cleans them. *)
Example company_of_row_no_break_space :
  company_of_row ["1"; "Maersk" +:+ String "160" "[12]"; "Denmark"] = Some "Maersk".
Proof. reflexivity. Qed.

Example port_of_row_latin1 :
  port_of_row ["7"; "Busan" +:+ String "160" "(South Korea)"; "South Korea"] =
    Some "Busan" /\
  port_of_row ["7"; "Busan[" +:+ String "233" "]"; "South Korea"] = Some "Busan".
Proof. split; reflexivity. Qed.

Lemma company_of_row_clean (cols : list string) (name : string) :
  company_of_row cols = Some name -> trimmed name.
Proof.
  unfold company_of_row. destruct (cols !! 1%nat) as [cell|]; [|done].
  intros [= <-]. apply strip_trimmed.
Qed.

Lemma Forall_omap {A B} (g : A -> option B) (P : B -> Prop) (l : list A) :
  (forall x y, g x = Some y -> P y) -> Forall P (omap g l).
Proof.
  intros H. induction l as [|x l IH]; simpl; [constructor|].
  change (list_omap A B g l) with (omap g l).
  destruct (g x) as [y|] eqn:Hg; [|done]. constructor; [by eapply H | done].
Qed.

Lemma literal_trimmed (c : ascii) (s : string) (d : ascii) :
  is_whitespace c = false ->
  last (list_ascii_of_string (String c s)) = Some d ->
  is_whitespace d = false ->
  trimmed (String c s).
Proof.
  intros Hc Hlast Hd. split.
  - simpl. by intros ? [= <-].
  - intros e He. rewrite Hlast in He. by injection He as <-.
Qed.

(** What [scrape_container_ports] returns when a page with a table was
    fetched: one name for every row of the first table after its header
    that has at least three cells, in the order of the rows.  In every
    case the names returned have no white space at either end and no
    opening parenthesis. *)
Theorem scrape_container_ports_names (n : Net) :
  exists ports,
    scrape_container_ports n = (Ok ports, asked n) /\
    Forall (fun name => trimmed name /\ no_paren name) ports /\
    (forall response table tables,
       server n (requests_made n)
         "https://en.wikipedia.org/wiki/List_of_busiest_container_ports" =
         Answer response ->
       (400 <=? status_code response) && (status_code response <? 600) = false ->
       raw (content response) <> "" ->
       wikitables (content response) = table :: tables ->
       ports = omap port_of_row (drop 1 table) /\
       (length ports <= length table - 1)%nat).
Proof.
  unfold scrape_container_ports, mbind, M_bind.
  rewrite get_wikipedia_data_once. eexists. split; [reflexivity|].
  assert (forall acc cols,
            (if (3 <=? length cols)%nat
             then match cols !! 1%nat with
                  | Some port_name =>
                      acc ++ [strip (before_paren (re_sub_bracketed is_word None port_name))]
                  | None => acc
                  end
             else acc) =
            match port_of_row cols with Some y => acc ++ [y] | None => acc end) as Hstep.
  { intros acc cols. unfold port_of_row.
    destruct (3 <=? length cols)%nat; [|done]. by destruct (cols !! 1%nat). }
  split.
  - destruct (truthy (fetched _ n)) as [page|]; [|constructor].
    destruct (wikitables page) as [|table0 tables0].
    + repeat (constructor;
              [split; [eapply literal_trimmed; [reflexivity | reflexivity | reflexivity]
                      | unfold no_paren; simpl; rewrite !elem_of_cons, elem_of_nil;
                        intuition discriminate]|]).
      constructor.
    + rewrite (foldl_append_omap port_of_row _ _ _ Hstep).
      apply Forall_omap, port_of_row_clean.
  - intros response table tables Hserver Hstatus Hraw Htable.
    unfold fetched. rewrite Hserver, Hstatus. simpl.
    destruct (String.eqb_spec (raw (content response)) "") as [|_]; [done|].
    rewrite Htable, (foldl_append_omap port_of_row _ _ _ Hstep). simpl.
    split; [done|].
    pose proof (length_omap_le port_of_row (drop 1 table)) as H.
    rewrite length_drop in H. lia.
Qed.

Lemma scrape_container_ports_names_witness :
  let page := page_with_repeated_port in
  exists ports,
    scrape_container_ports web_with_repeated_port =
      (Ok ports, asked web_with_repeated_port) /\
    ports = ["Shanghai"; "Shanghai"] /\
    Forall (fun name => trimmed name /\ no_paren name) ports.
Proof.
  intros page.
  destruct (scrape_container_ports_names web_with_repeated_port)
    as (ports & Hrun & Hclean & Htable).
  exists ports. split; [exact Hrun|]. split; [|exact Hclean].
  destruct (Htable {| status_code := 200; content := page |}
              [ []; ["1"; "Shanghai"; "China"; "49.0"];
                ["2"; "Shanghai[a]"; "China"; "47.3"] ] []
              eq_refl eq_refl ltac:(discriminate) eq_refl) as [-> _].
  reflexivity.
Defined.

(** The names [scrape_shipping_companies] returns have no white space at
    either end. *)
Theorem scrape_shipping_companies_trimmed (n : Net) :
  exists companies,
    scrape_shipping_companies n = (Ok companies, asked n) /\
    Forall trimmed companies.
Proof.
  unfold scrape_shipping_companies, mbind, M_bind.
  rewrite get_wikipedia_data_once. eexists. split; [reflexivity|].
  apply Forall_take.
  destruct (truthy (fetched _ n)) as [page|]; [|constructor].
  destruct (head (wikitables page)) as [table|].
  - rewrite (foldl_append_omap company_of_row).
    + simpl. apply Forall_omap, company_of_row_clean.
    + intros acc cols. unfold company_of_row. by destruct (cols !! 1%nat).
  - repeat (constructor;
            [eapply literal_trimmed; [reflexivity | reflexivity | reflexivity]|]).
    constructor.
Qed.

(** *** Citation markers *)

Lemma append_cons (c : ascii) (a t : string) : String c a +:+ t = String c (a +:+ t).
Proof. reflexivity. Qed.

Lemma append_assoc (a b c : string) : (a +:+ b) +:+ c = a +:+ b +:+ c.
Proof. induction a as [|x a IH]; [done|]. by rewrite !append_cons, IH. Qed.

Lemma list_of_append (a b : string) :
  list_ascii_of_string (a +:+ b) = list_ascii_of_string a ++ list_ascii_of_string b.
Proof. induction a as [|x a IH]; [done|]. rewrite append_cons. simpl. by rewrite IH. Qed.

(** Text without an opening bracket is copied. *)
Lemma re_sub_bracketed_copy (cls : ascii -> bool) (a t : string) :
  "["%char ∉ list_ascii_of_string a ->
  re_sub_bracketed cls None (a +:+ t) = a +:+ re_sub_bracketed cls None t.
Proof.
  induction a as [|c a IH]; intros Ha; [done|].
  simpl in Ha. apply not_elem_of_cons in Ha as [Hc Ha].
  rewrite !append_cons. simpl.
  destruct (Ascii.eqb_spec c "[") as [->|_]; [done|]. by rewrite IH.
Qed.

(** Characters of the class are held back while a citation may follow. *)
Lemma re_sub_bracketed_held (cls : ascii -> bool) (body : string) : forall h t,
  forallb cls (list_ascii_of_string body) = true ->
  re_sub_bracketed cls (Some h) (body +:+ t) =
  re_sub_bracketed cls (Some (h +:+ body)) t.
Proof.
  induction body as [|c body IH]; intros h t Hb.
  - replace (h +:+ "") with h; [done|].
    clear. induction h as [|x h IH]; [done|]. by rewrite append_cons, <- IH.
  - simpl in Hb. apply andb_true_iff in Hb as [Hc Hb].
    rewrite append_cons. simpl. rewrite Hc, IH by done.
    by rewrite append_assoc.
Qed.

(** A citation marker, an opening bracket, one or more characters of the
    class and a closing bracket, is dropped. *)
Lemma re_sub_bracketed_citation (cls : ascii -> bool) (a body t : string) :
  cls "]"%char = false ->
  "["%char ∉ list_ascii_of_string a ->
  body <> "" ->
  forallb cls (list_ascii_of_string body) = true ->
  re_sub_bracketed cls None (a +:+ "[" +:+ body +:+ "]" +:+ t) =
  a +:+ re_sub_bracketed cls None t.
Proof.
  intros Hcls Ha Hbody Hall.
  rewrite re_sub_bracketed_copy by done. f_equal.
  rewrite append_cons. cbn [re_sub_bracketed]. simpl Ascii.eqb. cbv iota.
  change ("" +:+ body +:+ "]" +:+ t) with (body +:+ "]" +:+ t).
  rewrite re_sub_bracketed_held by done.
  change ("]" +:+ t) with (String "]" t). change ("" +:+ body) with body.
  cbn [re_sub_bracketed]. rewrite Hcls. simpl Ascii.eqb.
  destruct body as [|c body]; [done|]. done.
Qed.

Lemma lstrip_id (s : string) :
  (forall c, head (list_ascii_of_string s) = Some c -> is_whitespace c = false) ->
  lstrip s = s.
Proof.
  destruct s as [|c s]; [done|]. simpl. intros H. by rewrite (H c eq_refl).
Qed.

Lemma rev_involutive (s : string) : String.rev (String.rev s) = s.
Proof.
  rewrite <- (string_of_list_ascii_of_string (String.rev (String.rev s))).
  rewrite !list_of_rev, reverse_involutive.
  apply string_of_list_ascii_of_string.
Qed.

Lemma strip_id (s : string) : trimmed s -> strip s = s.
Proof.
  intros [Hhead Hlast]. unfold strip.
  rewrite (lstrip_id (String.rev s)).
  - rewrite rev_involutive. by apply lstrip_id.
  - intros c. rewrite list_of_rev, head_reverse. apply Hlast.
Qed.

Lemma before_paren_id (s : string) : no_paren s -> before_paren s = s.
Proof.
  unfold no_paren. induction s as [|c s IH]; [done|]. simpl.
  intros H. apply not_elem_of_cons in H as [Hc Hs].
  destruct (Ascii.eqb_spec c "(") as [->|_]; [done|]. by rewrite IH.
Qed.

Lemma append_empty (s : string) : s +:+ "" = s.
Proof. induction s as [|c s IH]; [done|]. by rewrite append_cons, IH. Qed.

(** A cell of a scraped table that holds one citation marker, an opening
    bracket, one or more digits (for a company) or word characters (for
    a port) and a closing bracket, yields the name around the marker. *)
Theorem scraped_cell_citation_removed (cols : list string) (name body rest : string) :
  cols !! 1%nat = Some (name +:+ "[" +:+ body +:+ "]" +:+ rest) ->
  "["%char ∉ list_ascii_of_string name ->
  "["%char ∉ list_ascii_of_string rest ->
  body <> "" ->
  (forallb is_digit (list_ascii_of_string body) = true ->
   company_of_row cols = Some (strip (name +:+ rest))) /\
  (forallb is_word (list_ascii_of_string body) = true ->
   (3 <= length cols)%nat ->
   port_of_row cols = Some (strip (before_paren (name +:+ rest)))).
Proof.
  intros Hcell Hname Hrest Hbody.
  assert (Hkeep : forall cls, re_sub_bracketed cls None rest = rest).
  { intros cls. rewrite <- (append_empty rest) at 1.
    rewrite re_sub_bracketed_copy by done. apply append_empty. }
  split.
  - intros Hdigits. unfold company_of_row. rewrite Hcell.
    by rewrite re_sub_bracketed_citation, Hkeep.
  - intros Hword Hlen. unfold port_of_row. rewrite Hcell.
    destruct (Nat.leb_spec 3 (length cols)) as [_|?]; [|lia].
    by rewrite re_sub_bracketed_citation, Hkeep.
Qed.

Lemma scraped_cell_citation_removed_witness :
  company_of_row ["1"; "Maersk [12]"; "Denmark"] = Some "Maersk" /\
  port_of_row ["2"; "Shanghai[a]"; "China"] = Some "Shanghai".
Proof.
  split.
  - refine (proj1 (scraped_cell_citation_removed ["1"; "Maersk [12]"; "Denmark"]
                     "Maersk " "12" "" eq_refl _ _ _) eq_refl);
      [apply (bool_decide_unpack _); by vm_compute
      | apply (bool_decide_unpack _); by vm_compute | discriminate].
  - refine (proj2 (scraped_cell_citation_removed ["2"; "Shanghai[a]"; "China"]
                     "Shanghai" "a" "" eq_refl _ _ _) eq_refl _);
      [apply (bool_decide_unpack _); by vm_compute
      | apply (bool_decide_unpack _); by vm_compute | discriminate | simpl; lia].
Defined.

Lemma graphic_not_space (c : ascii) : graphic c = true -> is_whitespace c = false.
Proof. by destruct c as [[] [] [] [] [] [] [] []]. Qed.

Lemma graphic_ends_trimmed (s : string) : graphic_ends s -> trimmed s.
Proof.
  intros [Hhead Hlast]. split; intros c Hc; apply graphic_not_space; auto.
Qed.

(** A cell without an opening bracket that starts and ends with a
    printable character other than the space is taken as it is: it is the
    company name, and, when it has no opening parenthesis either and the
    row has at least three cells, the port name. *)
Theorem scraped_clean_cell_kept (cols : list string) (cell : string) :
  cols !! 1%nat = Some cell ->
  "["%char ∉ list_ascii_of_string cell ->
  graphic_ends cell ->
  company_of_row cols = Some cell /\
  ((3 <= length cols)%nat -> no_paren cell -> port_of_row cols = Some cell).
Proof.
  intros Hcell Hno Hends. apply graphic_ends_trimmed in Hends as Htrim.
  assert (Hkeep : forall cls, re_sub_bracketed cls None cell = cell).
  { intros cls. rewrite <- (append_empty cell) at 1.
    rewrite re_sub_bracketed_copy by done. apply append_empty. }
  split.
  - unfold company_of_row. by rewrite Hcell, Hkeep, strip_id.
  - intros Hlen Hparen. unfold port_of_row. rewrite Hcell.
    destruct (Nat.leb_spec 3 (length cols)) as [_|?]; [|lia].
    by rewrite Hkeep, before_paren_id, strip_id.
Qed.

Lemma scraped_clean_cell_kept_witness :
  company_of_row ["3"; "CMA CGM"; "France"] = Some "CMA CGM".
Proof.
  refine (proj1 (scraped_clean_cell_kept ["3"; "CMA CGM"; "France"] "CMA CGM"
                   eq_refl _ _)).
  - apply (bool_decide_unpack _). by vm_compute.
  - split; intros c [= <-]; reflexivity.
Defined.

(** ** The container number *)

Lemma chr_uppercase (k : Z) : 0 <= k < 26 -> is_uppercase_letter (Py.chr (65 + k)) = true.
Proof.
  intros Hk. unfold is_uppercase_letter. rewrite ord_chr by lia.
  change (Py.ord "A") with 65. change (Py.ord "Z") with 90.
  apply andb_true_iff. split; apply Z.leb_le; lia.
Qed.

Lemma digit_char_zero (d : Z) : 0 <= d < 10 -> Py.digit_char d = "0"%char -> d = 0.
Proof.
  intros Hd H. apply (f_equal Py.ord) in H. unfold Py.digit_char in H.
  rewrite ord_chr in H by lia. change (Py.ord "0") with 48 in H. lia.
Qed.

(** Whatever the generator draws, [generate_container_number] returns
    eleven characters: three letters A-Z, the letter U, six decimal digits
    of which the first is not 0, and one more decimal digit.  It takes
    four numbers from the generator and leaves the record of unique values
    alone. *)
Theorem generate_container_number_format (f : Faker) :
  exists (l1 l2 l3 s1 s2 s3 s4 s5 s6 k : ascii) (f' : Faker),
    generate_container_number f =
      (Ok (string_of_list_ascii [l1; l2; l3; "U"%char; s1; s2; s3; s4; s5; s6; k]), f') /\
    Forall (fun c => is_uppercase_letter c = true) [l1; l2; l3] /\
    Forall (fun c => Iso6346.is_decimal_digit c = true) [s1; s2; s3; s4; s5; s6; k] /\
    s1 <> "0"%char /\
    drawn f' = (drawn f + 4)%nat /\ rng f' = rng f /\
    provider f' = provider f /\ unique_seen f' = unique_seen f.
Proof.
  rewrite generate_container_number_draws.
  set (k1 := rng f (drawn f) mod 26).
  set (k2 := rng f (S (drawn f)) mod 26).
  set (k3 := rng f (S (S (drawn f))) mod 26).
  set (serial := 100000 + rng f (S (S (S (drawn f)))) mod 900000).
  assert (Hk1 : 0 <= k1 < 26) by (unfold k1; lia).
  assert (Hk2 : 0 <= k2 < 26) by (unfold k2; lia).
  assert (Hk3 : 0 <= k3 < 26) by (unfold k3; lia).
  assert (Hs : 100000 <= serial <= 999999) by (unfold serial; lia).
  rewrite (str_six_digits serial Hs).
  unfold with_check_digit.
  set (base := String (Py.chr (65 + k1)) _).
  set (d := Py.sum (char_values 0 base) mod 11 mod 10).
  assert (Hd : 0 <= d < 10) by (unfold d; lia).
  rewrite (str_one_digit d Hd).
  exists (Py.chr (65 + k1)), (Py.chr (65 + k2)), (Py.chr (65 + k3)),
    (Py.digit_char (serial / 100000 mod 10)), (Py.digit_char (serial / 10000 mod 10)),
    (Py.digit_char (serial / 1000 mod 10)), (Py.digit_char (serial / 100 mod 10)),
    (Py.digit_char (serial / 10 mod 10)), (Py.digit_char (serial mod 10)),
    (Py.digit_char d).
  eexists. split; [reflexivity|].
  split; [repeat constructor; by apply chr_uppercase|].
  split; [repeat constructor; apply digit_char_is_decimal; lia|].
  split; [|simpl; repeat split; lia].
  intros H. apply digit_char_zero in H; lia.
Qed.

(** ** The reset *)

Lemma row_count_clear (t t' : table) (T : Tables) :
  (row_count t (clear T t') <= row_count t T)%nat /\
  (t = t' -> row_count t (clear T t') = 0%nat).
Proof.
  split.
  - destruct t as [| | | | |[]]; simpl; case_decide; simpl; lia.
  - intros <-. by destruct t as [| | | | |[]].
Qed.

Lemma row_count_foldl_clear (t : table) (ts : list table) : forall T,
  (row_count t (foldl clear T ts) <= row_count t T)%nat.
Proof.
  induction ts as [|t' ts IH]; intros T; simpl; [lia|].
  etrans; [apply IH|]. apply row_count_clear.
Qed.

Lemma row_count_truncate_cascade (t t' : table) (T : Tables) :
  (row_count t (truncate_cascade t' T) <= row_count t T)%nat /\
  (t = t' -> row_count t (truncate_cascade t' T) = 0%nat).
Proof.
  unfold truncate_cascade. split; [apply row_count_foldl_clear|].
  intros <-. simpl.
  pose proof (row_count_foldl_clear t (referencing t) (clear T t)) as H.
  destruct (row_count_clear t t T) as [_ H0]. rewrite H0 in H by done. lia.
Qed.

Lemma no_rows_empty_tables (T : Tables) :
  (forall t, row_count t T = 0%nat) -> T = empty_tables.
Proof.
  intros H. destruct T as [a b c d e f g h].
  pose proof (H (enum ShipmentStatus)) as H1. pose proof (H (enum ContainerType)) as H2.
  pose proof (H (enum BerthStatus)) as H3. pose proof (H client) as H4.
  pose proof (H vessel) as H5. pose proof (H berth) as H6.
  pose proof (H shipment) as H7. pose proof (H container) as H8.
  simpl in *. apply length_zero_iff_nil in H1, H2, H3, H4, H5, H6, H7, H8.
  by subst.
Qed.

(** What the reset has done to the world [w] when it is in [s], having
    sent [i] of its TRUNCATE statements. *)
Lemma truncate_tables_run (w : World) :
  let c := conn w in
  let r := (truncate_tables w).1 in
  let c' := conn (truncate_tables w).2 in
  net (truncate_tables w).2 = net w /\
  sequences c' = sequences c /\
  (forall t, (row_count t (pending c') <= row_count t (pending c))%nat) /\
  if fault c (executed c) (SET_session_replication_role "replica") then
    r = Raise DatabaseError /\ committed c' = committed c /\ pending c' = pending c
  else
    (forall (k : nat) t,
       [container; shipment; berth; client; vessel;
        enum BerthStatus; enum ContainerType; enum ShipmentStatus] !! k = Some t ->
       fault c (executed c + 1 + k)%nat (TRUNCATE_CASCADE t) = false ->
       row_count t (pending c') = 0%nat) /\
    if fault c (executed c + 9)%nat (SET_session_replication_role "origin") then
      r = Raise DatabaseError /\ committed c' = committed c
    else r = Ok tt /\ committed c' = pending c'.
Proof.
  intros c r c'. subst r c'.
  set (tables := [container; shipment; berth; client; vessel;
                  enum BerthStatus; enum ContainerType; enum ShipmentStatus]).
  change (wp truncate_tables
    (fun r s =>
       net s = net w /\
       sequences (conn s) = sequences c /\
       (forall t, (row_count t (pending (conn s)) <= row_count t (pending c))%nat) /\
       if fault c (executed c) (SET_session_replication_role "replica") then
         r = Raise DatabaseError /\ committed (conn s) = committed c /\
         pending (conn s) = pending c
       else
         (forall (k : nat) t, tables !! k = Some t ->
            fault c (executed c + 1 + k)%nat (TRUNCATE_CASCADE t) = false ->
            row_count t (pending (conn s)) = 0%nat) /\
         if fault c (executed c + 9)%nat (SET_session_replication_role "origin") then
           r = Raise DatabaseError /\ committed (conn s) = committed c
         else r = Ok tt /\ committed (conn s) = pending (conn s)) w).
  unfold truncate_tables. fold tables.
  apply wp_bind, wp_execute; fold c.
  { intros ->. cbn [by_result]. simpl. by repeat split. }
  intros ->. cbn [by_result]. apply wp_bind. eapply wp_mono.
  { apply wp_for_each with
      (I := fun i (_ : unit) s =>
              net s = net w /\
              fault (conn s) = fault c /\
              executed (conn s) = (executed c + 1 + i)%nat /\
              committed (conn s) = committed c /\
              sequences (conn s) = sequences c /\
              (forall t, (row_count t (pending (conn s)) <= row_count t (pending c))%nat) /\
              (forall (k : nat) t, (k < i)%nat -> tables !! k = Some t ->
                 fault c (executed c + 1 + k)%nat (TRUNCATE_CASCADE t) = false ->
                 row_count t (pending (conn s)) = 0%nat))
      (E := fun _ _ => False).
    - simpl. split; [done|]. split; [done|]. split; [lia|]. split; [done|].
      split; [done|]. split; [done|]. intros; lia.
    - intros i t [] s Hi (Hn & Hf & He & Hc & Hs & Hle & Hz).
      apply wp_try_except, wp_bind, wp_execute.
      + intros Hfault. cbn [by_result]. apply wp_ret. cbn [by_result]. simpl.
        split; [done|]. split; [done|]. split; [lia|]. split; [done|].
        split; [done|]. split; [done|].
        intros k t' Hk Hk' Hnf. destruct (decide (k = i)) as [->|Hne].
        * rewrite Hi in Hk'. injection Hk' as <-.
          rewrite Hf, He in Hfault. congruence.
        * apply (Hz k); [lia | done | done].
      + intros _. cbn [by_result]. apply wp_ret. cbn [by_result]. simpl.
        split; [done|]. split; [done|]. split; [lia|]. split; [done|].
        split; [done|].
        split.
        { intros t'. etrans; [apply row_count_truncate_cascade | apply Hle]. }
        intros k t' Hk Hk' Hnf.
        destruct (decide (k = i)) as [->|Hne].
        * rewrite Hi in Hk'. injection Hk' as <-.
          by apply row_count_truncate_cascade.
        * pose proof (Hz k t' ltac:(lia) Hk' Hnf) as H0.
          destruct (row_count_truncate_cascade t' t (pending (conn s))) as [H1 _]. lia. }
  intros [[]|e] s; cbn [by_result]; [|done].
  intros (Hn & Hf & He & Hc & Hs & Hle & Hz).
  assert (Hall : forall (k : nat) t, tables !! k = Some t ->
            fault c (executed c + 1 + k)%nat (TRUNCATE_CASCADE t) = false ->
            row_count t (pending (conn s)) = 0%nat).
  { intros k t Hk. apply Hz; [|done]. apply lookup_lt_Some in Hk. exact Hk. }
  apply wp_bind, wp_execute.
  - rewrite Hf, He. change (length tables) with 8%nat.
    replace (executed c + 1 + 8)%nat with (executed c + 9)%nat by lia.
    intros ->. cbn [by_result]. simpl. by repeat split.
  - rewrite Hf, He. change (length tables) with 8%nat.
    replace (executed c + 1 + 8)%nat with (executed c + 9)%nat by lia.
    intros ->. cbn [by_result]. apply wp_commit. simpl. by repeat split.
Qed.

(** The handler around TRUNCATE cannot save the reset on a store that
    aborts the transaction on an error, as PostgreSQL does for the
    connection of [main]: when one of the eight TRUNCATE statements is
    refused, the last SET statement, which stands outside the handler, is
    refused as well, so the reset ends with the store's error and nothing
    is committed. *)
Theorem truncate_tables_refused_truncate (w : World) (k : nat) (t : table) :
  let c := conn w in
  let r := (truncate_tables w).1 in
  let c' := conn (truncate_tables w).2 in
  aborts_on_error c ->
  [container; shipment; berth; client; vessel;
   enum BerthStatus; enum ContainerType; enum ShipmentStatus] !! k = Some t ->
  fault c (executed c + 1 + k)%nat (TRUNCATE_CASCADE t) = true ->
  r = Raise DatabaseError /\ committed c' = committed c.
Proof.
  intros c r c' Habort Hk Hfault.
  assert (Hlast : fault c (executed c + 9)%nat
                    (SET_session_replication_role "origin") = true).
  { apply (Habort (executed c + 1 + k)%nat (TRUNCATE_CASCADE t)); [lia | done|].
    apply lookup_lt_Some in Hk. simpl in Hk. lia. }
  destruct (truncate_tables_run w) as (_ & _ & _ & H). fold c in H.
  destruct (fault c (executed c) _); [by destruct H as (? & ? & _)|].
  rewrite Hlast in H. by destruct H as (_ & ? & ?).
Qed.

Lemma truncate_tables_refused_truncate_witness :
  let w := refusing (fun k _ => (3 <=? k)%nat) fallback_world in
  (truncate_tables w).1 = Raise DatabaseError /\
  committed (conn (truncate_tables w).2) = committed (conn w).
Proof.
  intros w.
  assert (H1 : aborts_on_error (conn w)).
  { intros k st k' st' _ Hk Hlt.
    change (fault (conn w) k st) with (3 <=? k)%nat in Hk.
    change (fault (conn w) k' st') with (3 <=? k')%nat.
    apply Nat.leb_le in Hk. apply Nat.leb_le. lia. }
  assert (H2 : [container; shipment; berth; client; vessel;
                enum BerthStatus; enum ContainerType; enum ShipmentStatus] !! 2%nat =
               Some berth) by reflexivity.
  assert (H3 : fault (conn w) (executed (conn w) + 1 + 2)%nat (TRUNCATE_CASCADE berth) =
               true) by reflexivity.
  pose proof (truncate_tables_refused_truncate w 2 berth H1 H2 H3) as P.
  exact P.
Defined.

(** A refused SET statement ends the reset with the store's error, and
    nothing is committed. *)
Theorem truncate_tables_refused_set (w : World) :
  let c := conn w in
  let r := (truncate_tables w).1 in
  let c' := conn (truncate_tables w).2 in
  fault c (executed c) (SET_session_replication_role "replica") = true \/
  fault c (executed c + 9)%nat (SET_session_replication_role "origin") = true ->
  r = Raise DatabaseError /\ committed c' = committed c.
Proof.
  intros c r c' H.
  destruct (truncate_tables_run w) as (_ & _ & _ & H'). fold c in H'.
  destruct (fault c (executed c) _); [by destruct H' as (? & ? & _)|].
  destruct H as [H|H]; [done|]. rewrite H in H'. by destruct H' as (_ & ? & ?).
Qed.

Lemma truncate_tables_refused_set_witness :
  let w := refusing (fun k st => is_set_role st && bool_decide (0 < k)%nat) seeded_world in
  (truncate_tables w).1 = Raise DatabaseError /\
  committed (conn (truncate_tables w).2) = committed (conn w).
Proof.
  intros w.
  assert (H : fault (conn w) (executed (conn w) + 9)%nat
                (SET_session_replication_role "origin") = true)
    by (vm_compute; reflexivity).
  pose proof (truncate_tables_refused_set w (or_intror H)) as P.
  exact P.
Defined.

(** On a store that answers every statement the reset returns, commits,
    and leaves no row in any table. *)
Lemma truncate_tables_fault_free (w : World) :
  fault_free (conn w) ->
  (truncate_tables w).1 = Ok tt /\
  committed (conn (truncate_tables w).2) = pending (conn (truncate_tables w).2) /\
  forall t, row_count t (pending (conn (truncate_tables w).2)) = 0%nat.
Proof.
  intros Hff.
  destruct (truncate_tables_run w) as (_ & _ & _ & H).
  rewrite !Hff in H. destruct H as (Hz & Hr & Hc).
  split; [done|]. split; [done|]. intros t.
  assert (exists k : nat,
            [container; shipment; berth; client; vessel;
             enum BerthStatus; enum ContainerType; enum ShipmentStatus] !! k = Some t)
    as [k Hk].
  { destruct t as [| | | | |[]];
      [by exists 0%nat | by exists 1%nat | by exists 2%nat | by exists 3%nat
      | by exists 4%nat | by exists 7%nat | by exists 6%nat | by exists 5%nat]. }
  by apply (Hz k).
Qed.

(** When the store answers every statement, the reset returns and leaves
    all eight tables empty, in the open transaction and committed. *)
Theorem truncate_tables_empties_store (w : World) :
  fault_free (conn w) ->
  (truncate_tables w).1 = Ok tt /\
  committed (conn (truncate_tables w).2) = empty_tables /\
  pending (conn (truncate_tables w).2) = empty_tables.
Proof.
  intros Hff.
  destruct (truncate_tables_fault_free w Hff) as (Hr & Hc & Hrows).
  split; [exact Hr|]. rewrite Hc.
  cut (pending (conn (truncate_tables w).2) = empty_tables); [by intros ->|].
  by apply no_rows_empty_tables.
Qed.

Lemma truncate_tables_empties_store_witness :
  fault_free (conn seeded_world) /\
  committed (conn seeded_world) <> empty_tables /\
  committed (conn (truncate_tables seeded_world).2) = empty_tables.
Proof.
  split; [exact seeded_world_fault_free|]. split; [vm_compute; discriminate|].
  exact (proj1 (proj2 (truncate_tables_empties_store seeded_world
                         seeded_world_fault_free))).
Defined.

(** ** The lookup seeder: what it adds *)

(** The seeder's inserts keep the rows of a table as they are and put
    after them one row for every name that was missing, once. *)
Lemma seed_rows_added (names : list string) : forall seq rows,
  exists added,
    seed_rows seq names rows = rows ++ added /\
    (forall name, name ∈ added.*2 <-> name ∈ names /\ name ∉ rows.*2) /\
    NoDup added.*2.
Proof.
  induction names as [|n names IH]; intros seq rows; simpl.
  - exists []. rewrite app_nil_r. split; [done|]. split; [|constructor].
    intros name. simpl. rewrite !elem_of_nil. tauto.
  - case_bool_decide as Hn.
    + destruct (IH (seq + 1) rows) as (added & -> & Hadded & Hnd).
      exists added. split; [done|]. split; [|done].
      intros name. rewrite Hadded, elem_of_cons. split; [tauto|].
      intros [[->|H] Hnot]; [done | tauto].
    + destruct (IH (seq + 1) (rows ++ [(seq, n)])) as (added & -> & Hadded & Hnd).
      exists ((seq, n) :: added). rewrite <- app_assoc. split; [done|].
      assert (Hin : forall name, name ∈ (rows ++ [(seq, n)]).*2 <->
                                 name ∈ rows.*2 \/ name = n).
      { intros name. rewrite fmap_app, elem_of_app. simpl.
        by rewrite list_elem_of_singleton. }
      split.
      * intros name. rewrite fmap_cons, !elem_of_cons, Hadded, Hin. simpl.
        split.
        -- intros [->|[? ?]]; [tauto|]. tauto.
        -- intros [[->|?] ?]; [by left|].
           destruct (decide (name = n)) as [->|?]; [by left | right; tauto].
      * rewrite fmap_cons. apply NoDup_cons. split; [|done].
        rewrite Hadded, Hin. simpl. tauto.
Qed.

(** When the lookup seeder returns, every lookup table holds, committed,
    the rows it held before, unchanged and in their place, followed by
    one new row for each name of its enumeration that was missing, and no
    other table has changed.  When it raises, nothing is committed. *)
Theorem populate_lookup_tables_adds_missing (w : World) :
  let c := conn w in
  let c' := conn (populate_lookup_tables w).2 in
  match (populate_lookup_tables w).1 with
  | Ok _ =>
      committed c' = pending c' /\
      entity_tables (committed c') = entity_tables (pending c) /\
      forall l, exists added,
        lookup_rows l (committed c') = lookup_rows l (pending c) ++ added /\
        (forall name, name ∈ added.*2 <->
           name ∈ enumeration l /\ name ∉ (lookup_rows l (pending c)).*2) /\
        NoDup added.*2
  | Raise _ => committed c' = committed c
  end.
Proof.
  intros c c'.
  destruct (populate_lookup_tables_spec w) as [_ _ _ Hent _ Hok Hraise _].
  fold c c' in Hent, Hok, Hraise.
  destruct (populate_lookup_tables w).1 as [[]|e]; [|by eapply Hraise].
  destruct (Hok eq_refl) as [Hc Hrows]. split; [done|]. rewrite Hc.
  split; [done|]. intros l. rewrite Hrows. apply seed_rows_added.
Qed.

(** ** The entity stages *)

(** *** Rows *)

(** Whatever happens in the container stage, each row it adds to
    [container] belongs to one of the given shipments, has size 20 or 40,
    the id of one of DRY, REEFER, OPEN_TOP and FLAT_RACK in the
    ContainerType table, and a container number that obeys the
    check-digit law.  When the stage returns, the count it returns is the
    number of rows added, and the rows come in groups, one for each
    shipment in the order given, each of between one and four rows that
    all belong to that shipment. *)
Theorem populate_containers_rows (w : World) (shipment_ids vessel_ids : list Z) :
  let r := (populate_containers shipment_ids vessel_ids w).1 in
  let w' := (populate_containers shipment_ids vessel_ids w).2 in
  exists co,
    container_rows (pending (conn w')) = container_rows (pending (conn w)) ++ co /\
    Forall (fun row =>
              container_shipment_id row ∈ shipment_ids /\
              size row ∈ [20; 40] /\
              (exists name, name ∈ container_types /\
                 named (pending (conn w)) ContainerType name (container_type_id row)) /\
              valid_container_number (container_number row))
           co /\
    (forall count, r = Ok count ->
       count = len co /\
       len shipment_ids <= count <= 4 * len shipment_ids /\
       exists groups,
         co = concat groups /\
         Forall2 (fun shipment_id g =>
                    1 <= len g <= 4 /\
                    Forall (fun row => container_shipment_id row = shipment_id) g)
                 shipment_ids groups).
Proof.
  intros r w'.
  destruct (populate_containers_spec shipment_ids vessel_ids w) as (co & Hstep & Hok & Hret).
  exists co. split; [by apply entity_step_container_rows|]. split.
  - eapply Forall_impl; [exact Hok|]. by intros row [? _ ? ? ?].
  - intros count Hr. destruct (Hret count Hr) as (-> & groups & -> & Hgroups).
    split; [done|]. split.
    + apply containers_of_shipment_total in Hgroups. lia.
    + exists groups. split; [done|]. exact Hgroups.
Qed.

(** Whatever happens in the shipment stage, each row it adds to
    [shipment] belongs to one of the given clients and declares a value
    from 1000 up to, but not including, 101000.  When the stage returns,
    the ids it returns are those of the rows added, in their order, and
    the rows come in groups, one for each client in the order given,
    each of between two and five rows that all belong to that client. *)
Theorem populate_shipments_rows (w : World) (client_ids : list Z) (ports : list string) :
  let r := (populate_shipments client_ids ports w).1 in
  let w' := (populate_shipments client_ids ports w).2 in
  exists sh,
    shipment_rows (pending (conn w')) = shipment_rows (pending (conn w)) ++ sh /\
    Forall (fun row =>
              shipment_client_id row ∈ client_ids /\
              1000 <= declared_value row < 101000)
           sh /\
    (forall shipment_ids, r = Ok shipment_ids ->
       shipment_ids = shipment_id <$> sh /\
       2 * len client_ids <= len shipment_ids <= 5 * len client_ids /\
       exists groups,
         sh = concat groups /\
         Forall2 (fun client_id g =>
                    2 <= len g <= 5 /\
                    Forall (fun row => shipment_client_id row = client_id) g)
                 client_ids groups).
Proof.
  intros r w'.
  destruct (populate_shipments_spec client_ids ports w) as (sh & Hstep & Hok & Hret).
  exists sh. split; [by apply entity_step_shipment_rows|]. split.
  - eapply Forall_impl; [exact Hok|]. by intros row [? _ _ ?].
  - intros ids Hr. destruct (Hret ids Hr) as (-> & groups & -> & Hgroups).
    split; [done|]. split.
    + apply shipments_of_client_total in Hgroups.
      unfold len in *. rewrite length_fmap. lia.
    + exists groups. split; [done|]. exact Hgroups.
Qed.

(** No entity stage commits, asks the web, or changes a table other than
    its own, to which it only appends: whatever happens in a stage, what
    is committed, the web and the sequences of the lookup tables are as
    before, and the open transaction is the one before with rows added to
    the stage's table. *)
Theorem entity_stages_append_only (w : World) (companies ports : list string)
    (client_count : Z) (vessel_ids client_ids shipment_ids : list Z) :
  (exists cl, entity_step (only_clients cl) w (populate_clients companies w).2) /\
  (exists ve, entity_step (only_vessels ve) w (populate_vessels client_count w).2) /\
  (exists be, entity_step (only_berths be) w (populate_berths vessel_ids w).2) /\
  (exists sh, entity_step (only_shipments sh) w (populate_shipments client_ids ports w).2) /\
  (exists co, entity_step (only_containers co) w
                (populate_containers shipment_ids vessel_ids w).2).
Proof.
  split; [|split; [|split; [|split]]].
  - destruct (populate_clients_spec companies w) as (cl & H & _). by exists cl.
  - destruct (populate_vessels_spec client_count w) as (ve & H & _). by exists ve.
  - destruct (populate_berths_spec vessel_ids w) as (be & H & _). by exists be.
  - destruct (populate_shipments_spec client_ids ports w) as (sh & H & _). by exists sh.
  - destruct (populate_containers_spec shipment_ids vessel_ids w) as (co & H & _).
    by exists co.
Qed.

(** *** Clients and vessels *)

Lemma provide_yields (kind : string) (f : Faker) :
  yields (fun _ => True) (fake.provide kind f).1.
Proof. done. Qed.

Lemma random_element_yields {A} (elements : list A) (f : Faker) :
  elements <> [] -> yields (fun x => x ∈ elements) (fake.random_element elements f).1.
Proof.
  intros Hne. pose proof (random_element_elem elements f) as H.
  by destruct (fake.random_element elements f).1.
Qed.

Lemma random_int_yields (a b : Z) (f : Faker) :
  a <= b -> yields (fun v => a <= v <= b) (fake.random_int a b f).1.
Proof. intros Hab. simpl. lia. Qed.

Lemma random_number_5_fixed_yields (f : Faker) :
  yields (fun v => 10000 <= v <= 99999) (fake.random_number 5 true f).1.
Proof. simpl. lia. Qed.

Tactic Notation "faker_yield" constr(lem) "as" ident(v) ident(Hv) :=
  apply wp_bind; eapply wp_faker; [intros ?f; apply lem; solve [done | lia]|];
  intros [v|?e] ?f Hv; cbn [by_result yields] in *; [|done].

Lemma str_five_digits (n : Z) :
  10000 <= n <= 99999 ->
  Py.str n =
    String (Py.digit_char (n / 10000 mod 10))
   (String (Py.digit_char (n / 1000 mod 10))
   (String (Py.digit_char (n / 100 mod 10))
   (String (Py.digit_char (n / 10 mod 10))
   (String (Py.digit_char (n mod 10)) "")))).
Proof.
  intros Hn. rewrite (str_fuel n 5) by (simpl; lia).
  unfold Py.str_digits.
  repeat match goal with
  | |- context [?q =? 0] =>
      destruct (Z.eqb_spec q 0) as [?|_]; [exfalso; lia|]
  end.
  replace (n / 10 / 10) with (n / 100) by lia.
  replace (n / 100 / 10) with (n / 1000) by lia.
  replace (n / 1000 / 10) with (n / 10000) by lia.
  destruct (Z.eqb_spec (n / 10000 / 10) 0) as [_|?]; [done | exfalso; lia].
Qed.

Lemma entity_step_client_rows (cl : list client_row) (w w' : World) :
  entity_step (only_clients cl) w w' ->
  client_rows (pending (conn w')) = client_rows (pending (conn w)) ++ cl.
Proof. intros H. by rewrite (step_pending _ _ _ H). Qed.

Lemma entity_step_vessel_rows (ve : list vessel_row) (w w' : World) :
  entity_step (only_vessels ve) w w' ->
  vessel_rows (pending (conn w')) = vessel_rows (pending (conn w)) ++ ve.
Proof. intros H. by rewrite (step_pending _ _ _ H). Qed.

Lemma NoDup_snoc_fresh (ids : list Z) (next : Z) :
  NoDup ids -> Forall (fun id => id < next) ids ->
  NoDup (ids ++ [next]) /\ Forall (fun id => id < next + 1) (ids ++ [next]).
Proof.
  intros Hnd Hlt. split.
  - apply NoDup_app. split; [done|]. split; [|apply NoDup_singleton].
    intros x Hx. rewrite list_elem_of_singleton. intros ->.
    rewrite Forall_forall in Hlt. specialize (Hlt _ Hx). lia.
  - apply Forall_app. split.
    + eapply Forall_impl; [exact Hlt|]. simpl. intros; lia.
    + apply Forall_singleton. lia.
Qed.

Lemma populate_clients_run (w : World) (companies : list string) :
  wp (populate_clients companies)
     (fun r w' => exists cl, entity_step (only_clients cl) w w' /\
        company_name <$> cl `prefix_of` companies /\
        NoDup (client_id <$> cl) /\
        (forall client_ids, r = Ok client_ids ->
           company_name <$> cl = companies /\ client_ids = client_id <$> cl) /\
        (forall e, r = Raise e -> e = DatabaseError /\ ~ fault_free (conn w))) w.
Proof.
  unfold populate_clients. apply wp_bind.
  eapply wp_mono.
  { apply wp_for_each with
      (I := fun i (acc : list Z) s =>
              exists cl, entity_step (only_clients cl) w s /\
                company_name <$> cl = take i companies /\ acc = client_id <$> cl /\
                NoDup acc /\ Forall (fun id => id < sequences (conn s) client) acc)
      (E := fun e s =>
              exists cl, entity_step (only_clients cl) w s /\
                company_name <$> cl `prefix_of` companies /\
                NoDup (client_id <$> cl) /\
                e = DatabaseError /\ ~ fault_free (conn w)).
    - exists []. split; [apply entity_step_refl|]. rewrite take_0.
      repeat split; try done; constructor.
    - intros i company acc s Hi (cl & Hstep & Hnames & Hacc & Hnd & Hlt).
      faker_yield (provide_yields "name") as contact Hc.
      faker_yield (provide_yields "company_email") as mail Hm.
      faker_yield (provide_yields "phone_number") as phone_no Hp.
      apply wp_bind.
      eapply wp_execute_entity; [done | by do 3 apply entity_step_set_fake | |].
      + intros s' Hs' Hseq Hff. exists cl. split; [done|].
        split; [rewrite Hnames; apply prefix_take|]. by subst acc.
      + intros s' Hs' Hseq. apply wp_bind, wp_fetchone_0.
        * intros id [= <-]. simpl. apply wp_ret. simpl.
          eexists. split; [exact Hs'|]. simpl.
          rewrite Hseq. simpl. unfold nextval. rewrite decide_True by done.
          rewrite !fmap_app, Hnames, <- Hacc. simpl.
          split; [by rewrite (take_S_r _ _ _ Hi)|]. split; [done|].
          by apply NoDup_snoc_fresh.
        * intros Hno. exfalso. simpl in Hno. by eapply Hno. }
  intros [ids|e] s'; simpl.
  - intros (cl & Hstep & Hnames & Hacc & Hnd & _). apply wp_ret.
    exists cl. rewrite firstn_all in Hnames. split; [done|].
    split; [by rewrite Hnames|]. split; [by subst ids|].
    split; [by intros ? [= <-] | done].
  - intros (cl & Hstep & Hpre & Hnd & -> & Hff). exists cl.
    split; [done|]. split; [done|]. split; [done|].
    split; [done | by intros ? [= <-]].
Qed.

(** Whatever happens in the client stage, the rows it adds to [client]
    carry the first company names given, one row for each, in their
    order, and pairwise distinct ids.  The stage stops early only when
    the store refuses a statement; when it returns, every company has its
    row and the ids returned are those of the rows, in their order. *)
Theorem populate_clients_rows (w : World) (companies : list string) :
  let r := (populate_clients companies w).1 in
  let w' := (populate_clients companies w).2 in
  exists cl,
    client_rows (pending (conn w')) = client_rows (pending (conn w)) ++ cl /\
    company_name <$> cl `prefix_of` companies /\
    NoDup (client_id <$> cl) /\
    (forall client_ids, r = Ok client_ids ->
       company_name <$> cl = companies /\ client_ids = client_id <$> cl) /\
    (forall e, r = Raise e -> e = DatabaseError /\ ~ fault_free (conn w)).
Proof.
  intros r w'.
  destruct (populate_clients_run w companies) as (cl & Hstep & H).
  exists cl. split; [|exact H]. by apply entity_step_client_rows.
Qed.

Lemma imo_number_format (serial : Z) :
  10000 <= serial <= 99999 ->
  String.length ("98" +:+ Py.str serial) = 7%nat /\
  String.prefix "98" ("98" +:+ Py.str serial) = true /\
  all_digits ("98" +:+ Py.str serial) = true.
Proof.
  intros Hs. rewrite (str_five_digits serial Hs).
  split; [done|]. split; [done|].
  unfold all_digits. simpl.
  rewrite !digit_char_is_decimal by lia. done.
Qed.

Lemma populate_vessels_run (w : World) (client_count : Z) :
  wp (populate_vessels client_count)
     (fun r w' => exists ve, entity_step (only_vessels ve) w w' /\
        Forall vessel_ok ve /\
        NoDup (vessel_id <$> ve) /\
        (forall vessel_ids, r = Ok vessel_ids ->
           vessel_ids = vessel_id <$> ve /\ length ve = Z.to_nat (3 * client_count)) /\
        (forall e, r = Raise e -> e = DatabaseError /\ ~ fault_free (conn w))) w.
Proof.
  unfold populate_vessels. apply wp_bind.
  eapply wp_mono.
  { apply wp_for_each with
      (I := fun i (acc : list Z) s =>
              exists ve, entity_step (only_vessels ve) w s /\
                Forall vessel_ok ve /\ length ve = i /\ acc = vessel_id <$> ve /\
                NoDup acc /\ Forall (fun id => id < sequences (conn s) vessel) acc)
      (E := fun e s =>
              exists ve, entity_step (only_vessels ve) w s /\
                Forall vessel_ok ve /\ NoDup (vessel_id <$> ve) /\
                e = DatabaseError /\ ~ fault_free (conn w)).
    - exists []. split; [apply entity_step_refl|].
      repeat split; try done; constructor.
    - intros i _ acc s _ (ve & Hstep & Hok & Hve & Hacc & Hnd & Hlt).
      faker_yield (random_element_yields vessel_prefixes) as prefix Hprefix.
      faker_yield (random_element_yields vessel_suffixes) as suffix Hsuffix.
      faker_yield (random_int_yields 100 999) as number Hnumber.
      faker_yield random_number_5_fixed_yields as serial Hserial.
      apply wp_bind.
      eapply wp_execute_entity; [done | by do 4 apply entity_step_set_fake | |].
      + intros s' Hs' Hseq Hff. exists ve. split; [done|]. by subst acc.
      + intros s' Hs' Hseq. apply wp_bind, wp_fetchone_0.
        * intros id [= <-]. simpl. apply wp_ret. simpl.
          eexists. split; [exact Hs'|]. simpl.
          rewrite Hseq. simpl. unfold nextval. rewrite decide_True by done.
          rewrite fmap_app, <- Hacc, length_app. simpl.
          split.
          { apply Forall_app. split; [done|]. apply Forall_singleton.
            destruct (imo_number_format serial Hserial) as (? & ? & ?).
            split; simpl; [|done..]. by exists prefix, suffix, number. }
          split; [lia|]. split; [done|]. by apply NoDup_snoc_fresh.
        * intros Hno. exfalso. simpl in Hno. by eapply Hno. }
  intros [ids|e] s'; simpl.
  - intros (ve & Hstep & Hok & Hlen & Hacc & Hnd & _). apply wp_ret.
    exists ve. split; [done|]. split; [done|]. split; [by subst ids|].
    split; [|done]. intros ? [= <-]. split; [done|].
    rewrite length_range in Hlen. rewrite Hlen. f_equal. lia.
  - intros (ve & Hstep & Hok & Hnd & -> & Hff). exists ve.
    split; [done|]. split; [done|]. split; [done|].
    split; [done | by intros ? [= <-]].
Qed.

(** Whatever happens in the vessel stage, each row it adds to [vessel]
    is named by one of the five prefixes, one of the five suffixes and a
    number from 100 to 999, separated by spaces, and has an IMO number of
    seven decimal digits that starts with 98; the ids of the rows are
    pairwise distinct.  The stage stops early only when the store refuses
    a statement; when it returns, it has added three rows for every
    client, none for a count that is not positive, and returns their
    ids. *)
Theorem populate_vessels_rows (w : World) (client_count : Z) :
  let r := (populate_vessels client_count w).1 in
  let w' := (populate_vessels client_count w).2 in
  exists ve,
    vessel_rows (pending (conn w')) = vessel_rows (pending (conn w)) ++ ve /\
    Forall vessel_ok ve /\
    NoDup (vessel_id <$> ve) /\
    (forall vessel_ids, r = Ok vessel_ids ->
       vessel_ids = vessel_id <$> ve /\ length ve = Z.to_nat (3 * client_count)) /\
    (forall e, r = Raise e -> e = DatabaseError /\ ~ fault_free (conn w)).
Proof.
  intros r w'.
  destruct (populate_vessels_run w client_count) as (ve & Hstep & H).
  exists ve. split; [|exact H]. by apply entity_step_vessel_rows.
Qed.

(** *** Missing statuses and ports *)

Lemma dict_of_rows_None (rows : list (string * Z)) (k : string) :
  k ∉ rows.*1 -> dict_of_rows rows !! k = None.
Proof.
  intros Hk. destruct (dict_of_rows rows !! k) as [v|] eqn:Hv; [|done].
  exfalso. apply Hk. apply dict_of_rows_lookup_Some in Hv.
  apply list_elem_of_fmap. by exists (k, v).
Qed.

Lemma selected_dict_None (T : Tables) (l : lookup_table) (name : string) :
  name ∉ (lookup_rows l T).*2 ->
  dict_of_rows (map (fun r => (r.2, r.1)) (lookup_rows l T)) !! name = None.
Proof.
  intros H. apply dict_of_rows_None. intros Hin. apply H.
  rewrite <- list_fmap_compose in Hin.
  apply list_elem_of_fmap in Hin as (r & -> & Hr).
  apply list_elem_of_fmap. by exists r.
Qed.

(** With fewer than twenty vessels and no AVAILABLE row in BerthStatus,
    the berth stage ends with a KeyError, on a store that answers every
    statement: by then it has entered one berth for each vessel, and
    nothing is committed. *)
Theorem populate_berths_missing_status (w : World) (vessel_ids : list Z) :
  let r := (populate_berths vessel_ids w).1 in
  let w' := (populate_berths vessel_ids w).2 in
  fault_free (conn w) ->
  (length vessel_ids < 20)%nat ->
  (vessel_ids <> [] -> "OCCUPIED" ∈ (BerthStatus_rows (pending (conn w))).*2) ->
  "AVAILABLE" ∉ (BerthStatus_rows (pending (conn w))).*2 ->
  r = Raise KeyError /\
  committed (conn w') = committed (conn w) /\
  exists be,
    berth_rows (pending (conn w')) = berth_rows (pending (conn w)) ++ be /\
    length be = length vessel_ids.
Proof.
  intros r w' Hff Hlen Hocc Havail. subst r w'.
  set (T := pending (conn w)).
  cut (wp (populate_berths vessel_ids)
         (fun r s => r = Raise KeyError /\
            exists be, entity_step (only_berths be) w s /\
                       length be = length vessel_ids) w).
  { intros (Hr & be & Hstep & Hbe). split; [done|].
    split; [by destruct Hstep|]. exists be. split; [|done].
    by apply entity_step_berth_rows. }
  unfold populate_berths.
  apply wp_bind.
  eapply wp_execute_entity; [done | apply entity_step_refl | |].
  { intros s _ _ Hnff. done. }
  intros s Hs Hseq. cbn [by_result].
  apply wp_bind, wp_fetchall; [|intros Hno; exfalso; simpl in Hno; by eapply Hno].
  intros rows [= <-]. cbn [by_result]. fold T.
  apply wp_bind. eapply wp_mono.
  { apply wp_for_each with
      (I := fun i (_ : list Z) s =>
              exists be, entity_step (only_berths be) w s /\
                         length be = i /\ (i <= length vessel_ids)%nat)
      (E := fun e s =>
              e = KeyError /\
              exists be, entity_step (only_berths be) w s /\
                         length be = length vessel_ids).
    - exists []. split; [exact Hs|]. split; [done | lia].
    - intros i x acc s' Hi (be & Hstep & Hbe & Hle).
      apply range2_lookup in Hi. subst x. unfold len.
      destruct (Z.leb_spec (1 + Z.of_nat i) (Z.of_nat (length vessel_ids))) as [Hin|Hout].
      + apply wp_bind, wp_subscript.
        2:{ intros Hnone. exfalso.
            destruct (selected_dict_is_Some T BerthStatus "OCCUPIED") as [v Hv];
              [apply Hocc; intros ->; simpl in Hin; lia|].
            simpl in Hv. rewrite Hv in Hnone. done. }
        intros status_id _. cbn [by_result].
        apply wp_bind.
        eapply wp_execute_entity; [done | exact Hstep | |].
        { intros s'' _ _ Hnff. done. }
        intros s'' Hs'' _. cbn [by_result].
        apply wp_bind, wp_fetchone_0;
          [|intros Hno; exfalso; simpl in Hno; by eapply Hno].
        intros id _. cbn [by_result]. apply wp_ret. cbn [by_result].
        eexists. split; [exact Hs''|]. simpl. rewrite length_app. simpl.
        split; lia.
      + apply wp_bind, wp_subscript.
        { intros v Hv. exfalso.
          pose proof (selected_dict_None T BerthStatus "AVAILABLE" Havail) as Hn.
          simpl in Hn. rewrite Hn in Hv. done. }
        intros _. cbn [by_result]. split; [done|].
        exists be. split; [done|]. lia. }
  intros [ids|e] s'; cbn [by_result]; [|by intros [-> ?]].
  intros (be & _ & _ & Hle). exfalso.
  change (length (range2 1 21)) with 20%nat in Hle. lia.
Qed.

Lemma populate_berths_missing_status_witness :
  (populate_berths [7; 8] occupied_only_world).1 = Raise KeyError /\
  committed (conn (populate_berths [7; 8] occupied_only_world).2) =
    committed (conn occupied_only_world) /\
  exists be,
    berth_rows (pending (conn (populate_berths [7; 8] occupied_only_world).2)) =
      berth_rows (pending (conn occupied_only_world)) ++ be /\
    length be = length [7; 8].
Proof.
  assert (H1 : fault_free (conn occupied_only_world)) by (intros k s; reflexivity).
  assert (H2 : (length [7; 8] < 20)%nat) by (simpl; lia).
  assert (H3 : [7; 8] <> [] ->
               "OCCUPIED" ∈ (BerthStatus_rows (pending (conn occupied_only_world))).*2)
    by (intros _; apply list_elem_of_here).
  assert (H4 : "AVAILABLE" ∉ (BerthStatus_rows (pending (conn occupied_only_world))).*2).
  { apply not_elem_of_cons. split; [discriminate | apply not_elem_of_nil]. }
  pose proof (populate_berths_missing_status occupied_only_world [7; 8] H1 H2 H3 H4) as P.
  exact P.
Defined.

Lemma random_elements_unique_too_few {A} (elements : list A) (length : nat) (f : Faker) :
  (List.length elements < length)%nat ->
  (fake.random_elements_unique elements length f).1 = Raise ValueError.
Proof.
  intros H. unfold fake.random_elements_unique.
  destruct (Nat.ltb_spec (List.length elements) length) as [_|?]; [done | lia].
Qed.

Lemma populate_shipments_too_few_ports_run (w : World) (client_ids : list Z)
    (ports : list string) :
  fault (conn w) (executed (conn w)) (SELECT_lookup ShipmentStatus) = false ->
  client_ids <> [] ->
  (length ports < 2)%nat ->
  wp (populate_shipments client_ids ports)
     (fun r s => r = Raise ValueError /\
                 pending (conn s) = pending (conn w) /\
                 committed (conn s) = committed (conn w)) w.
Proof.
  intros Hfault Hclients Hports.
  unfold populate_shipments.
  apply wp_bind, wp_execute; [by rewrite Hfault|]. intros _. cbn [by_result].
  apply wp_bind, wp_fetchall; [|intros Hno; exfalso; simpl in Hno; by eapply Hno].
  intros rows _. cbn [by_result].
  destruct client_ids as [|client_id rest]; [done|].
  apply wp_bind. cbn [for_each]. apply wp_bind, wp_bind.
  eapply wp_faker; [intros f; apply (random_int_yields 2 5); lia|].
  intros [count|e] f Hcount; cbn [by_result yields] in *; [|done].
  unfold range. destruct (Z.to_nat count) as [|n] eqn:Hn; [lia|].
  cbn [seq map for_each]. apply wp_bind, wp_bind.
  eapply wp_faker with (V := fun r => r = Raise ValueError).
  { intros f'. by apply random_elements_unique_too_few. }
  intros r f' ->. cbn [by_result]. done.
Qed.

(** With at least one client and fewer than two ports, the shipment
    stage ends with a ValueError as soon as its SELECT is answered: no
    row is added and nothing is committed. *)
Theorem populate_shipments_too_few_ports (w : World) (client_ids : list Z)
    (ports : list string) :
  let r := (populate_shipments client_ids ports w).1 in
  let w' := (populate_shipments client_ids ports w).2 in
  fault (conn w) (executed (conn w)) (SELECT_lookup ShipmentStatus) = false ->
  client_ids <> [] ->
  (length ports < 2)%nat ->
  r = Raise ValueError /\
  pending (conn w') = pending (conn w) /\
  committed (conn w') = committed (conn w).
Proof.
  intros r w' Hfault Hclients Hports.
  exact (populate_shipments_too_few_ports_run w client_ids ports Hfault Hclients Hports).
Qed.

Lemma populate_shipments_too_few_ports_witness :
  (populate_shipments [1] ["Shanghai"] seeded_world).1 = Raise ValueError /\
  pending (conn (populate_shipments [1] ["Shanghai"] seeded_world).2) =
    pending (conn seeded_world) /\
  committed (conn (populate_shipments [1] ["Shanghai"] seeded_world).2) =
    committed (conn seeded_world).
Proof.
  assert (H1 : fault (conn seeded_world) (executed (conn seeded_world))
                 (SELECT_lookup ShipmentStatus) = false)
    by apply seeded_world_fault_free.
  assert (H2 : [1] <> []) by discriminate.
  assert (H3 : (length ["Shanghai"] < 2)%nat) by (simpl; lia).
  pose proof (populate_shipments_too_few_ports seeded_world [1] ["Shanghai"] H1 H2 H3) as P.
  exact P.
Defined.

(** *** Bills of lading *)

Lemma wp_faker_seen {A} (m : M Faker A) (Q : result A -> World -> Prop) (w : World) :
  (forall f, unique_seen (m f).2 = unique_seen f) ->
  (forall r w', same_store w w' -> Q r w') ->
  wp (faker m) Q w.
Proof.
  intros Hm HQ. apply wp_lift. unfold wp. apply HQ.
  split; [done|]. split; [done|]. apply Hm.
Qed.

Lemma same_store_entity_step (b : Batch) (w0 w w' : World) :
  same_store w w' -> entity_step b w0 w -> entity_step b w0 w'.
Proof. intros (Hc & Hn & _) []. split; by rewrite ?Hc, ?Hn. Qed.

Lemma random_int_seen (a b : Z) (f : Faker) :
  unique_seen (fake.random_int a b f).2 = unique_seen f.
Proof. reflexivity. Qed.

Lemma random_number_seen (digits : Z) (fix_len : bool) (f : Faker) :
  unique_seen (fake.random_number digits fix_len f).2 = unique_seen f.
Proof.
  unfold fake.random_number.
  destruct (digits <? 0); [done|]. destruct fix_len; [|done].
  by destruct (0 <? digits).
Qed.

Lemma random_element_seen {A} (elements : list A) (f : Faker) :
  unique_seen (fake.random_element elements f).2 = unique_seen f.
Proof.
  destruct elements as [|y l]; [done|].
  unfold fake.random_element, mbind, M_bind, fake.next. cbv beta iota.
  by destruct ((y :: l) !! _).
Qed.

Lemma sample_seen {A} (length : nat) : forall (pool : list A) (f : Faker),
  unique_seen (fake.sample length pool f).2 = unique_seen f.
Proof.
  induction length as [|k IH]; intros pool f; [done|].
  cbn [fake.sample]. unfold mbind, M_bind, fake.next. cbv beta iota.
  destruct (pool !! _) as [x|]; [|done].
  destruct (last pool) as [y|]; [|done].
  match goal with |- context [fake.sample k ?p ?g] =>
    specialize (IH p g); destruct (fake.sample k p g) as [[rest|e] f2] end;
    exact IH.
Qed.

Lemma random_elements_unique_seen {A} (elements : list A) (length : nat) (f : Faker) :
  unique_seen (fake.random_elements_unique elements length f).2 = unique_seen f.
Proof.
  unfold fake.random_elements_unique.
  destruct (_ <? _)%nat; [done|]. apply sample_seen.
Qed.

(** [bothify] returns, with a digit in the place of every [#]. *)
Lemma bothify_spec (text : string) : forall f,
  exists s f',
    fake.bothify text f = (Ok s, f') /\ bothified text s = true /\
    unique_seen f' = unique_seen f.
Proof.
  induction text as [|c text IH]; intros f; [by exists "", f|].
  cbn [fake.bothify]. destruct (Ascii.eqb_spec c "#") as [->|Hc].
  - unfold mbind, M_bind, fake.random_digit, fake.randint, fake.next.
    cbv beta iota. unfold mbind, M_bind, mret, M_ret. cbv beta iota.
    match goal with |- context [fake.bothify text ?g] =>
      destruct (IH g) as (s & f' & -> & Hs & Hseen) end.
    eexists _, f'. split; [reflexivity|]. split; [|done].
    cbn [bothified]. simpl Ascii.eqb. cbv iota. rewrite Hs, andb_true_r.
    apply digit_char_is_decimal. lia.
  - unfold mbind, M_bind.
    destruct (IH f) as (s & f' & -> & Hs & Hseen).
    eexists _, f'. split; [reflexivity|]. split; [|done].
    cbn [bothified]. destruct (Ascii.eqb_spec c "#") as [?|_]; [done|].
    by rewrite Ascii.eqb_refl, Hs.
Qed.

(** Faker's loop for unique values: a value it returns was not returned
    before and is recorded; when it gives up nothing is recorded. *)
Lemma unique_loop_spec (text : string) (attempts : nat) : forall retval f,
  (forall v, retval = Some v -> bothified text v = true) ->
  match fake.unique_loop attempts text retval f with
  | (Ok v, f') =>
      (v ∉ unique_seen f) /\ unique_seen f' = v :: unique_seen f /\
      bothified text v = true
  | (Raise _, f') => unique_seen f' = unique_seen f
  end.
Proof.
  induction attempts as [|k IH]; intros retval f Hret; [done|].
  cbn [fake.unique_loop].
  assert (Hretry :
    match (v' ← fake.bothify text; fake.unique_loop k text (Some v')) f with
    | (Ok v, f') =>
        (v ∉ unique_seen f) /\ unique_seen f' = v :: unique_seen f /\
        bothified text v = true
    | (Raise _, f') => unique_seen f' = unique_seen f
    end).
  { unfold mbind, M_bind.
    destruct (bothify_spec text f) as (s & f1 & -> & Hs & Hseen).
    specialize (IH (Some s) f1 ltac:(by intros ? [= <-])).
    destruct (fake.unique_loop k text (Some s) f1) as [[v|e] f2].
    - by rewrite <- Hseen.
    - by rewrite <- Hseen. }
  destruct retval as [v|]; [|exact Hretry].
  case_bool_decide as Hv; [exact Hretry|].
  split; [done|]. split; [done|]. by apply Hret.
Qed.

Lemma wp_unique_bothify (text : string) (Q : result string -> World -> Prop) (w : World) :
  (forall v w',
     v ∉ unique_seen (fake w) -> bothified text v = true ->
     conn w' = conn w -> net w' = net w ->
     unique_seen (fake w') = v :: unique_seen (fake w) ->
     Q (Ok v) w') ->
  (forall e w', same_store w w' -> Q (Raise e) w') ->
  wp (faker (fake.unique_bothify text)) Q w.
Proof.
  intros Hok Hraise. apply wp_lift. unfold wp, fake.unique_bothify.
  pose proof (unique_loop_spec text fake._UNIQUE_ATTEMPTS None (fake w)
                ltac:(done)) as H.
  destruct (fake.unique_loop _ _ _ _) as [[v|e] f'].
  - destruct H as (Hv & Hseen & Hfmt). by apply Hok.
  - apply Hraise. by split.
Qed.

Lemma entity_step_same_conn (b : Batch) (w0 w w' : World) :
  conn w' = conn w -> net w' = net w -> entity_step b w0 w -> entity_step b w0 w'.
Proof. intros Hc Hn []. split; by rewrite ?Hc, ?Hn. Qed.

(** A statement of an entity stage leaves the generator alone. *)
Lemma wp_execute_entity_fake (st : statement) (b : Batch) (w0 w : World)
    (Q : result query_result -> World -> Prop) :
  entity_statement st = true ->
  entity_step b w0 w ->
  (forall w', entity_step b w0 w' -> fake w' = fake w -> Q (Raise DatabaseError) w') ->
  (forall w', entity_step (batch_app b (inserted st (sequences (conn w)))) w0 w' ->
     fake w' = fake w ->
     Q (Ok (run st (sequences (conn w)) (pending (conn w))).1.1) w') ->
  wp (db (db_conn.execute st)) Q w.
Proof.
  intros Hst Hstep Hraise Hok.
  destruct (run_entity_statement st (sequences (conn w)) (pending (conn w)) Hst)
    as [Hrows Hseq].
  apply wp_execute.
  - intros Hf. apply Hraise; [by destruct Hstep | done].
  - intros _. apply Hok; [|done].
    apply entity_step_trans with w; [done|].
    split; simpl; try done.
Qed.

(** The rows [sh] carry bills of lading that are pairwise distinct, made
    after the pattern, not among the values [before] and all among the
    values [seen]. *)
Lemma bills_snoc (before seen : list string) (sh : list shipment_row)
    (row : shipment_row) :
  let good := fun (seen : list string) (sh : list shipment_row) =>
    NoDup (bill_of_lading_no <$> sh) /\
    Forall (fun row => bothified "BLD#########" (bill_of_lading_no row) = true /\
                       (bill_of_lading_no row ∉ before) /\
                       bill_of_lading_no row ∈ seen) sh in
  (forall b, b ∈ before -> b ∈ seen) ->
  good seen sh ->
  bothified "BLD#########" (bill_of_lading_no row) = true ->
  bill_of_lading_no row ∉ seen ->
  good (bill_of_lading_no row :: seen) sh /\
  good (bill_of_lading_no row :: seen) (sh ++ [row]).
Proof.
  intros good Hsub [Hnd Hall] Hfmt Hnew.
  assert (Hmono : Forall (fun row0 =>
            bothified "BLD#########" (bill_of_lading_no row0) = true /\
            (bill_of_lading_no row0 ∉ before) /\
            bill_of_lading_no row0 ∈ bill_of_lading_no row :: seen) sh).
  { eapply Forall_impl; [exact Hall|]. intros r (? & ? & ?).
    split; [done|]. split; [done|]. by right. }
  split; [by split|]. split.
  - rewrite fmap_app. apply NoDup_app. split; [done|].
    split; [|apply NoDup_singleton].
    intros b Hb. simpl. rewrite list_elem_of_singleton. intros ->.
    apply Hnew. apply list_elem_of_fmap in Hb as (r & -> & Hr).
    rewrite Forall_forall in Hall. by destruct (Hall r Hr) as (_ & _ & ?).
  - apply Forall_app. split; [done|]. apply Forall_singleton.
    split; [done|]. split; [|by left]. intros Hb. by apply Hnew, Hsub.
Qed.

(** Whatever happens in the shipment stage, the bills of lading of the
    rows it adds to [shipment] are pairwise distinct, are the letters BLD
    followed by nine decimal digits, and are none of the unique values
    the generator had handed out before. *)
Theorem populate_shipments_bills (w : World) (client_ids : list Z)
    (ports : list string) :
  let w' := (populate_shipments client_ids ports w).2 in
  exists sh,
    shipment_rows (pending (conn w')) = shipment_rows (pending (conn w)) ++ sh /\
    NoDup (bill_of_lading_no <$> sh) /\
    Forall (fun row => bothified "BLD#########" (bill_of_lading_no row) = true /\
                       bill_of_lading_no row ∉ unique_seen (fake w)) sh.
Proof.
  intros w'. subst w'.
  set (before := unique_seen (fake w)).
  set (good := fun (seen : list string) (sh : list shipment_row) =>
    NoDup (bill_of_lading_no <$> sh) /\
    Forall (fun row => bothified "BLD#########" (bill_of_lading_no row) = true /\
                       (bill_of_lading_no row ∉ before) /\
                       bill_of_lading_no row ∈ seen) sh).
  set (K := fun s : World =>
    exists sh seen, entity_step (only_shipments sh) w s /\
      seen = unique_seen (fake s) /\
      (forall b, b ∈ before -> b ∈ seen) /\ good seen sh).
  cut (wp (populate_shipments client_ids ports) (fun _ s => K s) w).
  { intros (sh & seen & Hstep & _ & _ & Hnd & Hall). exists sh.
    split; [by apply entity_step_shipment_rows|]. split; [done|].
    eapply Forall_impl; [exact Hall|]. by intros r (? & ? & _). }
  assert (HK : forall sh seen s, entity_step (only_shipments sh) w s ->
            seen = unique_seen (fake s) -> (forall b, b ∈ before -> b ∈ seen) ->
            good seen sh -> K s).
  { intros sh seen s ? ? ? ?. by exists sh, seen. }
  assert (Hfaker : forall {A B} (m : M Faker A) (k : A -> M World B) s,
            (forall f, unique_seen (m f).2 = unique_seen f) ->
            K s ->
            (forall a s', K s' -> wp (k a) (fun _ s => K s) s') ->
            wp (faker m ≫= k) (fun _ s => K s) s).
  { intros A B m k s Hm (sh & seen & Hstep & Hseen & Hsub & Hgood) Hk.
    apply wp_bind, wp_faker_seen; [exact Hm|].
    intros r s' Hsame.
    assert (K s') as HKs'.
    { apply (HK sh seen); [by eapply same_store_entity_step | | done | done].
      destruct Hsame as (_ & _ & ->). done. }
    destruct r as [a|e]; cbn [by_result]; [by apply Hk | done]. }
  unfold populate_shipments.
  apply wp_bind.
  eapply wp_execute_entity_fake; [done | apply entity_step_refl | |].
  { intros s Hs Hf. cbn [by_result]. apply (HK [] before); [done | by rewrite Hf | done|].
    split; constructor. }
  intros s Hs Hf. cbn [by_result].
  assert (K s) as HKs.
  { apply (HK [] before); [done | by rewrite Hf | done|]. split; constructor. }
  clear Hs Hf.
  apply wp_bind, wp_fetchall; [|done].
  intros rows _. cbn [by_result].
  set (status_ids := dict_of_rows rows).
  apply wp_bind. eapply wp_mono.
  { apply wp_for_each with (I := fun _ (_ : list Z) s => K s) (E := fun _ s => K s);
      [exact HKs|].
    intros i client_id acc s0 _ HK0.
    apply wp_mono with (Q := fun _ s => K s); [|by intros [|]].
    apply Hfaker; [apply random_int_seen | exact HK0|].
    intros count s1 HK1.
    apply wp_mono with (Q := by_result (fun (_ : list Z) s => K s) (fun _ s => K s));
      [|by intros [|]].
    apply wp_for_each with (I := fun _ (_ : list Z) s => K s) (E := fun _ s => K s);
      [exact HK1|].
    intros j _ acc1 s2 _ HK2.
    apply wp_mono with (Q := fun _ s => K s); [|by intros [|]].
    apply Hfaker; [apply random_elements_unique_seen | exact HK2|].
    intros pair s3 HK3.
    destruct pair as [|o [|d [|x rest]]]; try (by apply wp_raise).
    apply Hfaker; [apply random_element_seen | exact HK3|].
    intros status s4 HK4.
    apply wp_bind, wp_subscript; [|done].
    intros status_id _. cbn [by_result].
    destruct HK4 as (sh & seen & Hstep & Hseen & Hsub & Hgood).
    apply wp_bind, wp_unique_bothify.
    2:{ intros e s5 Hsame. cbn [by_result].
        apply (HK sh seen); [by eapply same_store_entity_step | | done | done].
        destruct Hsame as (_ & _ & ->). done. }
    intros bill s5 Hnew Hfmt Hconn Hnet Hseen5. cbn [by_result].
    rewrite <- Hseen in Hnew, Hseen5.
    pose (row := fun id value => {| shipment_id := id; shipment_client_id := client_id;
                    shipment_status_id := status_id; bill_of_lading_no := bill;
                    origin := o; destination := d; declared_value := value |}).
    assert (Hsub5 : forall b, b ∈ before -> b ∈ bill :: seen).
    { intros b Hb. right. by apply Hsub. }
    assert (Hrows : forall id value,
              good (bill :: seen) sh /\ good (bill :: seen) (sh ++ [row id value])).
    { intros id value.
      apply (bills_snoc before seen sh (row id value) Hsub Hgood Hfmt Hnew). }
    assert (Hstep5 : entity_step (only_shipments sh) w s5)
      by (by eapply entity_step_same_conn).
    apply wp_bind, wp_faker_seen; [apply random_number_seen|].
    intros r s6 Hsame.
    assert (Hstep6 : entity_step (only_shipments sh) w s6)
      by (by eapply same_store_entity_step).
    assert (Hseen6 : bill :: seen = unique_seen (fake s6))
      by (destruct Hsame as (_ & _ & ->); done).
    destruct r as [value|e]; cbn [by_result];
      [|apply (HK sh (bill :: seen)); [done | done | done | apply (Hrows 0 0)]].
    apply wp_bind.
    eapply wp_execute_entity_fake; [done | exact Hstep6 | |].
    { intros s7 Hstep7 Hf7. cbn [by_result].
      apply (HK sh (bill :: seen)); [done | by rewrite Hf7 | done | apply (Hrows 0 0)]. }
    intros s7 Hstep7 Hf7. cbn [by_result].
    assert (K s7) as HK7.
    { apply (HK (sh ++ [row (sequences (conn s6) shipment) (value + 1000)]) (bill :: seen));
        [exact Hstep7 | by rewrite Hf7 | done | apply Hrows]. }
    apply wp_bind, wp_fetchone_0; [|done].
    intros id _. cbn [by_result]. by apply wp_ret. }
  intros [ids|e] s'; cbn [by_result]; [|done]. intros HK'. by apply wp_ret.
Qed.

(** *** When the stages complete *)

Lemma in_stage_refl (w : World) : in_stage w w.
Proof. exists no_rows. apply entity_step_refl. Qed.

(** A draw that cannot fail, in a stage. *)
Lemma wp_faker_in_stage {A B} (m : M Faker A) (P : A -> Prop) (k : A -> M World B)
    (Q : result B -> World -> Prop) (w s : World) :
  (forall f, yields P (m f).1) ->
  in_stage w s ->
  (forall a s', P a -> in_stage w s' -> wp (k a) Q s') ->
  wp (faker m ≫= k) Q s.
Proof.
  intros Hm [b Hb] Hk. apply wp_bind. eapply wp_faker; [exact Hm|].
  intros [a|e] f Ha; cbn [by_result yields] in *; [|done].
  apply Hk; [done|]. exists b. by apply entity_step_set_fake.
Qed.

(** A statement of a stage, on a store that answers every statement. *)
Lemma wp_execute_in_stage {B} (st : statement) (k : query_result -> M World B)
    (Q : result B -> World -> Prop) (w s : World) :
  entity_statement st = true ->
  fault_free (conn w) ->
  in_stage w s ->
  (forall s', in_stage w s' ->
     wp (k (run st (sequences (conn s)) (pending (conn s))).1.1) Q s') ->
  wp (db (db_conn.execute st) ≫= k) Q s.
Proof.
  intros Hst Hff [b Hb] Hk. apply wp_bind.
  eapply wp_execute_entity; [done | exact Hb | by intros |].
  intros s' Hs' _. cbn [by_result]. apply Hk. by eexists.
Qed.

Lemma generate_container_number_yields (f : Faker) :
  yields (fun _ => True) (generate_container_number f).1.
Proof. by rewrite generate_container_number_draws. Qed.

Lemma random_number_5_yields (f : Faker) :
  yields (fun v => 0 <= v < 100000) (fake.random_number 5 false f).1.
Proof. simpl. lia. Qed.

(** From a list of two or more, two are sampled. *)
Lemma random_elements_unique_2_yields {A} (elements : list A) (f : Faker) :
  (2 <= length elements)%nat ->
  yields (fun chosen => exists o d, chosen = [o; d])
         (fake.random_elements_unique elements 2 f).1.
Proof.
  intros Hlen. unfold fake.random_elements_unique.
  destruct (Nat.ltb_spec (length elements) 2) as [?|_]; [lia|].
  unfold fake.sample, mbind, M_bind, fake.next, mret, M_ret. cbv beta iota.
  set (n := length elements).
  set (i := Z.to_nat (rng f (drawn f) `mod` Z.of_nat n)).
  assert (Hi : (i < n)%nat) by (unfold i; lia).
  destruct (lookup_lt_is_Some_2 elements i Hi) as [o ->].
  destruct (last elements) as [y|] eqn:Hy.
  2:{ apply last_None in Hy. subst elements. simpl in Hlen. lia. }
  set (pool := take (n - 1) (<[i:=y]> elements)).
  assert (Hpool : length pool = (n - 1)%nat).
  { unfold pool. rewrite length_take, length_insert. fold n. lia. }
  set (j := Z.to_nat (_ `mod` Z.of_nat (length pool))).
  assert (Hj : (j < length pool)%nat) by (unfold j; lia).
  destruct (lookup_lt_is_Some_2 pool j Hj) as [d ->].
  destruct (last pool) as [z|] eqn:Hz.
  2:{ apply last_None in Hz. rewrite Hz in Hpool. simpl in Hpool. lia. }
  simpl. by exists o, d.
Qed.

(** The loop for unique values gives up with one exception only. *)
Lemma unique_loop_ok_or (text : string) (attempts : nat) : forall retval f,
  ok_or UniquenessException (fake.unique_loop attempts text retval f).1.
Proof.
  induction attempts as [|k IH]; intros retval f; [done|].
  cbn [fake.unique_loop].
  assert (Hretry : ok_or UniquenessException
            ((v' ← fake.bothify text; fake.unique_loop k text (Some v')) f).1).
  { unfold mbind, M_bind.
    destruct (bothify_spec text f) as (s & f1 & -> & _). specialize (IH (Some s) f1).
    by destruct (fake.unique_loop k text (Some s) f1) as [[v|e] f2]. }
  destruct retval as [v|]; [|exact Hretry].
  by case_bool_decide.
Qed.

(** On a store that answers every statement and holds the four
    container types, the container stage completes. *)
Lemma populate_containers_succeeds (w : World) (shipment_ids vessel_ids : list Z) :
  fault_free (conn w) ->
  (forall name, name ∈ container_types ->
     name ∈ (ContainerType_rows (pending (conn w))).*2) ->
  wp (populate_containers shipment_ids vessel_ids)
     (fun r s => is_ok r /\ in_stage w s) w.
Proof.
  intros Hff Htypes. unfold populate_containers.
  apply (wp_execute_in_stage _ _ _ w); [done | done | apply in_stage_refl|].
  intros s Hs. apply wp_bind, wp_fetchall; [|intros Hno; exfalso; by eapply Hno].
  intros rows [= <-]. cbn [by_result].
  apply wp_bind. eapply wp_mono.
  { apply wp_for_each with
      (I := fun _ (_ : Z) s => in_stage w s) (E := fun _ _ => False); [exact Hs|].
    intros i shipment_id acc s0 _ Hs0.
    apply (wp_faker_in_stage _ _ _ _ w s0 (fun f => random_int_yields 1 4 f ltac:(lia)) Hs0).
    intros count s1 _ Hs1.
    apply wp_for_each with
      (I := fun _ (_ : Z) s => in_stage w s) (E := fun _ _ => False); [exact Hs1|].
    intros j _ acc1 s2 _ Hs2.
    apply (wp_faker_in_stage _ _ _ _ w s2
             (fun f => random_element_yields container_types f ltac:(done)) Hs2).
    intros ctype s3 Hctype Hs3.
    apply wp_bind.
    apply wp_mono with (Q := by_result (fun _ s => in_stage w s) (fun _ _ => False)).
    { destruct vessel_ids as [|v0 vs]; [by apply wp_ret|].
      apply (wp_faker_in_stage _ _ _ _ w s3
               (fun f => random_element_yields (v0 :: vs) f ltac:(done)) Hs3).
      intros v s' _ Hs'. by apply wp_ret. }
    intros [assigned|e] s4; cbn [by_result]; [|done]. intros Hs4.
    apply wp_bind, wp_subscript.
    2:{ intros Hnone. exfalso.
        destruct (selected_dict_is_Some (pending (conn w)) ContainerType ctype
                    (Htypes _ Hctype)) as [v Hv].
        simpl in Hv. rewrite Hv in Hnone. done. }
    intros type_id _. cbn [by_result].
    apply (wp_faker_in_stage _ _ _ _ w s4 generate_container_number_yields Hs4).
    intros number s5 _ Hs5.
    apply (wp_faker_in_stage _ _ _ _ w s5
             (fun f => random_element_yields [20; 40] f ltac:(done)) Hs5).
    intros size s6 _ Hs6.
    apply (wp_execute_in_stage _ _ _ w); [done | done | exact Hs6|].
    intros s7 Hs7. by apply wp_ret. }
  intros [n|e] s'; cbn [by_result]; [|done]. intros Hs'. by apply wp_ret.
Qed.

(** On a store that answers every statement and holds the four statuses
    a shipment may start in, the shipment stage, given two ports or more,
    completes unless the generator runs out of fresh bills of lading. *)
Lemma populate_shipments_succeeds (w : World) (client_ids : list Z)
    (ports : list string) :
  fault_free (conn w) ->
  (forall name, name ∈ status_options ->
     name ∈ (ShipmentStatus_rows (pending (conn w))).*2) ->
  (2 <= length ports)%nat ->
  wp (populate_shipments client_ids ports)
     (fun r s => ok_or UniquenessException r /\ in_stage w s) w.
Proof.
  intros Hff Hstatuses Hports. unfold populate_shipments.
  set (E := fun (e : exn) (s : World) => e = UniquenessException /\ in_stage w s).
  apply (wp_execute_in_stage _ _ _ w); [done | done | apply in_stage_refl|].
  intros s Hs. apply wp_bind, wp_fetchall; [|intros Hno; exfalso; by eapply Hno].
  intros rows [= <-]. cbn [by_result].
  apply wp_bind. eapply wp_mono.
  { apply wp_for_each with (I := fun _ (_ : list Z) s => in_stage w s) (E := E);
      [exact Hs|].
    intros i client_id acc s0 _ Hs0.
    apply (wp_faker_in_stage _ _ _ _ w s0 (fun f => random_int_yields 2 5 f ltac:(lia)) Hs0).
    intros count s1 _ Hs1.
    apply wp_for_each with (I := fun _ (_ : list Z) s => in_stage w s) (E := E);
      [exact Hs1|].
    intros j _ acc1 s2 _ Hs2.
    apply (wp_faker_in_stage _ _ _ _ w s2
             (fun f => random_elements_unique_2_yields ports f Hports) Hs2).
    intros pair s3 (o & d & ->) Hs3.
    apply (wp_faker_in_stage _ _ _ _ w s3
             (fun f => random_element_yields status_options f ltac:(done)) Hs3).
    intros status s4 Hstatus Hs4.
    apply wp_bind, wp_subscript.
    2:{ intros Hnone. exfalso.
        destruct (selected_dict_is_Some (pending (conn w)) ShipmentStatus status
                    (Hstatuses _ Hstatus)) as [v Hv].
        simpl in Hv. rewrite Hv in Hnone. done. }
    intros status_id _. cbn [by_result].
    apply wp_bind. eapply wp_faker with (V := ok_or UniquenessException).
    { intros f. apply unique_loop_ok_or. }
    destruct Hs4 as [b4 Hb4].
    intros [bill|e] f5 Hbill; cbn [by_result ok_or] in *.
    2:{ split; [done|]. exists b4. by apply entity_step_set_fake. }
    assert (Hs5 : in_stage w (set_fake f5 s4))
      by (exists b4; by apply entity_step_set_fake).
    apply (wp_faker_in_stage _ _ _ _ w _ random_number_5_yields Hs5).
    intros value s6 _ Hs6.
    apply (wp_execute_in_stage _ _ _ w); [done | done | exact Hs6|].
    intros s7 Hs7. apply wp_bind, wp_fetchone_0; [|intros Hno; exfalso; by eapply Hno].
    intros id _. cbn [by_result]. by apply wp_ret. }
  intros [ids|e] s'; cbn [by_result]; [|by intros [-> ?]].
  intros Hs'. by apply wp_ret.
Qed.

(** In a store that answers every statement and holds the four container
    types, the container stage returns, whatever the shipments and the
    vessels. *)
Theorem populate_containers_completes (w : World) (shipment_ids vessel_ids : list Z) :
  fault_free (conn w) ->
  (forall name, name ∈ container_types ->
     name ∈ (ContainerType_rows (pending (conn w))).*2) ->
  exists container_count,
    (populate_containers shipment_ids vessel_ids w).1 = Ok container_count.
Proof.
  intros Hff Htypes.
  destruct (populate_containers_succeeds w shipment_ids vessel_ids Hff Htypes) as [H _].
  destruct (populate_containers shipment_ids vessel_ids w).1 as [n|e]; [|done].
  by exists n.
Qed.

Lemma populate_containers_completes_witness :
  exists container_count,
    (populate_containers [1; 2; 3] [] seeded_world).1 = Ok container_count.
Proof.
  assert (H : forall name, name ∈ container_types ->
                name ∈ (ContainerType_rows (pending (conn seeded_world))).*2).
  { intros name Hname. apply (bool_decide_unpack _).
    apply list_elem_of_In in Hname. simpl in Hname.
    destruct Hname as [<-|[<-|[<-|[<-|[]]]]]; by vm_compute. }
  exact (populate_containers_completes seeded_world [1; 2; 3] []
           seeded_world_fault_free H).
Defined.

(** In a store that answers every statement and holds the statuses
    PENDING, IN_TRANSIT, AWAITING_CUSTOMS and CLEARED, the shipment stage,
    given two ports or more, returns, or ends with Faker's
    UniquenessException when no fresh bill of lading is found. *)
Theorem populate_shipments_outcome (w : World) (client_ids : list Z)
    (ports : list string) :
  fault_free (conn w) ->
  (forall name, name ∈ status_options ->
     name ∈ (ShipmentStatus_rows (pending (conn w))).*2) ->
  (2 <= length ports)%nat ->
  (exists shipment_ids, (populate_shipments client_ids ports w).1 = Ok shipment_ids) \/
  (populate_shipments client_ids ports w).1 = Raise UniquenessException.
Proof.
  intros Hff Hstatuses Hports.
  destruct (populate_shipments_succeeds w client_ids ports Hff Hstatuses Hports) as [H _].
  destruct (populate_shipments client_ids ports w).1 as [ids|e].
  - left. by exists ids.
  - right. simpl in H. by subst e.
Qed.

Lemma populate_shipments_outcome_witness :
  (exists shipment_ids,
     (populate_shipments [1; 2] ["Shanghai"; "Singapore"] seeded_world).1 =
       Ok shipment_ids) \/
  (populate_shipments [1; 2] ["Shanghai"; "Singapore"] seeded_world).1 =
    Raise UniquenessException.
Proof.
  assert (H : forall name, name ∈ status_options ->
                name ∈ (ShipmentStatus_rows (pending (conn seeded_world))).*2).
  { intros name Hname. apply (bool_decide_unpack _).
    apply list_elem_of_In in Hname. simpl in Hname.
    destruct Hname as [<-|[<-|[<-|[<-|[]]]]]; by vm_compute. }
  assert (H2 : (2 <= length ["Shanghai"; "Singapore"])%nat) by (simpl; lia).
  exact (populate_shipments_outcome seeded_world [1; 2] ["Shanghai"; "Singapore"]
           seeded_world_fault_free H H2).
Defined.

(** ** The whole run *)

(** *** The web *)

(** The web as the entity stages leave it: after the request for the
    companies when a stage before the request for the ports fails, after
    both requests otherwise. *)
Lemma entity_phase_net (w : World) :
  wp entity_phase
     (fun r s => match r with
                 | Ok _ => net s = asked (asked (net w))
                 | Raise _ => net s = asked (net w) \/ net s = asked (asked (net w))
                 end) w.
Proof.
  unfold entity_phase.
  destruct (scrape_shipping_companies_asked (net w)) as [companies Hcompanies].
  destruct (scrape_container_ports_asked (asked (net w))) as [ports Hports].
  apply wp_bind, wp_web. rewrite Hcompanies. cbn [fst snd by_result].
  apply wp_bind. eapply wp_mono; [apply populate_clients_spec|].
  intros r1 w1 (cl & S1 & _). pose proof (step_net _ _ _ S1) as N1. simpl in N1.
  destruct r1 as [client_ids|e]; cbn [by_result]; [|by left].
  apply wp_bind, wp_web. rewrite N1, Hports. cbn [fst snd by_result].
  apply wp_bind. eapply wp_mono; [apply populate_vessels_spec|].
  intros r2 w2 (ve & S2 & _). pose proof (step_net _ _ _ S2) as N2. simpl in N2.
  destruct r2 as [vessel_ids|e]; cbn [by_result]; [|by right].
  apply wp_bind. eapply wp_mono; [apply populate_berths_spec|].
  intros r3 w3 (be & S3 & _). pose proof (step_net _ _ _ S3) as N3.
  destruct r3 as [berth_ids|e]; cbn [by_result]; [|right; congruence].
  apply wp_bind. eapply wp_mono; [apply populate_shipments_spec|].
  intros r4 w4 (sh & S4 & _). pose proof (step_net _ _ _ S4) as N4.
  destruct r4 as [shipment_ids|e]; cbn [by_result]; [|right; congruence].
  apply wp_bind. eapply wp_mono; [apply populate_containers_spec|].
  intros r5 w5 (co & S5 & _). pose proof (step_net _ _ _ S5) as N5.
  destruct r5 as [container_count|e]; cbn [by_result]; [|right; congruence].
  apply wp_commit. simpl. congruence.
Qed.

Lemma main_net (w : World) :
  reachable (conn w) = true -> net (main w) = net (main_try w).2.
Proof.
  intros Hr. unfold main, try_except. rewrite Hr.
  by destruct (main_try w) as [[[]|e] w1].
Qed.

(** A run sends at most two requests and never waits: the web it leaves
    is the one it found, or that after one request, or that after two;
    a run whose [try] block completes has sent exactly two. *)
Theorem main_web_usage (w : World) :
  (net (main w) = net w \/
   net (main w) = asked (net w) \/
   net (main w) = asked (asked (net w))) /\
  (reachable (conn w) = true -> (main_try w).1 = Ok tt ->
   net (main w) = asked (asked (net w))).
Proof.
  destruct (reachable (conn w)) eqn:Hr.
  2:{ unfold main. rewrite Hr. split; [by left | done]. }
  rewrite (main_net w Hr).
  destruct (main_try_cases w) as (r0 & w0 & E0 & H0 & Hcases).
  pose proof (reset_net _ _ _ H0) as N0.
  destruct r0 as [[]|e0].
  2:{ rewrite Hcases. simpl. split; [by left | done]. }
  destruct Hcases as (r1 & wl & E1 & H1 & Hcases).
  pose proof (populated_net _ _ _ H1) as N1.
  destruct r1 as [[]|e1].
  2:{ rewrite Hcases. simpl. split; [left; congruence | done]. }
  destruct Hcases as (r2 & w1 & E2 & _).
  pose proof (entity_phase_net wl) as H2. unfold wp in H2.
  assert (E2' : entity_phase wl = (r2, w1)).
  { rewrite main_try_phases in E2. unfold mbind, M_bind in E2.
    by rewrite E0, E1 in E2. }
  rewrite E2' in H2. rewrite E2. simpl in *. rewrite N1, N0 in H2.
  destruct r2 as [[]|e2].
  - split; [by right; right | done].
  - split; [by right | done].
Qed.

(** *** A run that finds no company *)

Lemma populate_shipments_no_clients (ports : list string) (w0 w : World) (b : Batch) :
  fault_free (conn w0) -> entity_step b w0 w ->
  wp (populate_shipments [] ports)
     (fun r s => r = Ok [] /\ entity_step b w0 s) w.
Proof.
  intros Hff Hstep. unfold populate_shipments.
  apply wp_bind.
  eapply wp_execute_entity; [done | exact Hstep | by intros | ].
  intros s Hs _. cbn [by_result].
  apply wp_bind, wp_fetchall; [|intros Hno; exfalso; by eapply Hno].
  intros rows _. cbn [by_result]. apply wp_bind, wp_ret. cbn [by_result].
  apply wp_ret. split; [done|].
  destruct b; simpl in Hs. unfold batch_app in Hs. simpl in Hs.
  by rewrite !app_nil_r in Hs.
Qed.

Lemma populate_containers_no_shipments (vessel_ids : list Z) (w0 w : World) (b : Batch) :
  fault_free (conn w0) -> entity_step b w0 w ->
  wp (populate_containers [] vessel_ids)
     (fun r s => r = Ok 0 /\ entity_step b w0 s) w.
Proof.
  intros Hff Hstep. unfold populate_containers.
  apply wp_bind.
  eapply wp_execute_entity; [done | exact Hstep | by intros | ].
  intros s Hs _. cbn [by_result].
  apply wp_bind, wp_fetchall; [|intros Hno; exfalso; by eapply Hno].
  intros rows _. cbn [by_result]. apply wp_bind, wp_ret. cbn [by_result].
  apply wp_ret. split; [done|].
  destruct b; simpl in Hs. unfold batch_app in Hs. simpl in Hs.
  by rewrite !app_nil_r in Hs.
Qed.

Lemma entity_phase_no_companies (w : World) :
  fault_free (conn w) ->
  (scrape_shipping_companies (net w)).1 = Ok [] ->
  "OCCUPIED" ∈ (BerthStatus_rows (pending (conn w))).*2 ->
  "AVAILABLE" ∈ (BerthStatus_rows (pending (conn w))).*2 ->
  wp entity_phase
     (fun r s =>
        r = Ok tt /\
        exists be,
          committed (conn s) = add_rows (pending (conn w)) (only_berths be) /\
          length be = 20%nat /\
          forall (k : nat) b, be !! k = Some b ->
            berth_at (pending (conn w)) [] (1 + Z.of_nat k) b) w.
Proof.
  intros Hff Hnone Hocc Hav. unfold entity_phase.
  destruct (scrape_shipping_companies_asked (net w)) as [companies Hcompanies].
  rewrite Hcompanies in Hnone. injection Hnone as ->.
  destruct (scrape_container_ports_asked (asked (net w))) as [ports Hports].
  apply wp_bind, wp_web. rewrite Hcompanies. cbn [fst snd by_result].
  set (w1 := set_net (asked (net w)) w).
  apply wp_bind. change (populate_clients []) with (mret [] : M World (list Z)).
  apply wp_ret. cbn [by_result].
  apply wp_bind, wp_web. simpl net. rewrite Hports. cbn [fst snd by_result].
  set (w2 := set_net (asked (asked (net w))) w1).
  apply wp_bind. change (populate_vessels (len [])) with (mret [] : M World (list Z)).
  apply wp_ret. cbn [by_result].
  apply wp_bind. eapply wp_mono; [apply populate_berths_spec|].
  intros r3 w3 (be & S3 & Rows3 & R3 & Hok3).
  specialize (Hok3 Hff Hocc Hav).
  destruct r3 as [berth_ids|e]; [|done]. cbn [by_result].
  destruct (R3 _ eq_refl) as [Lbe _].
  assert (Hff2 : fault_free (conn w2)) by exact Hff.
  apply wp_bind. eapply wp_mono; [by apply (populate_shipments_no_clients ports w2 w3)|].
  intros r4 w4 [-> S4]. cbn [by_result].
  apply wp_bind. eapply wp_mono; [by apply (populate_containers_no_shipments [] w2 w4)|].
  intros r5 w5 [-> S5]. cbn [by_result].
  apply wp_commit. split; [done|]. exists be. simpl.
  split; [by rewrite (step_pending _ _ _ S5)|]. split; [done|]. exact Rows3.
Qed.

(** On a store that answers every statement the reset and the lookup
    seeder complete: the entity stages start from empty entity tables and
    full lookup tables, all committed. *)
Lemma main_try_fault_free (w : World) :
  fault_free (conn w) ->
  exists wl,
    main_try w = entity_phase wl /\
    fault_free (conn wl) /\ net wl = net w /\
    committed (conn wl) = pending (conn wl) /\
    entity_tables (pending (conn wl)) = ([], [], [], [], []) /\
    forall l, (lookup_rows l (pending (conn wl))).*2 = enumeration l.
Proof.
  intros Hff.
  destruct (truncate_tables_fault_free w Hff) as (R0 & C0 & P0).
  apply no_rows_empty_tables in P0.
  pose proof (truncate_tables_spec w) as H0. unfold wp in H0.
  rewrite main_try_phases. unfold mbind, M_bind.
  destruct (truncate_tables w) as [r0 w0]. simpl in R0, C0, P0, H0. subst r0.
  assert (Hff0 : fault_free (conn w0)).
  { intros k s. rewrite (reset_fault _ _ _ H0). apply Hff. }
  pose proof (populate_lookup_tables_spec w0) as H1. unfold wp in H1.
  destruct (populate_lookup_tables w0) as [r1 wl]. simpl in H1.
  pose proof (populated_fault_free _ _ _ H1 Hff0) as ->.
  destruct (populated_ok _ _ _ H1 eq_refl) as [C1 L1].
  pose proof (populated_entities _ _ _ H1) as E1. rewrite P0 in E1.
  exists wl. split; [done|]. split.
  { intros k s. rewrite (populated_fault _ _ _ H1). apply Hff0. }
  split; [rewrite (populated_net _ _ _ H1); apply (reset_net _ _ _ H0)|].
  split; [done|]. split; [done|].
  intros l. rewrite L1, P0.
  replace (lookup_rows l empty_tables) with (@nil (Z * string)) by (by destruct l).
  apply seed_rows_empty.
Qed.

(** When the company scraper finds no name, as it does when the web
    cannot be reached, a run on a store that answers every statement
    completes all the same: it commits the lookup values, no client, no
    vessel, no shipment, no container, and the twenty berths B001 to
    B020, every one AVAILABLE and without a vessel. *)
Theorem main_without_companies (w : World) :
  reachable (conn w) = true ->
  fault_free (conn w) ->
  (scrape_shipping_companies (net w)).1 = Ok [] ->
  let T := committed (conn (main w)) in
  (main_try w).1 = Ok tt /\
  (forall l, (lookup_rows l T).*2 = enumeration l) /\
  client_rows T = [] /\ vessel_rows T = [] /\
  shipment_rows T = [] /\ container_rows T = [] /\
  berth_number <$> berth_rows T = berth_numbers /\
  Forall (fun b => berth_vessel_id b = None /\ berth_has_status T "AVAILABLE" b)
         (berth_rows T).
Proof.
  intros Hreach Hff Hnone T. subst T.
  rewrite (main_committed w Hreach).
  destruct (main_try_fault_free w Hff) as (wl & -> & Hffl & Hnet & C1 & E1 & Hnames).
  pose proof (entity_phase_no_companies wl Hffl) as H2.
  rewrite Hnet in H2. specialize (H2 Hnone).
  pose proof (Hnames BerthStatus) as HB. simpl in HB.
  rewrite HB in H2.
  specialize (H2 ltac:(by right; left) ltac:(by left)).
  unfold wp in H2. destruct (entity_phase wl) as [r2 w2]. simpl in H2.
  destruct H2 as (-> & be & C2 & Lbe & Rows). simpl.
  split; [done|]. rewrite C2.
  injection E1 as Ecl Eve Ebe Esh Eco.
  split; [intros l; by rewrite lookup_rows_add_rows|].
  simpl. rewrite Ecl, Eve, Ebe, Esh, Eco. simpl.
  split; [done|]. split; [done|]. split; [done|]. split; [done|].
  split; [by eapply berth_numbers_of_rows|].
  apply Forall_lookup_2. intros k b Hk.
  destruct (Rows k b Hk) as [_ Hat]. rewrite decide_False in Hat by (unfold len; simpl; lia).
  destruct Hat as [Hst Hv]. split; [done|]. exact Hst.
Qed.

Lemma main_without_companies_witness :
  let T := committed (conn (main offline_world)) in
  (main_try offline_world).1 = Ok tt /\
  (forall l, (lookup_rows l T).*2 = enumeration l) /\
  client_rows T = [] /\ vessel_rows T = [] /\
  shipment_rows T = [] /\ container_rows T = [] /\
  berth_number <$> berth_rows T = berth_numbers /\
  Forall (fun b => berth_vessel_id b = None /\ berth_has_status T "AVAILABLE" b)
         (berth_rows T).
Proof.
  assert (H1 : reachable (conn offline_world) = true) by reflexivity.
  assert (H2 : fault_free (conn offline_world)) by (intros k s; reflexivity).
  assert (H3 : (scrape_shipping_companies (net offline_world)).1 = Ok [])
    by (vm_compute; reflexivity).
  pose proof (main_without_companies offline_world H1 H2 H3) as P.
  exact P.
Defined.

(** *** A run that finds companies but fewer than two ports *)

Lemma entity_phase_too_few_ports (w : World) (companies ports : list string) :
  fault_free (conn w) ->
  (scrape_shipping_companies (net w)).1 = Ok companies ->
  companies <> [] ->
  (scrape_container_ports (asked (net w))).1 = Ok ports ->
  (length ports < 2)%nat ->
  "OCCUPIED" ∈ (BerthStatus_rows (pending (conn w))).*2 ->
  "AVAILABLE" ∈ (BerthStatus_rows (pending (conn w))).*2 ->
  wp entity_phase
     (fun r s => r = Raise ValueError /\ committed (conn s) = committed (conn w)) w.
Proof.
  intros Hff Hcos Hne Hpos Hfew Hocc Hav. unfold entity_phase.
  destruct (scrape_shipping_companies_asked (net w)) as [companies' Hcompanies].
  rewrite Hcompanies in Hcos. injection Hcos as ->.
  destruct (scrape_container_ports_asked (asked (net w))) as [ports' Hports].
  rewrite Hports in Hpos. injection Hpos as ->.
  apply wp_bind, wp_web. rewrite Hcompanies. cbn [fst snd by_result].
  set (w0 := set_net (asked (net w)) w).
  assert (Hff0 : fault_free (conn w0)) by exact Hff.
  apply wp_bind. eapply wp_mono; [apply populate_clients_run|].
  intros r1 w1 (cl & S1 & _ & _ & Hok1 & Hraise1).
  destruct r1 as [client_ids|e]; [|by destruct (Hraise1 e eq_refl)].
  cbn [by_result]. destruct (Hok1 _ eq_refl) as [Hnames ->].
  assert (Hclients : client_id <$> cl <> []).
  { intros Hnil. apply Hne. rewrite <- Hnames.
    apply fmap_nil_inv in Hnil. by subst cl. }
  assert (Hff1 : fault_free (conn w1)) by (by eapply entity_step_fault_free).
  pose proof (step_net _ _ _ S1) as N1. simpl in N1.
  apply wp_bind, wp_web. rewrite N1, Hports. cbn [fst snd by_result].
  set (w1' := set_net (asked (asked (net w))) w1).
  assert (Hff1' : fault_free (conn w1')) by exact Hff1.
  apply wp_bind. eapply wp_mono; [apply populate_vessels_run|].
  intros r2 w2 (ve & S2 & _ & _ & _ & Hraise2).
  destruct r2 as [vessel_ids|e]; [|by destruct (Hraise2 e eq_refl)].
  cbn [by_result].
  assert (Hff2 : fault_free (conn w2)) by (by eapply entity_step_fault_free).
  assert (L2 : BerthStatus_rows (pending (conn w2)) = BerthStatus_rows (pending (conn w))).
  { rewrite (step_pending _ _ _ S2). simpl. by rewrite (step_pending _ _ _ S1). }
  apply wp_bind. eapply wp_mono; [apply populate_berths_spec|].
  intros r3 w3 (be & S3 & _ & _ & Hok3).
  rewrite L2 in Hok3. specialize (Hok3 Hff2 Hocc Hav).
  destruct r3 as [berth_ids|e]; [|done]. cbn [by_result].
  assert (Hff3 : fault_free (conn w3)) by (by eapply entity_step_fault_free).
  apply wp_bind. eapply wp_mono;
    [apply (populate_shipments_too_few_ports_run w3 _ ports (Hff3 _ _) Hclients Hfew)|].
  intros r4 w4 (-> & _ & C4). cbn [by_result]. split; [done|].
  rewrite C4, (step_committed _ _ _ S3), (step_committed _ _ _ S2). simpl.
  by rewrite (step_committed _ _ _ S1).
Qed.

(** When the company scraper finds names and the port scraper fewer than
    two, as it does when the page of the ports cannot be reached, a run
    on a store that answers every statement seeds nothing: the shipment
    stage ends with a ValueError, clients, vessels and berths are rolled
    back, and the store is left with the lookup values alone. *)
Theorem main_too_few_ports (w : World) (companies ports : list string) :
  reachable (conn w) = true ->
  fault_free (conn w) ->
  (scrape_shipping_companies (net w)).1 = Ok companies ->
  companies <> [] ->
  (scrape_container_ports (asked (net w))).1 = Ok ports ->
  (length ports < 2)%nat ->
  (main_try w).1 = Raise ValueError /\
  entity_tables (committed (conn (main w))) = ([], [], [], [], []) /\
  forall l, (lookup_rows l (committed (conn (main w)))).*2 = enumeration l.
Proof.
  intros Hreach Hff Hcos Hne Hpos Hfew.
  rewrite (main_committed w Hreach).
  destruct (main_try_fault_free w Hff) as (wl & -> & Hffl & Hnet & C1 & E1 & Hnames).
  pose proof (entity_phase_too_few_ports wl companies ports Hffl) as H2.
  rewrite Hnet in H2. specialize (H2 Hcos Hne Hpos Hfew).
  pose proof (Hnames BerthStatus) as HB. simpl in HB. rewrite HB in H2.
  specialize (H2 ltac:(by right; left) ltac:(by left)).
  unfold wp in H2. destruct (entity_phase wl) as [r2 w2]. simpl in H2.
  destruct H2 as [-> C2]. simpl. rewrite C2, C1. done.
Qed.

Lemma main_too_few_ports_witness :
  (main_try world_without_ports).1 = Raise ValueError /\
  entity_tables (committed (conn (main world_without_ports))) = ([], [], [], [], []) /\
  forall l, (lookup_rows l (committed (conn (main world_without_ports)))).*2 =
            enumeration l.
Proof.
  assert (H1 : reachable (conn world_without_ports) = true) by reflexivity.
  assert (H2 : fault_free (conn world_without_ports)) by (intros k s; reflexivity).
  assert (H3 : (scrape_shipping_companies (net world_without_ports)).1 =
               Ok ["Maersk"; "Mediterranean Shipping Company"; "CMA CGM";
                   "COSCO Shipping"; "Hapag-Lloyd"; "Ocean Network Express"])
    by (vm_compute; reflexivity).
  assert (H4 : ["Maersk"; "Mediterranean Shipping Company"; "CMA CGM";
                "COSCO Shipping"; "Hapag-Lloyd"; "Ocean Network Express"] <> [])
    by discriminate.
  assert (H5 : (scrape_container_ports (asked (net world_without_ports))).1 = Ok [])
    by (vm_compute; reflexivity).
  assert (H6 : (length (@nil string) < 2)%nat) by (simpl; lia).
  pose proof (main_too_few_ports world_without_ports _ _ H1 H2 H3 H4 H5 H6) as P.
  exact P.
Defined.

(** *** When a run completes *)

Lemma entity_phase_succeeds (w : World) (companies ports : list string) :
  fault_free (conn w) ->
  (scrape_shipping_companies (net w)).1 = Ok companies ->
  (scrape_container_ports (asked (net w))).1 = Ok ports ->
  companies = [] \/ (2 <= length ports)%nat ->
  (forall l, (lookup_rows l (pending (conn w))).*2 = enumeration l) ->
  wp entity_phase (fun r s => ok_or UniquenessException r) w.
Proof.
  intros Hff Hcos Hpos Henough Hnames. unfold entity_phase.
  destruct (scrape_shipping_companies_asked (net w)) as [companies' Hcompanies].
  rewrite Hcompanies in Hcos. injection Hcos as ->.
  destruct (scrape_container_ports_asked (asked (net w))) as [ports' Hports].
  rewrite Hports in Hpos. injection Hpos as ->.
  set (P := fun s : World =>
    fault_free (conn s) /\
    forall l, (lookup_rows l (pending (conn s))).*2 = enumeration l).
  assert (Hstep : forall b s s', entity_step b s s' -> P s -> P s').
  { intros b s s' Hb [Hf Hl]. split; [by eapply entity_step_fault_free|].
    intros l. by rewrite (entity_step_lookup_rows _ _ _ l Hb). }
  assert (P0 : P w) by (by split).
  apply wp_bind, wp_web. rewrite Hcompanies. cbn [fst snd by_result].
  set (w0 := set_net (asked (net w)) w).
  apply wp_bind. eapply wp_mono; [apply populate_clients_run|].
  intros r1 w1 (cl & S1 & _ & _ & Hok1 & Hraise1).
  destruct r1 as [client_ids|e]; [|by destruct (Hraise1 e eq_refl)].
  cbn [by_result]. destruct (Hok1 _ eq_refl) as [Hcl ->].
  assert (P1 : P w1) by exact (Hstep _ w0 w1 S1 P0).
  pose proof (step_net _ _ _ S1) as N1. simpl in N1.
  apply wp_bind, wp_web. rewrite N1, Hports. cbn [fst snd by_result].
  set (w1' := set_net (asked (asked (net w))) w1).
  apply wp_bind. eapply wp_mono; [apply populate_vessels_run|].
  intros r2 w2 (ve & S2 & _ & _ & _ & Hraise2).
  destruct r2 as [vessel_ids|e].
  2:{ destruct (Hraise2 e eq_refl) as [_ Hn]. exfalso. apply Hn. apply P1. }
  cbn [by_result].
  assert (P2 : P w2) by exact (Hstep _ w1' w2 S2 P1).
  apply wp_bind. eapply wp_mono; [apply populate_berths_spec|].
  intros r3 w3 (be & S3 & _ & _ & Hok3).
  pose proof (proj2 P2 BerthStatus) as HB. simpl in HB. rewrite HB in Hok3.
  specialize (Hok3 (proj1 P2) ltac:(by right; left) ltac:(by left)).
  destruct r3 as [berth_ids|e]; [|done]. cbn [by_result].
  assert (P3 : P w3) by exact (Hstep _ w2 w3 S3 P2).
  apply wp_bind.
  apply wp_mono with (Q := fun r s => ok_or UniquenessException r /\ in_stage w3 s).
  { destruct Henough as [->|Hports2].
    - apply fmap_nil_inv in Hcl. subst cl. simpl.
      eapply wp_mono;
        [apply (populate_shipments_no_clients ports w3 w3 no_rows (proj1 P3)),
               entity_step_refl|].
      intros r s [-> Hs]. split; [done|]. by eexists.
    - apply populate_shipments_succeeds; [apply P3 | | done].
      intros name Hname.
      pose proof (proj2 P3 ShipmentStatus) as HS. simpl in HS. rewrite HS.
      apply list_elem_of_In in Hname. apply list_elem_of_In. simpl in *. tauto. }
  intros r4 w4 [Hr4 [b4 I4]]. destruct r4 as [shipment_ids|e]; [|exact Hr4].
  cbn [by_result].
  assert (P4 : P w4) by exact (Hstep _ w3 w4 I4 P3).
  apply wp_bind. eapply wp_mono.
  { apply populate_containers_succeeds; [apply P4|].
    intros name Hname.
    pose proof (proj2 P4 ContainerType) as HC. simpl in HC. by rewrite HC. }
  intros r5 w5 [Hr5 _]. destruct r5 as [container_count|e]; [|done].
  cbn [by_result]. by apply wp_commit.
Qed.

(** On a store that answers every statement the [try] block of a run
    completes when the scrapers find no company or two ports or more; the
    one exception left is Faker's UniquenessException, raised when no
    fresh bill of lading is found. *)
Theorem main_try_completes (w : World) (companies ports : list string) :
  fault_free (conn w) ->
  (scrape_shipping_companies (net w)).1 = Ok companies ->
  (scrape_container_ports (asked (net w))).1 = Ok ports ->
  companies = [] \/ (2 <= length ports)%nat ->
  (main_try w).1 = Ok tt \/ (main_try w).1 = Raise UniquenessException.
Proof.
  intros Hff Hcos Hpos Henough.
  destruct (main_try_fault_free w Hff) as (wl & -> & Hffl & Hnet & _ & _ & Hnames).
  pose proof (entity_phase_succeeds wl companies ports Hffl) as H.
  rewrite Hnet in H. specialize (H Hcos Hpos Henough Hnames).
  unfold wp in H. destruct (entity_phase wl).1 as [[]|e]; [by left|].
  right. simpl in H. by subst e.
Qed.

Lemma main_try_completes_witness :
  (main_try fallback_world).1 = Ok tt \/
  (main_try fallback_world).1 = Raise UniquenessException.
Proof.
  assert (H1 : fault_free (conn fallback_world)) by (intros k s; reflexivity).
  assert (H2 : (scrape_shipping_companies (net fallback_world)).1 =
               Ok ["Maersk"; "Mediterranean Shipping Company"; "CMA CGM";
                   "COSCO Shipping"; "Hapag-Lloyd"; "Ocean Network Express"])
    by (vm_compute; reflexivity).
  assert (H3 : (scrape_container_ports (asked (net fallback_world))).1 =
               Ok ["Shanghai"; "Singapore"; "Ningbo-Zhoushan"; "Shenzhen"; "Guangzhou"])
    by (vm_compute; reflexivity).
  assert (H4 : (2 <= length ["Shanghai"; "Singapore"; "Ningbo-Zhoushan"; "Shenzhen";
                             "Guangzhou"])%nat) by (simpl; lia).
  pose proof (main_try_completes fallback_world _ _ H1 H2 H3 (or_intror H4)) as P.
  exact P.
Defined.
